(** * icalaggregator: a shallow embedding of [icalaggregator.py]

    The program reads one iCalendar feed per room, merges the events and
    writes them back as one feed and as an HTML grid.  This file embeds the
    line unfolder ([IcalReader]), the event record with its timestamp codec
    and validation ([Event]), the feed parser ([Aggregator._parse_ical]),
    the collection and sorting step ([Aggregator.pull_all]) and the grid
    layout ([Aggregator.generate_html]), and proves properties of them.

    Conventions.
    - A Python byte string is a [string]; a list is a [list].
    - A raised exception is the left injection of a sum, see [pyres].
    - An aware UTC [datetime] without microseconds ([strptime] with [%S]
      never produces any) is the number of seconds since
      0001-01-01T00:00:00, so that [toordinal () = t / 86400 + 1].
    - A [date] is its proleptic Gregorian ordinal.
    - A Python 2 [float] is a binary64 [float] of the kernel. *)

From Stdlib Require Import ZArith Lia Bool List String Ascii.
From Stdlib Require Import Sorting.Sorted Sorting.Permutation.
From Stdlib Require Import Floats.PrimFloat Numbers.Cyclic.Int63.Uint63.
Import ListNotations.

Local Open Scope string_scope.
Local Open Scope Z_scope.

(** ** Exceptions *)

(** The exceptions the program can raise: its own [Exception (msg)] and
    the built-in ones raised by the operations it calls. *)
Inductive pyexc : Type :=
| Exception (msg : string)
| ValueError
| OverflowError
| AttributeError
| KeyError
| TypeError
| URLError.

(** The outcome of a call that may raise. *)
Definition pyres (A : Type) : Type := (pyexc + A)%type.

Definition ret {A : Type} (a : A) : pyres A := inr a.
Definition raise {A : Type} (e : pyexc) : pyres A := inl e.

Definition bind {A B : Type} (m : pyres A) (k : A -> pyres B) : pyres B :=
  match m with
  | inl e => inl e
  | inr a => k a
  end.

Notation "x <- m ;; k" := (bind m (fun x => k))
  (at level 61, m at next level, right associativity).

(** ** Python string operations used by the program *)

Module Str.

Definition LF : ascii := ascii_of_nat 10.
Definition CR : ascii := ascii_of_nat 13.
Definition CRLF : string := String CR (String LF EmptyString).

(** [str.isspace] on one byte in the C locale: TAB, LF, VT, FF, CR and
    the space. *)
Definition isspace (c : ascii) : bool :=
  let n := nat_of_ascii c in
  ((9 <=? n)%nat && (n <=? 13)%nat) || (n =? 32)%nat.

Definition is_empty (s : string) : bool :=
  match s with
  | EmptyString => true
  | String _ _ => false
  end.

(** [s.rstrip ()] *)
Fixpoint rstrip (s : string) : string :=
  match s with
  | EmptyString => EmptyString
  | String c r =>
      let r' := rstrip r in
      if isspace c && is_empty r' then EmptyString else String c r'
  end.

(** [s.lstrip ()] *)
Fixpoint lstrip (s : string) : string :=
  match s with
  | EmptyString => EmptyString
  | String c r => if isspace c then lstrip r else s
  end.

(** [s.startswith (p)] *)
Definition startswith (s p : string) : bool := String.prefix p s.

(** [s[n:]] *)
Fixpoint slice_from (n : nat) (s : string) : string :=
  match n, s with
  | O, _ => s
  | S _, EmptyString => EmptyString
  | S n', String _ r => slice_from n' r
  end.

(** [s.replace ('\,', ',')]: every backslash followed by a comma, read
    from the left without overlap, becomes a comma. *)
Fixpoint replace_escaped_comma (s : string) : string :=
  match s with
  | EmptyString => EmptyString
  | String c r =>
      match r with
      | String c' r' =>
          if (Ascii.eqb c "\") && (Ascii.eqb c' ",")
          then String "," (replace_escaped_comma r')
          else String c (replace_escaped_comma r)
      | EmptyString => s
      end
  end.

(** [f.readlines ()] on the text [s]: the text cut after every LF, each
    line keeping its terminator. *)
Fixpoint readlines (s : string) : list string :=
  match s with
  | EmptyString => []
  | String c r =>
      if Ascii.eqb c LF then String c EmptyString :: readlines r
      else match readlines r with
           | [] => [String c EmptyString]
           | l :: ls => String c l :: ls
           end
  end.

(** Every character of [s] is white space. *)
Fixpoint all_space (s : string) : bool :=
  match s with
  | EmptyString => true
  | String c r => isspace c && all_space r
  end.

(** The first and the last character of a string, if any. *)
Definition first_char (s : string) : option ascii :=
  match s with
  | EmptyString => None
  | String c _ => Some c
  end.

Fixpoint last_char (s : string) : option ascii :=
  match s with
  | EmptyString => None
  | String c EmptyString => Some c
  | String _ r => last_char r
  end.

Definition concat_all (l : list string) : string :=
  fold_right String.append EmptyString l.

(** The truth value of what is [None] or a string: [None] and the empty
    string are false. *)
Definition truthy (o : option string) : bool :=
  match o with
  | None => false
  | Some s => negb (is_empty s)
  end.

(** ["%s" % v] where [v] is [None] or a string. *)
Definition percent_s (o : option string) : string :=
  match o with
  | None => "None"
  | Some s => s
  end.

(** [v or ''] where [v] is [None] or a string. *)
Definition or_empty (o : option string) : string :=
  match o with
  | None => EmptyString
  | Some s => s
  end.

(** No character of [s] is a line feed. *)
Fixpoint no_lf (s : string) : bool :=
  match s with
  | EmptyString => true
  | String c r => negb (Ascii.eqb c LF) && no_lf r
  end.

(** No character of [s] is white space. *)
Fixpoint no_space (s : string) : bool :=
  match s with
  | EmptyString => true
  | String c r => negb (isspace c) && no_space r
  end.

(** A backslash followed by a comma occurs in [s]. *)
Fixpoint has_escaped_comma (s : string) : bool :=
  match s with
  | EmptyString => false
  | String c r =>
      match r with
      | String c' _ =>
          (Ascii.eqb c "\" && Ascii.eqb c' ",") || has_escaped_comma r
      | EmptyString => false
      end
  end.

End Str.

(** ** The line unfolder: [class IcalReader] *)

Module IcalReader.

(** The reader's only attribute, [self.lines]. *)
Definition t : Type := list string.

(** [__init__]: [self.lines = [l.rstrip() for l in f.readlines()]] where
    [f.readlines ()] is [flines]. *)
Definition init (flines : list string) : t := map Str.rstrip flines.

(** The [while True] loop of [readline], entered with [self.lines]
    non-empty; [s] is the [StringIO] buffer.  It returns the buffer and
    the lines left. *)
Fixpoint readline_loop (s : string) (lines : t) : string * t :=
  match lines with
  | [] => (s, [])
  | l :: rest =>
      let s' := s ++ Str.lstrip l in
      match rest with
      | [] => (s', [])
      | l' :: _ =>
          if negb (Str.startswith l' " ") then (s', rest)
          else readline_loop s' rest
      end
  end.

(** [readline]: [None] when no line is left, else the next logical
    line. *)
Definition readline (lines : t) : option string * t :=
  match lines with
  | [] => (None, [])
  | _ :: _ =>
      let (s, rest) := readline_loop EmptyString lines in (Some s, rest)
  end.

(** The next line of the reader does not continue the current one:
    there is none, or it does not start with a space. *)
Definition starts_line (rest : t) : Prop :=
  match rest with
  | [] => True
  | l' :: _ => Str.startswith l' " " = false
  end.

(** All the logical lines of the reader: what [readline] returns, call
    after call, until it returns [None]. *)
Fixpoint logical_lines (lines : t) : list string :=
  match lines with
  | [] => []
  | l :: rest =>
      match rest with
      | [] => [Str.lstrip l]
      | l' :: _ =>
          if negb (Str.startswith l' " ")
          then Str.lstrip l :: logical_lines rest
          else match logical_lines rest with
               | [] => [Str.lstrip l]
               | hd :: tl => (Str.lstrip l ++ hd)%string :: tl
               end
      end
  end.

End IcalReader.

(** ** Dates and times: the part of [datetime] the program uses *)

Module Datetime.

(** An aware UTC [datetime]: seconds since 0001-01-01T00:00:00. *)
Definition datetime : Type := Z.

(** A [date]: its proleptic Gregorian ordinal, [date.toordinal ()]. *)
Definition date : Type := Z.

(** A [tzinfo] of pytz: the UTC offset, in seconds, it gives to a UTC
    instant. *)
Definition tzinfo : Type := datetime -> Z.

Definition DI400Y : Z := 146097.
Definition DI100Y : Z := 36524.
Definition DI4Y : Z := 1461.

(** Ordinal of 9999-12-31, the largest date. *)
Definition MAXORDINAL : Z := 3652059.

(** The instants a [datetime] can hold: years 1 to 9999. *)
Definition in_range (t : Z) : bool :=
  (0 <=? t) && (t <? MAXORDINAL * 86400).

Definition is_leap (y : Z) : bool :=
  (y mod 4 =? 0) && (negb (y mod 100 =? 0) || (y mod 400 =? 0)).

Definition DAYS_IN_MONTH (m : Z) : Z :=
  match m with
  | 1 => 31 | 2 => 28 | 3 => 31 | 4 => 30 | 5 => 31 | 6 => 30
  | 7 => 31 | 8 => 31 | 9 => 30 | 10 => 31 | 11 => 30 | 12 => 31
  | _ => 0
  end.

Definition DAYS_BEFORE_MONTH (m : Z) : Z :=
  match m with
  | 1 => 0 | 2 => 31 | 3 => 59 | 4 => 90 | 5 => 120 | 6 => 151
  | 7 => 181 | 8 => 212 | 9 => 243 | 10 => 273 | 11 => 304 | 12 => 334
  | _ => 0
  end.

Definition days_in_month (y m : Z) : Z :=
  if (m =? 2) && is_leap y then 29 else DAYS_IN_MONTH m.

Definition days_before_month (y m : Z) : Z :=
  DAYS_BEFORE_MONTH m + (if (2 <? m) && is_leap y then 1 else 0).

Definition days_before_year (year : Z) : Z :=
  let y := year - 1 in
  y * 365 + y / 4 - y / 100 + y / 400.

(** year, month, day -> ordinal, considering 01-Jan-0001 as day 1. *)
Definition ymd_to_ord (y m d : Z) : Z :=
  days_before_year y + days_before_month y m + d.

(** ordinal -> year, month, day. *)
Definition ord_to_ymd (ordinal : Z) : Z * Z * Z :=
  let ordinal := ordinal - 1 in
  let n400 := ordinal / DI400Y in
  let n := ordinal mod DI400Y in
  let year := n400 * 400 + 1 in
  let n100 := n / DI100Y in
  let n := n mod DI100Y in
  let n4 := n / DI4Y in
  let n := n mod DI4Y in
  let n1 := n / 365 in
  let n := n mod 365 in
  let year := year + (n100 * 100 + n4 * 4 + n1) in
  if (n1 =? 4) || (n100 =? 4) then (year - 1, 12, 31)
  else
    let leapyear := (n1 =? 3) && (negb (n4 =? 24) || (n100 =? 3)) in
    let month := Z.shiftr (n + 50) 5 in
    let preceding :=
      DAYS_BEFORE_MONTH month
      + (if (2 <? month) && leapyear then 1 else 0) in
    if n <? preceding
    then
      let month := month - 1 in
      let preceding := preceding - days_in_month year month in
      (year, month, n - preceding + 1)
    else (year, month, n - preceding + 1).

(** [t.date ()] *)
Definition date_of (t : datetime) : date := t / 86400 + 1.

(** [t.astimezone (tz)] for an aware UTC [t]: the wall clock of [tz]
    at the instant, as seconds since 0001-01-01T00:00:00 on that clock.
    [fromutc] of pytz adds the offset to the instant, and a sum outside
    the years 1 to 9999 overflows. *)
Definition astimezone (tz : tzinfo) (t : datetime) : pyres datetime :=
  let local := t + tz t in
  if in_range local then ret local else raise OverflowError.

(** [t.astimezone (tz).date ()]: the calendar date of the instant on
    the wall clock of [tz]. *)
Definition local_date (tz : tzinfo) (t : datetime) : pyres date :=
  local <- astimezone tz t ;; ret (date_of local).

(** [(t - c).seconds]: a [timedelta] is normalised to days, seconds in
    [0, 86400) and microseconds, and [.seconds] is its second part. *)
Definition timedelta_seconds (t c : datetime) : Z := (t - c) mod 86400.

(** [(t - c).days] *)
Definition timedelta_days (t c : datetime) : Z := (t - c) / 86400.

(** *** Printing: [strftime ("%Y%m%dT%H%M%SZ")] *)

Definition digit_char (n : Z) : ascii := ascii_of_N (Z.to_N (48 + n)).

Definition d2 (n : Z) : string :=
  String (digit_char (n / 10)) (String (digit_char (n mod 10)) "").

Definition d4 (n : Z) : string :=
  String (digit_char (n / 1000))
    (String (digit_char (n / 100 mod 10)) (d2 (n mod 100))).

(** Python 2 refuses to format a year before 1900. *)
Definition strftime (t : datetime) : pyres string :=
  let '(y, m, d) := ord_to_ymd (t / 86400 + 1) in
  if y <? 1900 then raise ValueError
  else
    let sod := t mod 86400 in
    ret (d4 y ++ d2 m ++ d2 d ++ "T"
         ++ d2 (sod / 3600) ++ d2 (sod / 60 mod 60) ++ d2 (sod mod 60)
         ++ "Z").

(** *** Parsing: [strptime (v, "%Y%m%dT%H%M%SZ")]

    [_strptime] turns the format into a regular expression, one group
    per directive, matches it at the start of the text with
    [re.IGNORECASE] and then refuses a match that leaves text over.  A
    matcher below gives every way its pattern matches a prefix, in the
    order a backtracking matcher tries them. *)

Definition matcher (A : Type) : Type := string -> list (A * string).

Definition digit_val (c : ascii) : option Z :=
  let n := Z.of_N (N_of_ascii c) in
  if (48 <=? n) && (n <=? 57) then Some (n - 48) else None.

(** [[lo-hi]]: one digit between [lo] and [hi]. *)
Definition range (lo hi : Z) : matcher Z :=
  fun s =>
    match s with
    | EmptyString => []
    | String c r =>
        match digit_val c with
        | Some n => if (lo <=? n) && (n <=? hi) then [(n, r)] else []
        | None => []
        end
    end.

(** One literal character, in either of its two cases. *)
Definition lit (upper lower : ascii) : matcher unit :=
  fun s =>
    match s with
    | EmptyString => []
    | String c r =>
        if Ascii.eqb c upper || Ascii.eqb c lower then [(tt, r)] else []
    end.

Definition andthen {A B : Type} (p : list (A * string))
    (k : A -> string -> list (B * string)) : list (B * string) :=
  flat_map (fun '(a, r) => k a r) p.

(** Two digit patterns in a row, read as a decimal number. *)
Definition two (a b : matcher Z) : matcher Z :=
  fun s => andthen (a s) (fun x r =>
           andthen (b r) (fun y r' => [(10 * x + y, r')])).

Definition alt {A : Type} (a b : matcher A) : matcher A :=
  fun s => (a s ++ b s)%list.

(** [\d\d\d\d] *)
Definition re_Y : matcher Z :=
  fun s => andthen (two (range 0 9) (range 0 9) s) (fun hi r =>
           andthen (two (range 0 9) (range 0 9) r) (fun lo r' =>
           [(100 * hi + lo, r')])).

(** [1[0-2]|0[1-9]|[1-9]] *)
Definition re_m : matcher Z :=
  alt (two (range 1 1) (range 0 2))
    (alt (two (range 0 0) (range 1 9)) (range 1 9)).

(** [3[0-1]|[1-2]\d|0[1-9]|[1-9]| [1-9]] *)
Definition re_d : matcher Z :=
  alt (two (range 3 3) (range 0 1))
    (alt (two (range 1 2) (range 0 9))
       (alt (two (range 0 0) (range 1 9))
          (alt (range 1 9)
             (fun s => andthen (lit " " " " s) (fun _ r => range 1 9 r))))).

(** [2[0-3]|[0-1]\d|\d] *)
Definition re_H : matcher Z :=
  alt (two (range 2 2) (range 0 3))
    (alt (two (range 0 1) (range 0 9)) (range 0 9)).

(** [[0-5]\d|\d] *)
Definition re_M : matcher Z :=
  alt (two (range 0 5) (range 0 9)) (range 0 9).

(** [6[0-1]|[0-5]\d|\d] *)
Definition re_S : matcher Z :=
  alt (two (range 6 6) (range 0 1))
    (alt (two (range 0 5) (range 0 9)) (range 0 9)).

(** The fields of one match: year, month, day, hour, minute, second. *)
Record fields : Type := mkFields {
  fY : Z; fm : Z; fd : Z; fH : Z; fM : Z; fS : Z;
}.

Definition format_regex : matcher fields :=
  fun s =>
    andthen (re_Y s) (fun Y s =>
    andthen (re_m s) (fun m s =>
    andthen (re_d s) (fun d s =>
    andthen (lit "T" "t" s) (fun _ s =>
    andthen (re_H s) (fun H s =>
    andthen (re_M s) (fun M s =>
    andthen (re_S s) (fun S s =>
    andthen (lit "Z" "z" s) (fun _ s =>
    [(mkFields Y m d H M S, s)])))))))).

(** The [datetime] of matched fields; a date that does not exist (year
    0, day 31 of a short month) and a second of 60 or 61 are refused. *)
Definition of_fields (f : fields) : pyres datetime :=
  if (1 <=? fY f) && (fd f <=? days_in_month (fY f) (fm f))
     && (fS f <=? 59)
  then ret ((ymd_to_ord (fY f) (fm f) (fd f) - 1) * 86400
            + fH f * 3600 + fM f * 60 + fS f)
  else raise ValueError.

Definition strptime (v : string) : pyres datetime :=
  match format_regex v with
  | [] => raise ValueError
  | (f, rest) :: _ =>
      if Str.is_empty rest then of_fields f else raise ValueError
  end.

(** [t + timedelta (hours=h)]; a result outside years 1 to 9999
    overflows. *)
Definition add_hours (t : datetime) (h : Z) : pyres datetime :=
  let t' := t + 3600 * h in
  if in_range t' then ret t' else raise OverflowError.

(** [float (n)] for a small non-negative integer. *)
Definition float_of_Z (n : Z) : float := PrimFloat.of_uint63 (Uint63.of_Z n).

(** *** Checking the calendar over one cycle of 400 years *)

(** The day [r] of the cycle converts to a date of the first 400 years
    that exists, and back to itself. *)
Definition cycle_ok (r : Z) : bool :=
  let '(y, m, d) := ord_to_ymd (r + 1) in
  (1 <=? y) && (y <=? 400) && (1 <=? m) && (m <=? 12) && (1 <=? d)
  && (d <=? days_in_month y m) && (ymd_to_ord y m d =? r + 1).

(** [f] holds of the [n] integers from [z] on. *)
Fixpoint all_from (n : nat) (z : Z) (f : Z -> bool) : bool :=
  match n with
  | O => true
  | S n' => f z && all_from n' (z + 1) f
  end.

(** The test of [ord_to_ymd] for a leap year, on the century [n100],
    the four years [n4] and the year [n1] of the cycle. *)
Definition leap_flag (n100 n4 n1 : Z) : bool :=
  (n1 =? 3) && (negb (n4 =? 24) || (n100 =? 3)).

(** The year of the cycle that [ord_to_ymd] counts so is a leap year
    exactly when the test says so, and the days before it are those of
    the centuries, four years and years counted. *)
Definition year_ok (n100 n4 n1 : Z) : bool :=
  let y := 1 + (n100 * 100 + n4 * 4 + n1) in
  Bool.eqb (is_leap y) (leap_flag n100 n4 n1)
  && (days_before_year y =? DI100Y * n100 + DI4Y * n4 + 365 * n1).

(** Month and day of the day [n] of a year, counted from 0, as
    [ord_to_ymd] finds them. *)
Definition month_day (leap : bool) (n : Z) : Z * Z :=
  let month := Z.shiftr (n + 50) 5 in
  let preceding :=
    DAYS_BEFORE_MONTH month + (if (2 <? month) && leap then 1 else 0) in
  if n <? preceding
  then
    let month := month - 1 in
    let preceding :=
      preceding - (if (month =? 2) && leap then 29 else DAYS_IN_MONTH month) in
    (month, n - preceding + 1)
  else (month, n - preceding + 1).

(** They are a month and a day of it, the day [n] of the year. *)
Definition day_ok (leap : bool) (n : Z) : bool :=
  let '(m, d) := month_day leap n in
  (1 <=? m) && (m <=? 12) && (1 <=? d)
  && (d <=? (if (m =? 2) && leap then 29 else DAYS_IN_MONTH m))
  && (DAYS_BEFORE_MONTH m + (if (2 <? m) && leap then 1 else 0) + d
      =? n + 1).

(** [t.year] *)
Definition year_of (t : datetime) : Z := fst (fst (ord_to_ymd (date_of t))).

End Datetime.

(** ** Stable sorting: [list.sort] and [sorted]

    Python's sort is stable: it returns the one ordered arrangement of
    the list that keeps elements comparing equal in their input order.
    Insertion from the right, placing each element before the first
    one that is not smaller, computes that arrangement. *)

Module Sort.

Section Defs.

Context {A : Type}.

(** The comparison function, [cmp (a, b)], by its sign. *)
Variable cmp : A -> A -> comparison.

Fixpoint insert (x : A) (l : list A) : list A :=
  match l with
  | [] => [x]
  | y :: l' =>
      match cmp x y with
      | Gt => y :: insert x l'
      | _ => x :: l
      end
  end.

Fixpoint sort (l : list A) : list A :=
  match l with
  | [] => []
  | x :: l' => insert x (sort l')
  end.

End Defs.

Section Keys.

Context {A : Type}.
Variable key : A -> Z.

(** The elements of [l] whose key is [k], in the order of [l]. *)
Definition with_key (k : Z) (l : list A) : list A :=
  filter (fun x => key x =? k) l.

(** The order of the keys. *)
Definition ordered (a b : A) : Prop := key a <= key b.

End Keys.

End Sort.

(** ** One event of the schedule: [class Event] *)

Module Event.

Import Datetime.

(** The attributes of an [Event].  [ident] is the identity [id (self)]
    of the object, its address: instances of a class that defines no
    comparison are ordered by it.  An attribute holding [None] is
    [None] here. *)
Record t : Type := mk {
  ident : Z;
  timezone : tzinfo;
  timezone_adjust : Z;
  summary : option string;
  start : option datetime;
  end_ : option datetime;
  location : option string;
}.

(** [Event (timezone, timezone_adjust)], allocated at address [addr]. *)
Definition __init__ (addr : Z) (timezone : tzinfo) (timezone_adjust : Z)
  : t :=
  mk addr timezone timezone_adjust None None None None.

Definition set_summary (self : t) (v : string) : t :=
  mk (ident self) (timezone self) (timezone_adjust self)
     (Some v) (start self) (end_ self) (location self).

Definition set_start (self : t) (v : datetime) : t :=
  mk (ident self) (timezone self) (timezone_adjust self)
     (summary self) (Some v) (end_ self) (location self).

Definition set_end (self : t) (v : datetime) : t :=
  mk (ident self) (timezone self) (timezone_adjust self)
     (summary self) (start self) (Some v) (location self).

Definition set_location (self : t) (v : string) : t :=
  mk (ident self) (timezone self) (timezone_adjust self)
     (summary self) (start self) (end_ self) (Some v).

(** [validate]: a [datetime] is always true, so [not self.start] holds
    exactly when the attribute is [None]. *)
Definition validate (self : t) : pyres unit :=
  if negb (Str.truthy (summary self)) then raise (Exception "Summary not set")
  else
    match start self with
    | None => raise (Exception "Start not set")
    | Some st =>
        match end_ self with
        | None => raise (Exception "End not set")
        | Some en =>
            ds <- local_date (timezone self) st ;;
            de <- local_date (timezone self) en ;;
            if negb (ds =? de)
            then raise (Exception "Can't deal with cross-day events")
            else ret tt
        end
    end.

(** [_parse_time]: [utc.localize (datetime.strptime (v, ...))
    + timedelta (hours=self.timezone_adjust)]. *)
Definition _parse_time (self : t) (v : string) : pyres datetime :=
  t0 <- strptime v ;;
  add_hours t0 (timezone_adjust self).

(** [_print_time]: [v.strftime ("%Y%m%dT%H%M%SZ")]. *)
Definition _print_time (self : t) (v : datetime) : pyres string :=
  strftime v.

Definition setstart (self : t) (v : string) : pyres t :=
  x <- _parse_time self v ;; ret (set_start self x).

Definition setend (self : t) (v : string) : pyres t :=
  x <- _parse_time self v ;; ret (set_end self x).

(** [getstart] and [getend] call a method of the attribute, which
    [None] does not have. *)
Definition getstart (self : t) : pyres string :=
  match start self with
  | None => raise AttributeError
  | Some v => _print_time self v
  end.

Definition getend (self : t) : pyres string :=
  match end_ self with
  | None => raise AttributeError
  | Some v => _print_time self v
  end.

(** The key [compare_events] compares, [a.start], for an event that
    has one. *)
Definition start_key (e : t) : Z :=
  match start e with
  | None => 0
  | Some s => s
  end.

Definition has_start (e : t) : bool :=
  match start e with
  | None => false
  | Some _ => true
  end.

(** [a <= b] on two [start] attributes: between two instants, and
    between [None] and [None]. *)
Definition opt_le (a b : option datetime) : Prop :=
  match a, b with
  | Some x, Some y => x <= y
  | None, None => True
  | _, _ => False
  end.

(** [e.start == v] *)
Definition starts_at (v : option datetime) (e : t) : bool :=
  match start e, v with
  | Some a, Some b => a =? b
  | None, None => true
  | _, _ => false
  end.

(** [e.start.date () == day] *)
Definition on_day (day : date) (e : t) : bool :=
  match start e with
  | Some st => date_of st =? day
  | None => false
  end.

(** The comparison of two instances of a class that defines none, as
    Python 2 makes it: by address. *)
Definition default_cmp (a b : t) : comparison := ident a ?= ident b.

End Event.

(** [compare_events (a, b)], as the sign of [cmp (a.start, b.start)], for
    two events that have a [start]. *)
Definition compare_events (a b : Event.t) : comparison :=
  Event.start_key a ?= Event.start_key b.

(** [events.sort (compare_events)].  Comparing a [datetime] with [None]
    raises [TypeError], and a sort compares across any split of the list
    in two; a list whose [start]s are all [None] compares equal
    throughout and stays as it is. *)
Definition sort_events (events : list Event.t) : pyres (list Event.t) :=
  if forallb Event.has_start events
  then ret (Sort.sort compare_events events)
  else if forallb (fun e => negb (Event.has_start e)) events
       then ret events
       else raise TypeError.

(** ** The aggregator: [class Aggregator] *)

Module Aggregator.

Import Datetime.

(** The attributes of an [Aggregator]; a feed is [(name, url)]. *)
Record t : Type := mk {
  feeds : list (string * string);
  events : list Event.t;
  timezone : tzinfo;
  timezone_adjust : Z;
}.

Definition __init__ (timezone : tzinfo) (timezone_adjust : Z) : t :=
  mk [] [] timezone timezone_adjust.

Definition add_feed (self : t) (name url : string) : t :=
  mk (feeds self ++ [(name, url)])%list (events self)
     (timezone self) (timezone_adjust self).

Definition set_events (self : t) (evs : list Event.t) : t :=
  mk (feeds self) evs (timezone self) (timezone_adjust self).

(** How a loop that may raise ended; [Unfinished] is the model's own:
    the fuel of [parse_loop] ran out, which [_parse_ical_finishes]
    excludes. *)
Inductive ending : Type :=
| Returned
| Raised (e : pyexc)
| Unfinished.

(** What one turn of the [while True] loop of [_parse_ical] does. *)
Inductive step : Type :=
| Next (currevent : option Event.t) (yielded : option Event.t) (heap : nat)
| Break
| Raises (e : pyexc).

(** What a run of the generator [_parse_ical] gave: the events it
    yielded, how it ended, and the number of [Event]s allocated. *)
Record run : Type := mkRun {
  yielded : list Event.t;
  ended : ending;
  heap_after : nat;
}.

Definition col_width : Z := 150.
Definition headersize : Z := 30.

(** One [f.write] of [generate_html], with the values its format
    string is filled with: the [h2] of a day, the opening of its
    [schedwrap] with width and height, a room header with left, width
    and name, a session block with top, left, width, height, the two
    local times as hour and minute, and the summary, and the closing
    [div]. *)
Inductive html : Type :=
| H2 (day : date)
| SchedWrap (width : Z) (height : float)
| RoomHeader (left width : Z) (roomname : string)
| SessBlock (top : float) (left width : Z) (height : float)
    (start_hm end_hm : Z * Z) (text : option string)
| CloseDiv.

(** [rooms[k] = v] and [rooms[k]] on the dictionary [rooms]. *)
Fixpoint dict_set (d : list (string * Z)) (k : string) (v : Z)
  : list (string * Z) :=
  match d with
  | [] => [(k, v)]
  | (k', v') :: d' =>
      if String.eqb k' k then (k', v) :: d' else (k', v') :: dict_set d' k v
  end.

Fixpoint dict_get (d : list (string * Z)) (k : string) : option Z :=
  match d with
  | [] => None
  | (k', v') :: d' => if String.eqb k' k then Some v' else dict_get d' k
  end.

(** [for i in range (0, len (self.feeds)): rooms[self.feeds[i][0]] = i],
    from index [i] on. *)
Fixpoint build_rooms (i : Z) (fs : list (string * string))
    (rooms : list (string * Z)) : list (string * Z) :=
  match fs with
  | [] => rooms
  | f :: fs' => build_rooms (i + 1) fs' (dict_set rooms (fst f) i)
  end.

(** [for e in self.events: if not e.start.date () in days:
    days.append (e.start.date ())] *)
Fixpoint collect_days (evs : list Event.t) (days : list date)
  : pyres (list date) :=
  match evs with
  | [] => ret days
  | e :: evs' =>
      match Event.start e with
      | None => raise AttributeError
      | Some st =>
          if negb (existsb (Z.eqb (date_of st)) days)
          then collect_days evs' (days ++ [date_of st])%list
          else collect_days evs' days
      end
  end.

(** The scan for [firsttime] and [lasttime] of one day. *)
Fixpoint first_last (day : date) (evs : list Event.t)
    (firsttime lasttime : option datetime)
  : pyres (option datetime * option datetime) :=
  match evs with
  | [] => ret (firsttime, lasttime)
  | e :: evs' =>
      match Event.start e with
      | None => raise AttributeError
      | Some st =>
          if negb (date_of st =? day)
          then first_last day evs' firsttime lasttime
          else
            let firsttime :=
              match firsttime with
              | None => Some st
              | Some _ => firsttime
              end in
            first_last day evs' firsttime (Event.end_ e)
      end
  end.

(** The literal [1.7]: the binary64 number nearest to it. *)
Definition px_per_minute : float := 0x1.b333333333333p+0%float.

(** [_timediff_to_y_pixels]: [((t - compareto).seconds/60)*1.7], the
    division being the integer one of Python 2. *)
Definition _timediff_to_y_pixels (t compareto : datetime) : float :=
  PrimFloat.mul (float_of_Z (timedelta_seconds t compareto / 60))
    px_per_minute.

(** The same on attributes that may hold [None], which has no
    subtraction. *)
Definition timediff_opt (t compareto : option datetime) : pyres float :=
  match t, compareto with
  | Some t, Some c => ret (_timediff_to_y_pixels t c)
  | _, _ => raise TypeError
  end.

(** [x.astimezone (tz).strftime ("%H:%M")], as hour and minute; as in
    [strftime] above, Python 2 formats no date before 1900. *)
Definition local_hm (tz : tzinfo) (t : datetime) : pyres (Z * Z) :=
  local <- astimezone tz t ;;
  if year_of local <? 1900 then raise ValueError
  else
    let sod := local mod 86400 in ret (sod / 3600, sod / 60 mod 60).

Section Run.

(** The address the allocator gives the [n]-th [Event] of the run. *)
Variable alloc : nat -> Z.

(** [urllib2.urlopen (url)]: the text served at [url], or the error
    raised. *)
Variable urlopen : string -> pyres string.

Variable self : t.

(** One turn of the loop of [_parse_ical] on the line [l] that
    [r.readline ()] returned. *)
Definition parse_step (heap : nat) (currevent : option Event.t)
    (l : option string) : step :=
  if negb (Str.truthy l) then Raises (Exception "End of stream")
  else
    let l := match l with Some s => s | None => EmptyString end in
    if String.eqb l "END:VCALENDAR" then Break
    else if String.eqb l "BEGIN:VEVENT" then
      match currevent with
      | Some _ => Raises (Exception "Recursive events?!")
      | None =>
          Next (Some (Event.__init__ (alloc heap) (timezone self)
                        (timezone_adjust self)))
               None (S heap)
      end
    else if String.eqb l "END:VEVENT" then
      match currevent with
      | None => Raises (Exception "End of nonexisting event?!")
      | Some e =>
          match Event.validate e with
          | inl x => Raises x
          | inr _ => Next None (Some e) heap
          end
      end
    else if Str.startswith l "DTSTART:" then
      match currevent with
      | None => Raises AttributeError
      | Some e =>
          match Event.setstart e (Str.slice_from 8 l) with
          | inl x => Raises x
          | inr e' => Next (Some e') None heap
          end
      end
    else if Str.startswith l "DTEND:" then
      match currevent with
      | None => Raises AttributeError
      | Some e =>
          match Event.setend e (Str.slice_from 6 l) with
          | inl x => Raises x
          | inr e' => Next (Some e') None heap
          end
      end
    else if Str.startswith l "SUMMARY:" then
      match currevent with
      | None => Raises AttributeError
      | Some e =>
          Next (Some (Event.set_summary e
                        (Str.replace_escaped_comma (Str.slice_from 8 l))))
               None heap
      end
    else Next currevent None heap.

(** The loop of [_parse_ical] from the reader state [r]. *)
Fixpoint parse_loop (fuel : nat) (r : IcalReader.t) (heap : nat)
    (currevent : option Event.t) : run :=
  match fuel with
  | O => mkRun [] Unfinished heap
  | S fuel' =>
      let (l, r') := IcalReader.readline r in
      match parse_step heap currevent l with
      | Raises e => mkRun [] (Raised e) heap
      | Break => mkRun [] Returned heap
      | Next currevent' y heap' =>
          let rest := parse_loop fuel' r' heap' currevent' in
          match y with
          | None => rest
          | Some e =>
              mkRun (e :: yielded rest) (ended rest) (heap_after rest)
          end
      end
  end.

(** [_parse_ical (f)], run to its end, where [f.readlines ()] is
    [flines]. *)
Definition _parse_ical (flines : list string) (heap : nat) : run :=
  let r := IcalReader.init flines in
  parse_loop (S (List.length r)) r heap None.

(** The [for feed, url in self.feeds] loop of [pull_all] over the
    feeds [fs], appending to [evs]. *)
Fixpoint pull_feeds (fs : list (string * string)) (evs : list Event.t)
    (heap : nat) : run :=
  match fs with
  | [] => mkRun evs Returned heap
  | (feed, url) :: fs' =>
      match urlopen url with
      | inl e => mkRun evs (Raised e) heap
      | inr text =>
          let r := _parse_ical (Str.readlines text) heap in
          let evs' :=
            (evs ++ map (fun e => Event.set_location e feed) (yielded r))%list in
          match ended r with
          | Returned => pull_feeds fs' evs' (heap_after r)
          | other => mkRun evs' other (heap_after r)
          end
      end
  end.

(** [pull_all]: the aggregator afterwards and how the call ended. *)
Definition pull_all (heap : nat) : t * ending :=
  let r := pull_feeds (feeds self) (events self) heap in
  match ended r with
  | Returned =>
      match sort_events (yielded r) with
      | inl e => (set_events self (yielded r), Raised e)
      | inr sorted => (set_events self sorted, Returned)
      end
  | other => (set_events self (yielded r), other)
  end.

(** The events of a feed as [pull_all] appends them: those a run of
    the parser yielded, in that order, each with the name of the
    feed as its location. *)
Definition tagged (feed : string) (r : run) : list Event.t :=
  map (fun e => Event.set_location e feed) (yielded r).

(** [r] is the run of the parser over what [urlopen] serves for the
    feed [f], and it came to its end. *)
Definition parsed_feed (f : string * string) (r : run) : Prop :=
  exists text heap,
    urlopen (snd f) = ret text
    /\ r = _parse_ical (Str.readlines text) heap
    /\ ended r = Returned.

End Run.

(** The room headers: [for roomname, roomnum in rooms.items ()].  A
    dictionary of Python 2 gives its items in the order of its hash
    table, which the hashes of the names and the size of the table
    decide; [items] is that order, applied to the items in the order
    the names were first stored. *)
Definition room_headers (items : list (string * Z) -> list (string * Z))
    (rooms : list (string * Z)) : list html :=
  map (fun '(roomname, roomnum) =>
         RoomHeader (roomnum * col_width) (col_width - 2) roomname)
      (items rooms).

(** [rooms[e.location]] *)
Definition room_of (rooms : list (string * Z)) (loc : option string)
  : pyres Z :=
  match loc with
  | None => raise KeyError
  | Some name =>
      match dict_get rooms name with
      | None => raise KeyError
      | Some i => ret i
      end
  end.

(** The session block of the event [e], which starts at [st]. *)
Definition session_block (self : t) (rooms : list (string * Z))
    (firsttime : option datetime) (e : Event.t) (st : datetime)
  : pyres html :=
  top <- timediff_opt (Some st) firsttime ;;
  roomnum <- room_of rooms (Event.location e) ;;
  height <- timediff_opt (Event.end_ e) (Some st) ;;
  match Event.end_ e with
  | None => raise AttributeError
  | Some en =>
      start_hm <- local_hm (timezone self) st ;;
      end_hm <- local_hm (timezone self) en ;;
      ret (SessBlock
             (PrimFloat.add top (float_of_Z headersize))
             (col_width * roomnum)
             (col_width - 2)
             (PrimFloat.sub height (float_of_Z 2))
             start_hm end_hm
             (Event.summary e))
  end.

(** [for e in sorted (self.events): if not e.start.date () == day:
    continue; f.write (...)], over the already sorted [evs]. *)
Fixpoint sessions (self : t) (rooms : list (string * Z)) (day : date)
    (firsttime : option datetime) (evs : list Event.t)
  : pyres (list html) :=
  match evs with
  | [] => ret []
  | e :: evs' =>
      match Event.start e with
      | None => raise AttributeError
      | Some st =>
          if negb (date_of st =? day)
          then sessions self rooms day firsttime evs'
          else
            b <- session_block self rooms firsttime e st ;;
            rest <- sessions self rooms day firsttime evs' ;;
            ret (b :: rest)
      end
  end.

(** [sorted (self.events)]: [Event] defines no comparison, so Python 2
    orders its instances by their addresses. *)
Definition sorted_events (self : t) : list Event.t :=
  Sort.sort Event.default_cmp (events self).

(** The body of [for day in sorted (days)]. *)
Definition render_day (items : list (string * Z) -> list (string * Z))
    (self : t) (rooms : list (string * Z)) (day : date)
  : pyres (list html) :=
  fl <- first_last day (events self) None None ;;
  height <- timediff_opt (snd fl) (fst fl) ;;
  blocks <- sessions self rooms day (fst fl) (sorted_events self) ;;
  ret ([H2 day;
        SchedWrap (Z.of_nat (List.length rooms) * col_width)
                  (PrimFloat.add height (float_of_Z headersize))]
       ++ room_headers items rooms ++ blocks ++ [CloseDiv])%list.

Fixpoint render_days (items : list (string * Z) -> list (string * Z))
    (self : t) (rooms : list (string * Z)) (days : list date)
  : pyres (list html) :=
  match days with
  | [] => ret []
  | day :: days' =>
      d <- render_day items self rooms day ;;
      rest <- render_days items self rooms days' ;;
      ret (d ++ rest)%list
  end.

(** [generate_html]: the writes made to [f], in order, when the
    dictionary of the rooms gives its items in the order [items]. *)
Definition generate_html (items : list (string * Z) -> list (string * Z))
    (self : t) : pyres (list html) :=
  let rooms := build_rooms 0 (feeds self) [] in
  days <- collect_days (events self) [] ;;
  render_days items self rooms (Sort.sort Z.compare days).

(** What the scan of a day finds: [firsttime] is the [start] of the
    first event of the list that starts on [day], [lasttime] the [end]
    of the last one. *)
Definition day_first_start (evs : list Event.t) (day : date)
  : option datetime :=
  match filter (Event.on_day day) evs with
  | [] => None
  | e :: _ => Event.start e
  end.

Definition day_last_end (evs : list Event.t) (day : date)
  : option datetime :=
  fold_left (fun _ e => Event.end_ e) (filter (Event.on_day day) evs) None.

(** The column of a room as the specification has it: the position, in
    the list of feeds counted from [i], of the last feed registered
    under [name]; [acc] is the position found so far. *)
Fixpoint last_index (name : string) (fs : list (string * string)) (i : Z)
    (acc : option Z) : option Z :=
  match fs with
  | [] => acc
  | f :: fs' =>
      last_index name fs' (i + 1)
        (if String.eqb (fst f) name then Some i else acc)
  end.

Definition column_index (fs : list (string * string)) (name : string)
  : option Z :=
  last_index name fs 0 None.

(** *** The aggregate feed: [generate_ical] *)

(** The first [f.write], one string of three lines. *)
Definition ical_header : string :=
  "BEGIN:VCALENDAR" ++ Str.CRLF ++ "VERSION:2.0" ++ Str.CRLF
  ++ "PRODID:-//hagander/icalaggregator//NONSGML v1.0//EN" ++ Str.CRLF.

(** The six writes of the body of [for event in self.events]. *)
Definition ical_event (e : Event.t) : pyres (list string) :=
  dtstart <- Event.getstart e ;;
  dtend <- Event.getend e ;;
  ret ["BEGIN:VEVENT" ++ Str.CRLF;
       "DTSTART:" ++ dtstart ++ Str.CRLF;
       "DTEND:" ++ dtend ++ Str.CRLF;
       "SUMMARY:" ++ Str.percent_s (Event.summary e) ++ Str.CRLF;
       "LOCATION:" ++ Str.or_empty (Event.location e) ++ Str.CRLF;
       "END:VEVENT" ++ Str.CRLF].

Fixpoint ical_events (evs : list Event.t) : pyres (list string) :=
  match evs with
  | [] => ret []
  | e :: evs' =>
      w <- ical_event e ;;
      rest <- ical_events evs' ;;
      ret (w ++ rest)%list
  end.

(** The last [f.write]. *)
Definition ical_footer : string := "END:VCALENDAR" ++ Str.CRLF.

(** [generate_ical]: [f.getvalue ()] after all the writes. *)
Definition generate_ical (self : t) : pyres string :=
  writes <- ical_events (events self) ;;
  ret (Str.concat_all (ical_header :: writes ++ [ical_footer])%list).

(** [e] has a [start] and an [end], both in 1900 or later. *)
Definition printable (e : Event.t) : bool :=
  match Event.start e, Event.end_ e with
  | Some st, Some en => (1900 <=? year_of st) && (1900 <=? year_of en)
  | _, _ => false
  end.

(** What makes the block [generate_ical] writes for [e] one that
    [_parse_ical] of [self] reads as an event: the two instants are
    instants of the years 1900 to 9999 that the display time zone
    places on one day of its calendar, neither the summary nor the
    location holds a line feed, and the summary is not white space
    only. *)
Definition reads_back (self : t) (e : Event.t) : bool :=
  match Event.start e, Event.end_ e with
  | Some st, Some en =>
      in_range st && in_range en
      && (1900 <=? year_of st) && (1900 <=? year_of en)
      && match
           local_date (timezone self) st, local_date (timezone self) en
         with
         | inr ds, inr de => ds =? de
         | _, _ => false
         end
      && Str.no_lf (Str.percent_s (Event.summary e))
      && negb (Str.is_empty (Str.rstrip (Str.percent_s (Event.summary e))))
      && Str.no_lf (Str.or_empty (Event.location e))
  | _, _ => false
  end.

(** The event [_parse_ical] of [self] makes, at the address [addr], of
    the block [generate_ical] wrote for [e]. *)
Definition read_back (self : t) (addr : Z) (e : Event.t) : Event.t :=
  Event.mk addr (timezone self) (timezone_adjust self)
    (Some (Str.replace_escaped_comma
             (Str.rstrip (Str.percent_s (Event.summary e)))))
    (Event.start e) (Event.end_ e) None.

(** The events read back from the blocks of [evs], the first one being
    the [heap]-th [Event] of the run. *)
Fixpoint read_back_all (alloc : nat -> Z) (self : t) (heap : nat)
    (evs : list Event.t) : list Event.t :=
  match evs with
  | [] => []
  | e :: evs' =>
      read_back self (alloc heap) e :: read_back_all alloc self (S heap) evs'
  end.

(** *** What [pull_all] leaves in [self.events] *)

(** [e] passed [validate] and is in the room of one of the feeds. *)
Definition gathered (self : t) (e : Event.t) : Prop :=
  Event.validate e = ret tt
  /\ exists f, In f (feeds self) /\ Event.location e = Some (fst f).

(** A text that holds no line feed and does not end in white space, as
    the logical lines of a reader and what the parser takes from
    them. *)
Definition clean (l : string) : Prop :=
  Str.no_lf l = true /\ Str.rstrip l = l.

(** What holds of an event the parser of [self] works on: it has the
    time zone of [self], the instants it has are instants of the years
    1 to 9999, and the summary it has is clean. *)
Definition well_read (self : t) (e : Event.t) : Prop :=
  Event.timezone e = timezone self
  /\ (forall v, Event.start e = Some v -> in_range v = true)
  /\ (forall v, Event.end_ e = Some v -> in_range v = true)
  /\ (forall s, Event.summary e = Some s -> clean s).

(** The time of [tz] at the instant [t] is one of the years 1900 to
    9999. *)
Definition local_year_ok (tz : tzinfo) (t : datetime) : bool :=
  match astimezone tz t with
  | inr local => 1900 <=? year_of local
  | inl _ => false
  end.

(** The local times of [e] that [generate_html] prints are of the
    years 1900 to 9999. *)
Definition local_after_1900 (self : t) (e : Event.t) : bool :=
  match Event.start e, Event.end_ e with
  | Some st, Some en =>
      local_year_ok (timezone self) st && local_year_ok (timezone self) en
  | _, _ => false
  end.

(** The display time zone places the start and the end of [e] within
    the years 1 to 9999. *)
Definition projects (self : t) (e : Event.t) : bool :=
  match Event.start e, Event.end_ e with
  | Some st, Some en =>
      in_range (st + timezone self st) && in_range (en + timezone self en)
  | _, _ => false
  end.

(** The session blocks among the writes [out], in order. *)
Definition sess_blocks (out : list html) : list html :=
  filter (fun h => match h with
                   | SessBlock _ _ _ _ _ _ _ => true
                   | _ => false
                   end) out.

(** [b] is the block of the event [e] in the grid of [self]: its top
    is the position of the start of [e] from the first start of its
    day plus 30, its left the column of the room of [e] times 150, its
    width 148, its height the position of the end of [e] from its start
    minus 2, and it shows the local times and the summary of [e]. *)
Definition block_of (self : t) (e : Event.t) (b : html) : Prop :=
  exists st en fs name i shm ehm,
    Event.start e = Some st /\ Event.end_ e = Some en
    /\ day_first_start (events self) (date_of st) = Some fs
    /\ Event.location e = Some name
    /\ column_index (feeds self) name = Some i
    /\ local_hm (timezone self) st = ret shm
    /\ local_hm (timezone self) en = ret ehm
    /\ b = SessBlock
             (PrimFloat.add (_timediff_to_y_pixels st fs) (float_of_Z 30))
             (150 * i) 148
             (PrimFloat.sub (_timediff_to_y_pixels en st) (float_of_Z 2))
             shm ehm (Event.summary e).

(** The events of [self] that start on one of [days], day by day and
    within a day in the order of [sorted (self.events)]. *)
Definition events_by_day (self : t) (days : list date) : list Event.t :=
  flat_map (fun day => filter (Event.on_day day) (sorted_events self)) days.

(** The days of the [h2] headings among the writes [out], in order. *)
Definition h2_days (out : list html) : list date :=
  flat_map (fun h => match h with H2 day => [day] | _ => [] end) out.

End Aggregator.

(** ** What the specification says, where it differs from the code *)

Module Spec.

(** A continuation line as the specification reads it: with its single
    leading space removed and nothing else. *)
Definition strip_single_space (s : string) : string :=
  match s with
  | String c r => if Ascii.eqb c " " then r else s
  | EmptyString => s
  end.

(** The logical line the specification gives for the physical line [l]
    followed by the continuation lines [conts]. *)
Definition unfolded (l : string) (conts : list string) : string :=
  Str.concat_all
    (Str.rstrip l :: map (fun c => strip_single_space (Str.rstrip c)) conts).

(** The smallest [start] and the largest [end] among the events of
    [evs] that start on [day], as the specification computes the
    vertical extent of a day. *)
Definition min_start (day : Datetime.date) (evs : list Event.t) : option Z :=
  fold_left
    (fun acc e =>
       match Event.start e, acc with
       | Some st, Some m => Some (Z.min m st)
       | Some st, None => Some st
       | None, _ => acc
       end)
    (filter (Event.on_day day) evs) None.

Definition max_end (day : Datetime.date) (evs : list Event.t) : option Z :=
  fold_left
    (fun acc e =>
       match Event.end_ e, acc with
       | Some en, Some m => Some (Z.max m en)
       | Some en, None => Some en
       | None, _ => acc
       end)
    (filter (Event.on_day day) evs) None.

End Spec.

(** ** Two rooms, two sessions: a run of the whole program *)

Module Example.

Import Datetime.

(** A text from its lines, each ended by CR LF. *)
Definition text (lines : list string) : string :=
  Str.concat_all (map (fun l => (l ++ Str.CRLF)%string) lines).

(** Room A holds one session from 10:00 to 11:00, published with a
    folded summary. *)
Definition feed_a : string :=
  text ["BEGIN:VCALENDAR"; "VERSION:2.0"; "BEGIN:VEVENT";
        "DTSTART:20101005T100000Z"; "DTEND:20101005T110000Z";
        "SUMMARY:Lunch\, with"; "  sponsors"; "END:VEVENT";
        "END:VCALENDAR"].

(** Room B holds one session from 09:00 to 12:00. *)
Definition feed_b : string :=
  text ["BEGIN:VCALENDAR"; "BEGIN:VEVENT";
        "DTSTART:20101005T090000Z"; "DTEND:20101005T120000Z";
        "SUMMARY:Workshop"; "END:VEVENT"; "END:VCALENDAR"].

(** A feed with a blank line between two properties. *)
Definition feed_blank : string :=
  text ["BEGIN:VCALENDAR"; ""; "END:VCALENDAR"].

Definition urlopen (url : string) : pyres string :=
  if String.eqb url "http://a/" then ret feed_a
  else if String.eqb url "http://b/" then ret feed_b
  else if String.eqb url "http://blank/" then ret feed_blank
  else raise URLError.

(** An allocator that hands out rising addresses. *)
Definition alloc (n : nat) : Z := 4096 + 64 * Z.of_nat n.

Definition utc : tzinfo := fun _ => 0.

Definition aggregator : Aggregator.t :=
  Aggregator.add_feed
    (Aggregator.add_feed (Aggregator.__init__ utc 0) "Room A" "http://a/")
    "Room B" "http://b/".

(** The aggregator after [pull_all]. *)
Definition pulled : Aggregator.t :=
  fst (Aggregator.pull_all alloc urlopen aggregator 0).

(** 2010-10-05 at 09:00, 10:00, 11:00 and 12:00. *)
Definition t0900 : datetime := 63421866000.
Definition t1000 : datetime := 63421869600.
Definition t1100 : datetime := 63421873200.
Definition t1200 : datetime := 63421876800.

(** One room whose feed lists its 10:00 session before its 09:00
    session, and one whose feed lists them the other way round. *)
Definition feed_late_first : string :=
  text ["BEGIN:VCALENDAR"; "BEGIN:VEVENT";
        "DTSTART:20101005T100000Z"; "DTEND:20101005T110000Z";
        "SUMMARY:Late"; "END:VEVENT"; "BEGIN:VEVENT";
        "DTSTART:20101005T090000Z"; "DTEND:20101005T093000Z";
        "SUMMARY:Early"; "END:VEVENT"; "END:VCALENDAR"].

Definition feed_early_first : string :=
  text ["BEGIN:VCALENDAR"; "BEGIN:VEVENT";
        "DTSTART:20101005T090000Z"; "DTEND:20101005T093000Z";
        "SUMMARY:Early"; "END:VEVENT"; "BEGIN:VEVENT";
        "DTSTART:20101005T100000Z"; "DTEND:20101005T110000Z";
        "SUMMARY:Late"; "END:VEVENT"; "END:VCALENDAR"].

(** The aggregator of one room, after [pull_all] with the allocator
    [alloc], when the feed of the room is [feed]. *)
Definition one_room (alloc : nat -> Z) (feed : string) : Aggregator.t :=
  fst (Aggregator.pull_all alloc (fun _ => ret feed)
         (Aggregator.add_feed (Aggregator.__init__ utc 0) "Room A" "http://a/")
         0).

End Example.

(** * Properties *)

(** ** Strings *)

Section StrFacts.

Import Str.

Lemma append_empty_r (s : string) : (s ++ "")%string = s.
Proof. induction s as [|c s IH]; simpl; [reflexivity | now rewrite IH]. Qed.

Lemma append_assoc (a b c : string) :
  ((a ++ b) ++ c)%string = (a ++ (b ++ c))%string.
Proof. induction a as [|x a IH]; simpl; [reflexivity | now rewrite IH]. Qed.

Lemma is_empty_true (s : string) : is_empty s = true -> s = "".
Proof. destruct s; [reflexivity | discriminate]. Qed.

(** [rstrip] removes a suffix of white space and leaves no white space
    at the end. *)
Lemma rstrip_spec (l : string) :
  exists ws,
    l = (rstrip l ++ ws)%string /\ all_space ws = true
    /\ forall c, last_char (rstrip l) = Some c -> isspace c = false.
Proof.
  induction l as [|c l (ws & Heq & Hws & Hlast)]; simpl.
  - exists ""; split; [reflexivity | split; [reflexivity | discriminate]].
  - destruct (isspace c) eqn:Hc; simpl.
    + destruct (is_empty (rstrip l)) eqn:He.
      * apply is_empty_true in He. rewrite He in Heq; simpl in Heq.
        exists (String c l); split; [reflexivity | split; [| discriminate]].
        simpl. rewrite Hc. simpl. now rewrite Heq.
      * exists ws; split; [simpl; congruence | split; [assumption |]].
        simpl. destruct (rstrip l); [discriminate | exact Hlast].
    + exists ws; split; [simpl; congruence | split; [assumption |]].
      simpl. destruct (rstrip l) eqn:E.
      * intros x [= <-]. exact Hc.
      * exact Hlast.
Qed.

(** [lstrip] removes a prefix of white space and leaves no white space
    at the start. *)
Lemma lstrip_spec (l : string) :
  exists ws,
    l = (ws ++ lstrip l)%string /\ all_space ws = true
    /\ forall c, first_char (lstrip l) = Some c -> isspace c = false.
Proof.
  induction l as [|c l (ws & Heq & Hws & Hfirst)]; simpl.
  - exists ""; split; [reflexivity | split; [reflexivity | discriminate]].
  - destruct (isspace c) eqn:Hc.
    + exists (String c ws); split; [simpl; congruence | split; [| assumption]].
      simpl. now rewrite Hc.
    + exists ""; split; [reflexivity | split; [reflexivity |]].
      simpl. now intros x [= <-].
Qed.

Lemma prefix_split (p s : string) :
  String.prefix p s = true -> exists r, s = (p ++ r)%string.
Proof.
  revert s; induction p as [|c p IH]; intros s H.
  - now exists s.
  - destruct s as [|c' s]; simpl in H; [discriminate |].
    destruct (ascii_dec c c') as [<- | Hne]; [| discriminate].
    destruct (IH _ H) as [r ->]. now exists r.
Qed.

End StrFacts.

(** ** The line unfolder *)

Section ReaderFacts.

Import Str IcalReader.

(** [readline] gives [None] exactly on a reader with no line left. *)
Lemma readline_none (lines : IcalReader.t) :
  fst (readline lines) = None <-> lines = [].
Proof.
  destruct lines as [|l rest]; [simpl; tauto |].
  unfold readline. destruct (readline_loop "" (l :: rest)) as [s r].
  simpl. split; intros H; discriminate H.
Qed.

Lemma readline_loop_fold (conts : list string) :
  forall (s l : string) (rest : IcalReader.t),
    Forall (fun c => startswith c " " = true) conts ->
    starts_line rest ->
    readline_loop s (l :: conts ++ rest)
    = ((s ++ concat_all (map lstrip (l :: conts)))%string, rest).
Proof.
  induction conts as [|c conts IH]; intros s l rest Hc Hr.
  - simpl. rewrite append_empty_r.
    destruct rest as [|l' rest]; [reflexivity |].
    simpl in Hr. now rewrite Hr.
  - inversion Hc as [|? ? Hc1 Hc2]; subst.
    change (readline_loop s (l :: (c :: conts) ++ rest))
      with (if negb (startswith c " ") then ((s ++ lstrip l)%string, c :: conts ++ rest)
            else readline_loop (s ++ lstrip l) (c :: conts ++ rest)).
    rewrite Hc1. simpl negb. cbv iota.
    rewrite IH by assumption.
    f_equal. simpl. now rewrite append_assoc.
Qed.

(** A physical line and the continuation lines after it come back as
    one logical line: their left-stripped contents in a row. *)
Lemma readline_fold (l : string) (conts : list string) (rest : IcalReader.t) :
  Forall (fun c => startswith c " " = true) conts ->
  starts_line rest ->
  readline (l :: conts ++ rest)
  = (Some (concat_all (map lstrip (l :: conts))), rest).
Proof.
  intros Hc Hr. unfold readline.
  change ((l :: conts) ++ rest)%list with (l :: conts ++ rest)%list.
  now rewrite readline_loop_fold.
Qed.

(** [readline] takes at least one line off a reader that has one. *)
Lemma readline_loop_shorter (lines : IcalReader.t) :
  forall s, lines <> [] ->
    (List.length (snd (readline_loop s lines)) < List.length lines)%nat.
Proof.
  induction lines as [|l rest IH]; intros s Hne; [congruence |].
  destruct rest as [|l' rest]; [simpl; lia |].
  change (readline_loop s (l :: l' :: rest))
    with (if negb (startswith l' " ") then ((s ++ lstrip l)%string, l' :: rest)
          else readline_loop (s ++ lstrip l) (l' :: rest)).
  destruct (negb (startswith l' " ")).
  - simpl. lia.
  - specialize (IH (s ++ lstrip l)%string ltac:(discriminate)).
    simpl in *. lia.
Qed.

Lemma readline_shorter (lines : IcalReader.t) (l : string) (rest : IcalReader.t) :
  readline lines = (Some l, rest) ->
  (List.length rest < List.length lines)%nat.
Proof.
  destruct lines as [|x xs]; [discriminate |].
  unfold readline.
  pose proof (readline_loop_shorter (x :: xs) "" ltac:(discriminate)) as H.
  destruct (readline_loop "" (x :: xs)) as [s r]. intros [= <- <-]. exact H.
Qed.

End ReaderFacts.

(** ** The calendar *)

Section CalendarFacts.

Import Datetime.

Lemma all_from_spec (f : Z -> bool) (n : nat) :
  forall z, all_from n z f = true ->
    forall r, z <= r < z + Z.of_nat n -> f r = true.
Proof.
  induction n as [|n IH]; intros z H r Hr; [lia |].
  simpl in H. apply andb_true_iff in H as [H0 H1].
  destruct (Z.eq_dec r z) as [-> | Hne]; [assumption |].
  apply (IH (z + 1) H1). lia.
Qed.

(** The years of one cycle. *)
Lemma year_all :
  all_from 4 0 (fun a =>
    all_from 25 0 (fun b => all_from 4 0 (fun c => year_ok a b c))) = true.
Proof. vm_compute. reflexivity. Qed.

Lemma year_ok_spec (n100 n4 n1 : Z) :
  0 <= n100 < 4 -> 0 <= n4 < 25 -> 0 <= n1 < 4 ->
  is_leap (1 + (n100 * 100 + n4 * 4 + n1)) = leap_flag n100 n4 n1
  /\ days_before_year (1 + (n100 * 100 + n4 * 4 + n1))
     = DI100Y * n100 + DI4Y * n4 + 365 * n1.
Proof.
  intros Ha Hb Hc.
  pose proof (all_from_spec _ _ _ year_all n100 ltac:(lia)) as H.
  cbv beta in H.
  pose proof (all_from_spec _ _ _ H n4 ltac:(lia)) as H'. cbv beta in H'.
  pose proof (all_from_spec _ _ _ H' n1 ltac:(lia)) as H''.
  unfold year_ok in H''. cbv zeta in H''.
  apply andb_true_iff in H'' as [H1 H2].
  split; [now apply Bool.eqb_prop | now apply Z.eqb_eq].
Qed.

(** The days of a year, leap or not. *)
Lemma day_all :
  all_from 365 0 (day_ok false) && all_from 365 0 (day_ok true) = true.
Proof. vm_compute. reflexivity. Qed.

Lemma day_ok_spec (leap : bool) (n : Z) :
  0 <= n < 365 -> day_ok leap n = true.
Proof.
  intros Hn. pose proof day_all as H. apply andb_true_iff in H as [H0 H1].
  destruct leap;
    [apply (all_from_spec _ _ _ H1) | apply (all_from_spec _ _ _ H0)]; lia.
Qed.

(** Every day of the first 400 years converts to a date of those years
    and back to itself. *)
Lemma ord_to_ymd_cycle (r : Z) : 0 <= r < DI400Y -> cycle_ok r = true.
Proof.
  intros Hr. unfold cycle_ok, ord_to_ymd. cbv zeta.
  replace (r + 1 - 1) with r by lia.
  rewrite (Z.div_small r DI400Y), (Z.mod_small r DI400Y) by lia.
  pose proof (Z.div_mod r DI100Y ltac:(discriminate)) as E1.
  pose proof (Z.mod_pos_bound r DI100Y ltac:(reflexivity)) as B1.
  pose proof (Z.div_mod (r mod DI100Y) DI4Y ltac:(discriminate)) as E2.
  pose proof (Z.mod_pos_bound (r mod DI100Y) DI4Y ltac:(reflexivity)) as B2.
  pose proof (Z.div_mod ((r mod DI100Y) mod DI4Y) 365 ltac:(discriminate))
    as E3.
  pose proof (Z.mod_pos_bound ((r mod DI100Y) mod DI4Y) 365
                ltac:(reflexivity)) as B3.
  set (n100 := r / DI100Y) in *. set (r1 := r mod DI100Y) in *.
  set (n4 := r1 / DI4Y) in *. set (r2 := r1 mod DI4Y) in *.
  set (n1 := r2 / 365) in *. set (n := r2 mod 365) in *.
  clearbody n100 r1 n4 r2 n1 n.
  unfold DI400Y, DI100Y, DI4Y in Hr, E1, B1, E2, B2.
  assert (N100 : 0 <= n100 <= 4) by lia.
  assert (N4 : 0 <= n4 <= 24) by lia.
  assert (N1 : 0 <= n1 <= 4) by lia.
  destruct (Z.eqb_spec n100 4) as [H100 | H100].
  - assert (n4 = 0 /\ n1 = 0 /\ n = 0 /\ r = 146096) as (-> & -> & -> & ->)
      by lia.
    subst n100. reflexivity.
  - rewrite orb_false_r.
    destruct (Z.eqb_spec n1 4) as [H1 | H1].
    + assert (n = 0 /\ n4 <= 23) as [-> N4'] by lia. subst n1.
      destruct (year_ok_spec n100 n4 3) as [HL HD]; try lia.
      replace (0 * 400 + 1 + (n100 * 100 + n4 * 4 + 4) - 1)
        with (1 + (n100 * 100 + n4 * 4 + 3)) by lia.
      set (y := 1 + (n100 * 100 + n4 * 4 + 3)) in *.
      assert (Hdim : days_in_month y 12 = 31) by reflexivity.
      assert (Hdbm : days_before_month y 12 = 335).
      { unfold days_before_month. rewrite HL. unfold leap_flag.
        replace (n4 =? 24) with false by (symmetry; apply Z.eqb_neq; lia).
        reflexivity. }
      unfold ymd_to_ord. rewrite Hdim, Hdbm, HD.
      rewrite !andb_true_iff, !Z.leb_le, Z.eqb_eq.
      unfold DI100Y, DI4Y. subst y. lia.
    + replace (0 * 400 + 1 + (n100 * 100 + n4 * 4 + n1))
        with (1 + (n100 * 100 + n4 * 4 + n1)) by lia.
      destruct (year_ok_spec n100 n4 n1) as [HL HD]; try lia.
      fold (leap_flag n100 n4 n1).
      unfold days_in_month at 1. rewrite HL.
      fold (month_day (leap_flag n100 n4 n1) n).
      pose proof (day_ok_spec (leap_flag n100 n4 n1) n B3) as Hd.
      unfold day_ok in Hd.
      destruct (month_day (leap_flag n100 n4 n1) n) as [m d] eqn:Emd.
      unfold month_day in Emd. cbv zeta in Emd.
      match goal with
      | |- context [if ?c then _ else _] =>
          match type of Emd with
          | context [if c then _ else _] => destruct c
          end
      end; injection Emd as <- <-;
        unfold ymd_to_ord, days_in_month, days_before_month;
        rewrite HL, HD;
        rewrite !andb_true_iff, !Z.leb_le, !Z.eqb_eq in Hd |- *;
        unfold DI100Y, DI4Y; lia.
Qed.

Lemma is_leap_shift (y k : Z) : is_leap (y + 400 * k) = is_leap y.
Proof.
  unfold is_leap.
  replace ((y + 400 * k) mod 4) with (y mod 4)
    by (replace (y + 400 * k) with (y + (100 * k) * 4) by lia;
        now rewrite Z_mod_plus_full).
  replace ((y + 400 * k) mod 100) with (y mod 100)
    by (replace (y + 400 * k) with (y + (4 * k) * 100) by lia;
        now rewrite Z_mod_plus_full).
  replace ((y + 400 * k) mod 400) with (y mod 400)
    by (replace (y + 400 * k) with (y + k * 400) by lia;
        now rewrite Z_mod_plus_full).
  reflexivity.
Qed.

Lemma days_in_month_shift (y m k : Z) :
  days_in_month (y + 400 * k) m = days_in_month y m.
Proof. unfold days_in_month. now rewrite is_leap_shift. Qed.

Lemma days_before_year_shift (y k : Z) :
  days_before_year (y + 400 * k) = days_before_year y + DI400Y * k.
Proof.
  unfold days_before_year, DI400Y. cbv zeta.
  replace (y + 400 * k - 1) with (y - 1 + 400 * k) by lia.
  replace ((y - 1 + 400 * k) / 4) with ((y - 1) / 4 + 100 * k)
    by (replace (y - 1 + 400 * k) with (y - 1 + (100 * k) * 4) by lia;
        now rewrite Z_div_plus_full).
  replace ((y - 1 + 400 * k) / 100) with ((y - 1) / 100 + 4 * k)
    by (replace (y - 1 + 400 * k) with (y - 1 + (4 * k) * 100) by lia;
        now rewrite Z_div_plus_full).
  replace ((y - 1 + 400 * k) / 400) with ((y - 1) / 400 + k)
    by (replace (y - 1 + 400 * k) with (y - 1 + k * 400) by lia;
        now rewrite Z_div_plus_full).
  lia.
Qed.

Lemma ymd_to_ord_shift (y m d k : Z) :
  ymd_to_ord (y + 400 * k) m d = ymd_to_ord y m d + DI400Y * k.
Proof.
  unfold ymd_to_ord, days_before_month.
  rewrite days_before_year_shift, is_leap_shift. lia.
Qed.

Lemma ord_to_ymd_shift (r k : Z) :
  0 <= r < DI400Y ->
  ord_to_ymd (r + 1 + DI400Y * k)
  = let '(y, m, d) := ord_to_ymd (r + 1) in (y + 400 * k, m, d).
Proof.
  intros Hr. unfold ord_to_ymd. cbv zeta.
  replace (r + 1 + DI400Y * k - 1) with (r + k * DI400Y) by lia.
  replace (r + 1 - 1) with r by lia.
  rewrite Z_div_plus_full, Z_mod_plus_full by (unfold DI400Y; lia).
  rewrite (Z.div_small r DI400Y), (Z.mod_small r DI400Y) by lia.
  set (n100 := r / DI100Y). set (n1 := r mod DI100Y).
  set (n4 := n1 / DI4Y). set (n2 := n1 mod DI4Y).
  set (y1 := n2 / 365). set (n := n2 mod 365).
  replace ((0 + k) * 400 + 1 + (n100 * 100 + n4 * 4 + y1))
    with (0 * 400 + 1 + (n100 * 100 + n4 * 4 + y1) + 400 * k) by lia.
  set (year := 0 * 400 + 1 + (n100 * 100 + n4 * 4 + y1)).
  rewrite days_in_month_shift.
  destruct ((y1 =? 4) || (n100 =? 4)); [f_equal; f_equal; lia |].
  destruct (n <? _); reflexivity.
Qed.

(** The date of an ordinal: its fields are those of a date that
    exists, and its ordinal is the one it came from. *)
Lemma ord_to_ymd_correct (n : Z) :
  1 <= n ->
  let '(y, m, d) := ord_to_ymd n in
  1 <= y /\ 1 <= m <= 12 /\ 1 <= d <= days_in_month y m
  /\ ymd_to_ord y m d = n.
Proof.
  intros Hn.
  set (k := (n - 1) / DI400Y). set (r := (n - 1) mod DI400Y).
  assert (Hr : 0 <= r < DI400Y) by (apply Z.mod_pos_bound; reflexivity).
  assert (Hk : 0 <= k) by (apply Z.div_pos; [lia | reflexivity]).
  assert (En : n = r + 1 + DI400Y * k).
  { pose proof (Z.div_mod (n - 1) DI400Y ltac:(discriminate)). subst r k. lia. }
  rewrite En, ord_to_ymd_shift by assumption.
  pose proof (ord_to_ymd_cycle r Hr) as Hc. unfold cycle_ok in Hc.
  destruct (ord_to_ymd (r + 1)) as [[y m] d].
  rewrite !andb_true_iff in Hc.
  destruct Hc as ((((((H1 & H2) & H3) & H4) & H5) & H6) & H7).
  rewrite days_in_month_shift, ymd_to_ord_shift. lia.
Qed.

Lemma days_before_month_nonneg (y m : Z) : 0 <= days_before_month y m.
Proof.
  unfold days_before_month.
  assert (0 <= DAYS_BEFORE_MONTH m).
  { destruct m as [|p|p]; simpl; try lia.
    do 4 (try destruct p as [p|p|]; simpl; try lia). }
  destruct (_ && _); lia.
Qed.

(** An ordinal up to [MAXORDINAL] lies in a year up to 9999. *)
Lemma ord_to_ymd_year_max (n : Z) :
  1 <= n <= MAXORDINAL -> fst (fst (ord_to_ymd n)) <= 9999.
Proof.
  intros Hn. pose proof (ord_to_ymd_correct n ltac:(lia)) as H.
  destruct (ord_to_ymd n) as [[y m] d]. simpl.
  destruct H as (Hy & Hm & Hd & Ho).
  pose proof (days_before_month_nonneg y m).
  unfold ymd_to_ord, days_before_year, MAXORDINAL in *. cbv zeta in Ho.
  destruct (Z_le_gt_dec y 9999) as [|Hgt]; [assumption | exfalso].
  Z.div_mod_to_equations. lia.
Qed.

End CalendarFacts.

(** ** The timestamp codec *)

Section CodecFacts.

Import Datetime.

Lemma digit_val_char (n : Z) :
  0 <= n <= 9 -> digit_val (digit_char n) = Some n.
Proof.
  intros H.
  assert (Hc : all_from 10 0
                 (fun k => match digit_val (digit_char k) with
                           | Some v => v =? k
                           | None => false
                           end) = true) by reflexivity.
  pose proof (all_from_spec _ _ _ Hc n ltac:(lia)) as Hn. cbv beta in Hn.
  destruct (digit_val (digit_char n)) as [v|]; [| discriminate].
  apply Z.eqb_eq in Hn. now subst.
Qed.

Lemma DAYS_IN_MONTH_max (m : Z) : DAYS_IN_MONTH m <= 31.
Proof.
  destruct m as [|p|p]; simpl; try lia.
  do 4 (try destruct p as [p|p|]; simpl; try lia).
Qed.

Lemma range_digit (lo hi n : Z) (r : string) :
  0 <= n <= 9 ->
  range lo hi (String (digit_char n) r)
  = if (lo <=? n) && (n <=? hi) then [(n, r)] else [].
Proof. intros H. unfold range. now rewrite digit_val_char. Qed.

(** Two digit patterns on a number printed with two digits. *)
Lemma two_d2 (a b c d n : Z) (r : string) :
  0 <= n <= 99 ->
  two (range a b) (range c d) (d2 n ++ r)%string
  = if ((a <=? n / 10) && (n / 10 <=? b))
       && ((c <=? n mod 10) && (n mod 10 <=? d))
    then [(n, r)] else [].
Proof.
  intros H. unfold two, d2. cbn [String.append].
  assert (H1 : 0 <= n / 10 <= 9) by (Z.div_mod_to_equations; lia).
  assert (H2 : 0 <= n mod 10 <= 9) by (Z.div_mod_to_equations; lia).
  rewrite (range_digit a b (n / 10)) by exact H1.
  destruct ((a <=? n / 10) && (n / 10 <=? b)); [| reflexivity].
  cbn [andthen flat_map andb].
  rewrite (range_digit c d (n mod 10)) by exact H2.
  destruct ((c <=? n mod 10) && (n mod 10 <=? d)); [| reflexivity].
  cbn [andthen flat_map app].
  replace (10 * (n / 10) + n mod 10) with n by (Z.div_mod_to_equations; lia).
  reflexivity.
Qed.

Lemma d4_split (y : Z) :
  d4 y = (d2 (y / 100) ++ d2 (y mod 100))%string.
Proof.
  unfold d4, d2. cbn [String.append].
  now rewrite Z.div_div by lia.
Qed.

Ltac by_cases :=
  repeat match goal with
         | |- context [?a <=? ?b] => destruct (Z.leb_spec a b)
         end;
  simpl; try (eexists; reflexivity);
  exfalso; Z.div_mod_to_equations; lia.

Lemma re_Y_d4 (y : Z) (r : string) :
  0 <= y <= 9999 -> re_Y (d4 y ++ r)%string = [(y, r)].
Proof.
  intros H. unfold re_Y. rewrite d4_split, append_assoc.
  rewrite two_d2 by (Z.div_mod_to_equations; lia).
  replace (((0 <=? y / 100 / 10) && (y / 100 / 10 <=? 9))
           && ((0 <=? (y / 100) mod 10) && ((y / 100) mod 10 <=? 9)))
    with true
    by (symmetry; rewrite !andb_true_iff, !Z.leb_le;
        Z.div_mod_to_equations; lia).
  cbn [andthen flat_map app]. rewrite app_nil_r, two_d2 by (Z.div_mod_to_equations; lia).
  replace (((0 <=? y mod 100 / 10) && (y mod 100 / 10 <=? 9))
           && ((0 <=? (y mod 100) mod 10) && ((y mod 100) mod 10 <=? 9)))
    with true
    by (symmetry; rewrite !andb_true_iff, !Z.leb_le;
        Z.div_mod_to_equations; lia).
  cbn [andthen flat_map app].
  replace (100 * (y / 100) + y mod 100) with y
    by (Z.div_mod_to_equations; lia).
  reflexivity.
Qed.

Lemma re_m_d2 (m : Z) (r : string) :
  1 <= m <= 12 -> exists tl, re_m (d2 m ++ r)%string = (m, r) :: tl.
Proof. intros H. unfold re_m, alt. rewrite !two_d2 by lia. by_cases. Qed.

Lemma re_d_d2 (d : Z) (r : string) :
  1 <= d <= 31 -> exists tl, re_d (d2 d ++ r)%string = (d, r) :: tl.
Proof. intros H. unfold re_d, alt. rewrite !two_d2 by lia. by_cases. Qed.

Lemma re_H_d2 (h : Z) (r : string) :
  0 <= h <= 23 -> exists tl, re_H (d2 h ++ r)%string = (h, r) :: tl.
Proof. intros H. unfold re_H, alt. rewrite !two_d2 by lia. by_cases. Qed.

Lemma re_M_d2 (m : Z) (r : string) :
  0 <= m <= 59 -> exists tl, re_M (d2 m ++ r)%string = (m, r) :: tl.
Proof. intros H. unfold re_M, alt. rewrite !two_d2 by lia. by_cases. Qed.

Lemma re_S_d2 (s : Z) (r : string) :
  0 <= s <= 59 -> exists tl, re_S (d2 s ++ r)%string = (s, r) :: tl.
Proof. intros H. unfold re_S, alt. rewrite !two_d2 by lia. by_cases. Qed.

(** The first match of a sequence is the first match of what follows
    the first match of its head. *)
Lemma andthen_head {A B : Type} (p : list (A * string))
    (k : A -> string -> list (B * string)) a r tl x :
  p = (a, r) :: tl ->
  (exists xs, k a r = x :: xs) ->
  exists ys, andthen p k = x :: ys.
Proof.
  intros -> [xs Hk]. unfold andthen. simpl. rewrite Hk.
  eexists. reflexivity.
Qed.

(** The regular expression of the format matches a printed timestamp
    first of all as the fields that were printed. *)
Lemma format_regex_printed (Y m d H M S : Z) :
  0 <= Y <= 9999 -> 1 <= m <= 12 -> 1 <= d <= 31 ->
  0 <= H <= 23 -> 0 <= M <= 59 -> 0 <= S <= 59 ->
  exists tl,
    format_regex (d4 Y ++ d2 m ++ d2 d ++ "T" ++ d2 H ++ d2 M ++ d2 S ++ "Z")
    = (mkFields Y m d H M S, "") :: tl.
Proof.
  intros HY Hm Hd HH HM HS. unfold format_regex.
  destruct (re_m_d2 m (d2 d ++ "T" ++ d2 H ++ d2 M ++ d2 S ++ "Z") Hm) as [t1 E1].
  destruct (re_d_d2 d ("T" ++ d2 H ++ d2 M ++ d2 S ++ "Z") Hd) as [t2 E2].
  destruct (re_H_d2 H (d2 M ++ d2 S ++ "Z") HH) as [t3 E3].
  destruct (re_M_d2 M (d2 S ++ "Z") HM) as [t4 E4].
  destruct (re_S_d2 S "Z" HS) as [t5 E5].
  eapply andthen_head; [now apply re_Y_d4 |].
  eapply andthen_head; [exact E1 |].
  eapply andthen_head; [exact E2 |].
  eapply andthen_head; [reflexivity |].
  eapply andthen_head; [exact E3 |].
  eapply andthen_head; [exact E4 |].
  eapply andthen_head; [exact E5 |].
  eapply andthen_head; [reflexivity |].
  eexists. reflexivity.
Qed.

(** Days, hours, minutes and seconds add up to the instant. *)
Lemma hms_split (t : Z) :
  (t / 86400 + 1 - 1) * 86400 + t mod 86400 / 3600 * 3600
  + (t mod 86400 / 60) mod 60 * 60 + (t mod 86400) mod 60 = t.
Proof.
  set (s := t mod 86400).
  pose proof (Z.div_mod t 86400 ltac:(discriminate)) as H1.
  pose proof (Z.div_mod s 60 ltac:(discriminate)) as H2.
  pose proof (Z.div_mod (s / 60) 60 ltac:(discriminate)) as H3.
  rewrite Z.div_div in H3 by lia. change (60 * 60) with 3600 in H3.
  fold s in H1. lia.
Qed.

(** Parsing what [strftime] printed gives the instant back. *)
Lemma strptime_strftime (t : datetime) (s : string) :
  in_range t = true -> strftime t = ret s -> strptime s = ret t.
Proof.
  unfold in_range, strftime. cbv zeta.
  rewrite andb_true_iff, Z.leb_le, Z.ltb_lt.
  intros [Ht0 Ht1].
  assert (Hn : 1 <= t / 86400 + 1 <= MAXORDINAL).
  { unfold MAXORDINAL in *. Z.div_mod_to_equations. lia. }
  pose proof (ord_to_ymd_correct (t / 86400 + 1) ltac:(lia)) as Hc.
  pose proof (ord_to_ymd_year_max _ Hn) as Hmax.
  destruct (ord_to_ymd (t / 86400 + 1)) as [[y m] d]. simpl in Hmax.
  destruct Hc as (Hy & Hm & Hd & Ho).
  destruct (y <? 1900); [discriminate |]. intros Hs.
  assert (Es : s = (d4 y ++ d2 m ++ d2 d ++ "T" ++ d2 (t mod 86400 / 3600)
                    ++ d2 (t mod 86400 / 60 mod 60)
                    ++ d2 (t mod 86400 mod 60) ++ "Z")%string)
    by (unfold ret in Hs; congruence).
  clear Hs; subst s.
  assert (Hdim : days_in_month y m <= 31).
  { unfold days_in_month. destruct (_ && _); [lia |].
    apply DAYS_IN_MONTH_max. }
  destruct (format_regex_printed y m d (t mod 86400 / 3600)
              (t mod 86400 / 60 mod 60) (t mod 86400 mod 60)) as [tl E];
    try lia; try (Z.div_mod_to_equations; lia).
  unfold strptime. rewrite E. simpl Str.is_empty. cbv iota.
  unfold of_fields. simpl fY; simpl fm; simpl fd; simpl fH; simpl fM; simpl fS.
  replace ((1 <=? y) && (d <=? days_in_month y m)
           && (t mod 86400 mod 60 <=? 59)) with true
    by (symmetry; rewrite !andb_true_iff, !Z.leb_le;
        repeat split; try lia; Z.div_mod_to_equations; lia).
  rewrite Ho, hms_split. reflexivity.
Qed.

End CodecFacts.

(** ** Claims about one event and about the line unfolder *)

Section EventClaims.

Import Datetime.

(** C1, as the specification states it, fails: an event with a
    summary whose start and end are one and the same instant, the
    first of the calendar, is not accepted where the display time zone
    is behind UTC, and what [validate] raises is not one of its own
    errors: the local time does not exist, and [astimezone]
    overflows. *)
Lemma C1_counterexample :
  let e := Event.mk 0 (fun _ => -18000) 0 (Some "Opening") (Some 0) (Some 0)
             None in
  (exists s, Event.summary e = Some s /\ s <> "")
  /\ (exists st en,
         Event.start e = Some st /\ Event.end_ e = Some en /\ st = en)
  /\ Event.validate e = raise OverflowError.
Proof.
  cbv zeta. split; [eexists; split; [reflexivity | discriminate] |].
  split; [| reflexivity]. exists 0, 0. now repeat split.
Qed.

(** C1 (amended).  [validate] returns without raising exactly when the
    summary is set and not empty, start and end are set, the display
    time zone places both within the years 1 to 9999, and both fall on
    the same calendar date there.  Otherwise it raises: an [Exception]
    of its own, or, when summary, start and end are set and a local
    time lies outside these years, the [OverflowError] of
    [astimezone]. *)
Theorem C1_validate_iff (e : Event.t) :
  (Event.validate e = ret tt <->
   (exists s, Event.summary e = Some s /\ s <> "")
   /\ exists st en d,
       Event.start e = Some st /\ Event.end_ e = Some en
       /\ local_date (Event.timezone e) st = ret d
       /\ local_date (Event.timezone e) en = ret d)
  /\ (Event.validate e = ret tt
      \/ (exists msg, Event.validate e = raise (Exception msg))
      \/ (Event.validate e = raise OverflowError
          /\ (exists s, Event.summary e = Some s /\ s <> "")
          /\ exists st en,
              Event.start e = Some st /\ Event.end_ e = Some en
              /\ (in_range (st + Event.timezone e st) = false
                  \/ in_range (en + Event.timezone e en) = false))).
Proof.
  unfold Event.validate, Str.truthy.
  destruct (Event.summary e) as [s|]; simpl.
  2:{ split; [split; [discriminate |] | right; left; eexists; reflexivity].
      intros [[s [H _]] _]. discriminate. }
  destruct s as [|c s]; simpl.
  { split; [split; [discriminate |] | right; left; eexists; reflexivity].
    intros [[s [[= <-] H]] _]. now contradiction H. }
  destruct (Event.start e) as [st|].
  2:{ split; [split; [discriminate |] | right; left; eexists; reflexivity].
      intros [_ (st & en & d & H & _)]. discriminate. }
  destruct (Event.end_ e) as [en|].
  2:{ split; [split; [discriminate |] | right; left; eexists; reflexivity].
      intros [_ (st' & en & d & _ & H & _)]. discriminate. }
  assert (Hs : exists s0 : string, Some (String c s) = Some s0 /\ s0 <> "")
    by (eexists; split; [reflexivity | discriminate]).
  unfold local_date, astimezone. cbv zeta.
  destruct (in_range (st + Event.timezone e st)) eqn:Rs; cbn [bind ret raise].
  2:{ split.
      - split; [discriminate |].
        intros [_ (st' & en' & d & [= <-] & _ & H & _)].
        rewrite Rs in H. discriminate.
      - right; right. split; [reflexivity |]. split; [exact Hs |].
        exists st, en. repeat split. now left. }
  destruct (in_range (en + Event.timezone e en)) eqn:Re; cbn [bind ret raise].
  2:{ split.
      - split; [discriminate |].
        intros [_ (st' & en' & d & _ & [= <-] & _ & H)].
        rewrite Re in H. discriminate.
      - right; right. split; [reflexivity |]. split; [exact Hs |].
        exists st, en. repeat split. now right. }
  destruct (Z.eqb_spec (date_of (st + Event.timezone e st))
              (date_of (en + Event.timezone e en))) as [Heq | Hne];
    cbn [negb].
  - split; [| now left]. split; [intros _ | reflexivity].
    split; [exact Hs |].
    exists st, en, (date_of (st + Event.timezone e st)).
    rewrite Rs, Re. cbn [bind ret]. rewrite Heq. now repeat split.
  - split; [split; [discriminate |] | right; left; eexists; reflexivity].
    intros [_ (st' & en' & d & [= <-] & [= <-] & H1 & H2)].
    rewrite Rs in H1. rewrite Re in H2. cbn [bind ret] in H1, H2.
    unfold ret in H1, H2. congruence.
Qed.

(** C3, as the specification states it, fails: with an adjustment of
    one hour, 10:00 is printed and parsed back as 11:00. *)
Lemma C3_counterexample :
  exists s,
    Event._print_time (Event.__init__ 0 Example.utc 1) Example.t1000 = ret s
    /\ Event._parse_time (Event.__init__ 0 Example.utc 1) s
       <> ret Example.t1000.
Proof.
  exists "20101005T100000Z". split; [reflexivity |].
  vm_compute. discriminate.
Qed.

(** C3 (amended).  Printing an instant and parsing the text back gives
    the instant moved by the adjustment, [timezone_adjust] hours later
    (an overflow when that leaves the years 1 to 9999); it gives the
    instant itself exactly when the adjustment is zero. *)
Theorem C3_print_then_parse_shifts
    (e : Event.t) (t : datetime) (s : string) :
  in_range t = true ->
  Event._print_time e t = ret s ->
  Event._parse_time e s
  = (if in_range (t + 3600 * Event.timezone_adjust e)
     then ret (t + 3600 * Event.timezone_adjust e)
     else raise OverflowError)
  /\ (Event._parse_time e s = ret t <-> Event.timezone_adjust e = 0).
Proof.
  intros Ht Hs. unfold Event._print_time in Hs.
  unfold Event._parse_time.
  rewrite (strptime_strftime t s Ht Hs). simpl bind. unfold add_hours.
  split; [reflexivity |].
  destruct (in_range (t + 3600 * Event.timezone_adjust e)) eqn:Hr.
  - unfold ret. split; [intros H | intros ->].
    + assert (H' : t + 3600 * Event.timezone_adjust e = t) by congruence.
      unfold datetime in *. lia.
    + now rewrite Z.mul_0_r, Z.add_0_r.
  - split; [discriminate | intros H0].
    rewrite H0, Z.mul_0_r, Z.add_0_r, Ht in Hr. discriminate.
Qed.

Lemma C3_print_then_parse_witness :
  Event._parse_time (Event.__init__ 0 Example.utc 2) "20101005T100000Z"
  = (if in_range (Example.t1000 + 3600 * 2)
     then ret (Example.t1000 + 3600 * 2) else raise OverflowError)
  /\ (Event._parse_time (Event.__init__ 0 Example.utc 2) "20101005T100000Z"
      = ret Example.t1000 <-> 2 = 0).
Proof.
  apply (C3_print_then_parse_shifts (Event.__init__ 0 Example.utc 2)
           Example.t1000 "20101005T100000Z"); vm_compute; reflexivity.
Defined.

End EventClaims.

Section ReaderClaims.

Import Str IcalReader.

(** C5, as the specification states it, fails: of a continuation line
    that starts with two spaces both are dropped, not one. *)
Lemma C5_counterexample :
  Forall (fun c => startswith (rstrip c) " " = true) ["  sponsors"]
  /\ fst (readline (init ["SUMMARY:Lunch with"; "  sponsors"]))
     <> Some (Spec.unfolded "SUMMARY:Lunch with" ["  sponsors"]).
Proof.
  split; [repeat constructor |]. vm_compute. discriminate.
Qed.

(** C5 (amended).  Every physical line loses its trailing white space;
    a physical line followed by lines that, so stripped, start with a
    space comes back from [readline] as one logical line, made of the
    contents of these lines each without any of its leading white
    space (not only one space, and on the first line too); and
    [readline] returns [None] exactly when no line is left. *)
Theorem C5_unfolder_strips_leading_space
    (l : string) (conts rest : list string) :
  Forall (fun c => startswith (rstrip c) " " = true) conts ->
  starts_line (init rest) ->
  init (l :: conts ++ rest) = map rstrip (l :: conts ++ rest)
  /\ (forall x, exists ws,
         x = (rstrip x ++ ws)%string /\ all_space ws = true
         /\ forall c, last_char (rstrip x) = Some c -> isspace c = false)
  /\ readline (init (l :: conts ++ rest))
     = (Some (concat_all (map (fun x => lstrip (rstrip x)) (l :: conts))),
        init rest)
  /\ (forall x, exists ws,
         x = (ws ++ lstrip x)%string /\ all_space ws = true
         /\ forall c, first_char (lstrip x) = Some c -> isspace c = false)
  /\ (forall lines, fst (readline lines) = None <-> lines = []).
Proof.
  intros Hc Hr.
  split; [reflexivity |]. split; [exact rstrip_spec |].
  split; [| split; [exact lstrip_spec | exact readline_none]].
  unfold init. rewrite map_cons, map_app.
  rewrite readline_fold.
  - now rewrite <- map_cons, map_map.
  - now apply Forall_map.
  - exact Hr.
Qed.

Lemma C5_unfolder_witness :
  init ("SUMMARY:a " :: [" b"; "   c"] ++ ["END:VEVENT"])
  = map rstrip ("SUMMARY:a " :: [" b"; "   c"] ++ ["END:VEVENT"])
  /\ (forall x, exists ws,
         x = (rstrip x ++ ws)%string /\ all_space ws = true
         /\ forall c, last_char (rstrip x) = Some c -> isspace c = false)
  /\ readline (init ("SUMMARY:a " :: [" b"; "   c"] ++ ["END:VEVENT"]))
     = (Some (concat_all (map (fun x => lstrip (rstrip x))
                            ("SUMMARY:a " :: [" b"; "   c"]))),
        init ["END:VEVENT"])
  /\ (forall x, exists ws,
         x = (ws ++ lstrip x)%string /\ all_space ws = true
         /\ forall c, first_char (lstrip x) = Some c -> isspace c = false)
  /\ (forall lines, fst (readline lines) = None <-> lines = []).
Proof.
  apply (C5_unfolder_strips_leading_space "SUMMARY:a " [" b"; "   c"]
           ["END:VEVENT"]).
  - repeat constructor.
  - reflexivity.
Defined.

End ReaderClaims.

(** ** Stable sorting *)

Section SortPerm.

Context {A : Type}.
Variable cmp : A -> A -> comparison.

Lemma insert_perm (x : A) (l : list A) :
  Permutation (x :: l) (Sort.insert cmp x l).
Proof.
  induction l as [|y l IH]; simpl; [reflexivity |].
  destruct (cmp x y); try reflexivity.
  rewrite perm_swap. now apply perm_skip.
Qed.

Lemma sort_perm (l : list A) : Permutation l (Sort.sort cmp l).
Proof.
  induction l as [|x l IH]; simpl; [reflexivity |].
  rewrite <- insert_perm. now apply perm_skip.
Qed.

End SortPerm.

Section SortFacts.

Context {A : Type}.
Variable key : A -> Z.
Variable cmp : A -> A -> comparison.

(** The comparison function compares the keys. *)
Hypothesis cmp_key : forall a b, cmp a b = (key a ?= key b).

Lemma insert_sorted (x : A) (l : list A) :
  StronglySorted (Sort.ordered key) l ->
  StronglySorted (Sort.ordered key) (Sort.insert cmp x l).
Proof.
  induction 1 as [|y l Hs IH Hall]; simpl.
  - repeat constructor.
  - rewrite cmp_key.
    destruct (Z.compare_spec (key x) (key y)) as [Hxy | Hxy | Hyx].
    + constructor; [now constructor |].
      constructor; [unfold Sort.ordered; lia |].
      eapply Forall_impl; [| exact Hall].
      unfold Sort.ordered; intros; lia.
    + constructor; [now constructor |].
      constructor; [unfold Sort.ordered; lia |].
      eapply Forall_impl; [| exact Hall].
      unfold Sort.ordered; intros; lia.
    + constructor; [exact IH |].
      apply (Permutation_Forall (insert_perm cmp x l)).
      constructor; [unfold Sort.ordered; lia | exact Hall].
Qed.

Lemma sort_sorted (l : list A) :
  StronglySorted (Sort.ordered key) (Sort.sort cmp l).
Proof.
  induction l as [|x l IH]; simpl; [constructor | now apply insert_sorted].
Qed.

(** In a sorted list an earlier element has the smaller key. *)
Lemma sorted_nth (l : list A) :
  StronglySorted (Sort.ordered key) l ->
  forall i j a b,
    (i < j)%nat -> nth_error l i = Some a -> nth_error l j = Some b ->
    key a <= key b.
Proof.
  induction 1 as [|x l Hs IH Hall]; intros i j a b Hij Ha Hb.
  - destruct i; discriminate.
  - destruct j as [|j]; [lia |]. simpl in Hb.
    destruct i as [|i]; simpl in Ha.
    + injection Ha as <-. apply nth_error_In in Hb.
      rewrite Forall_forall in Hall. now apply Hall.
    + apply (IH i j); [lia | assumption | assumption].
Qed.

(** Insertion puts [x] before every element with the same key. *)
Lemma insert_with_key (k : Z) (x : A) (l : list A) :
  Sort.with_key key k (Sort.insert cmp x l)
  = Sort.with_key key k (x :: l).
Proof.
  induction l as [|y l IH]; [reflexivity |].
  simpl Sort.insert. rewrite cmp_key.
  destruct (Z.compare_spec (key x) (key y)) as [Hxy | Hxy | Hyx];
    try reflexivity.
  unfold Sort.with_key in *. simpl in *. rewrite IH.
  destruct (Z.eqb_spec (key x) k), (Z.eqb_spec (key y) k);
    try reflexivity. lia.
Qed.

(** Sorting is stable: elements of one key keep their order. *)
Lemma sort_stable (k : Z) (l : list A) :
  Sort.with_key key k (Sort.sort cmp l) = Sort.with_key key k l.
Proof.
  induction l as [|x l IH]; [reflexivity |].
  simpl Sort.sort. rewrite insert_with_key.
  unfold Sort.with_key in *. simpl. now rewrite IH.
Qed.

End SortFacts.

(** ** The feed parser *)

Section ParserFacts.

Import Str IcalReader Aggregator.

Variable alloc : nat -> Z.
Variable self : Aggregator.t.

Lemma readline_loop_logical (lines : IcalReader.t) :
  forall s, lines <> [] ->
    exists hd,
      readline_loop s lines
      = ((s ++ hd)%string, snd (readline_loop s lines))
      /\ logical_lines lines
         = hd :: logical_lines (snd (readline_loop s lines)).
Proof.
  induction lines as [|l rest IH]; intros s Hne; [congruence |].
  destruct rest as [|l' rest].
  - exists (lstrip l). split; reflexivity.
  - change (readline_loop s (l :: l' :: rest))
      with (if negb (startswith l' " ")
            then ((s ++ lstrip l)%string, l' :: rest)
            else readline_loop (s ++ lstrip l) (l' :: rest)).
    change (logical_lines (l :: l' :: rest))
      with (if negb (startswith l' " ")
            then lstrip l :: logical_lines (l' :: rest)
            else match logical_lines (l' :: rest) with
                 | [] => [lstrip l]
                 | hd :: tl => (lstrip l ++ hd)%string :: tl
                 end).
    destruct (negb (startswith l' " ")).
    + exists (lstrip l). split; reflexivity.
    + destruct (IH (s ++ lstrip l)%string ltac:(discriminate))
        as (hd & E1 & E2).
      exists (lstrip l ++ hd)%string. rewrite E2. split; [| reflexivity].
      rewrite E1 at 1. now rewrite append_assoc.
Qed.

(** What [readline] returns is the first logical line, and it leaves
    the reader at the next one. *)
Lemma readline_logical (lines : IcalReader.t) (l : string)
    (rest : IcalReader.t) :
  readline lines = (Some l, rest) ->
  logical_lines lines = l :: logical_lines rest.
Proof.
  destruct lines as [|x xs]; [discriminate |].
  unfold readline.
  destruct (readline_loop_logical (x :: xs) "" ltac:(discriminate))
    as (hd & E1 & E2).
  rewrite E1. simpl. intros [= <- <-]. exact E2.
Qed.

Lemma readline_empty_logical (lines rest : IcalReader.t) :
  readline lines = (None, rest) -> logical_lines lines = [].
Proof.
  destruct lines as [|x xs]; [reflexivity |].
  unfold readline. destruct (readline_loop "" (x :: xs)). discriminate.
Qed.

(** With more fuel than lines the loop of the parser comes to its
    end. *)
Lemma parse_loop_finishes (fuel : nat) :
  forall r heap cur,
    (List.length r < fuel)%nat ->
    ended (parse_loop alloc self fuel r heap cur) <> Unfinished.
Proof.
  induction fuel as [|fuel IH]; intros r heap cur Hlen; [lia |].
  simpl. destruct (readline r) as [l r'] eqn:Er.
  destruct (parse_step alloc self heap cur l) as [cur' y heap' | |] eqn:Es;
    try (simpl; discriminate).
  assert (Hl : exists s, l = Some s).
  { destruct l as [s|]; [now exists s | discriminate]. }
  destruct Hl as [s ->]. apply readline_shorter in Er.
  specialize (IH r' heap' cur' ltac:(lia)).
  destruct y; simpl; exact IH.
Qed.

(** More fuel than that changes nothing. *)
Lemma parse_loop_fuel (fuel : nat) :
  forall fuel' r heap cur,
    (List.length r < fuel)%nat -> (List.length r < fuel')%nat ->
    parse_loop alloc self fuel r heap cur
    = parse_loop alloc self fuel' r heap cur.
Proof.
  induction fuel as [|fuel IH]; intros fuel' r heap cur H1 H2; [lia |].
  destruct fuel' as [|fuel']; [lia |].
  simpl. destruct (readline r) as [l r'] eqn:Er.
  destruct (parse_step alloc self heap cur l) as [cur' y heap' | |] eqn:Es;
    try reflexivity.
  assert (Hl : exists s, l = Some s).
  { destruct l as [s|]; [now exists s | discriminate]. }
  destruct Hl as [s ->]. apply readline_shorter in Er.
  now rewrite (IH fuel' r' heap' cur') by lia.
Qed.

Lemma _parse_ical_finishes (flines : list string) (heap : nat) :
  ended (_parse_ical alloc self flines heap) <> Unfinished.
Proof. unfold _parse_ical. apply parse_loop_finishes. lia. Qed.

(** The loop is left by [break] only at the line [END:VCALENDAR]. *)
Lemma parse_step_break (heap : nat) (cur : option Event.t)
    (l : option string) :
  parse_step alloc self heap cur l = Break -> l = Some "END:VCALENDAR".
Proof.
  unfold parse_step.
  destruct (negb (Str.truthy l)); [discriminate |].
  destruct l as [s|]; [| now destruct cur].
  destruct (String.eqb_spec s "END:VCALENDAR") as [-> | Hne];
    [reflexivity |].
  repeat match goal with
         | |- context [if ?b then _ else _] => destruct b
         | |- context [match ?x with _ => _ end] => destruct x
         end; discriminate.
Qed.

(** The generator returns only at the line [END:VCALENDAR]. *)
Lemma parse_loop_returned (fuel : nat) :
  forall r heap cur,
    ended (parse_loop alloc self fuel r heap cur) = Returned ->
    In "END:VCALENDAR" (logical_lines r).
Proof.
  induction fuel as [|fuel IH]; intros r heap cur; [discriminate |].
  simpl. destruct (readline r) as [l r'] eqn:Er.
  destruct (parse_step alloc self heap cur l) as [cur' y heap' | |] eqn:Es.
  - assert (Hl : exists s, l = Some s).
    { destruct l as [s|]; [now exists s | discriminate]. }
    destruct Hl as [s ->]. apply readline_logical in Er. rewrite Er.
    intros H. right. destruct y; simpl in H; now apply IH in H.
  - apply parse_step_break in Es as ->.
    apply readline_logical in Er. rewrite Er. intros _. now left.
  - discriminate.
Qed.

(** A line that is not empty, is none of the three markers and starts
    with none of the three property names is passed over: nothing is
    raised and the open event, if any, stays as it is. *)
Lemma parse_step_ignores (heap : nat) (cur : option Event.t) (l : string) :
  l <> "" -> l <> "END:VCALENDAR" -> l <> "BEGIN:VEVENT" ->
  l <> "END:VEVENT" ->
  startswith l "DTSTART:" = false -> startswith l "DTEND:" = false ->
  startswith l "SUMMARY:" = false ->
  parse_step alloc self heap cur (Some l) = Next cur None heap.
Proof.
  intros H0 H1 H2 H3 H4 H5 H6. unfold parse_step.
  destruct l as [|c l]; [congruence |]. cbn [Str.truthy is_empty negb].
  cbv iota.
  destruct (String.eqb_spec (String c l) "END:VCALENDAR"); [congruence |].
  destruct (String.eqb_spec (String c l) "BEGIN:VEVENT"); [congruence |].
  destruct (String.eqb_spec (String c l) "END:VEVENT"); [congruence |].
  now rewrite H4, H5, H6.
Qed.

(** A line that starts with one of the three property names, read
    while no event is open, raises [AttributeError]. *)
Lemma parse_step_property_idle (heap : nat) (l : string) :
  startswith l "DTSTART:" || startswith l "DTEND:"
  || startswith l "SUMMARY:" = true ->
  parse_step alloc self heap None (Some l) = Raises AttributeError.
Proof.
  intros H. rewrite !orb_true_iff in H.
  destruct H as [[H | H] | H]; apply prefix_split in H as [r ->];
    destruct r; reflexivity.
Qed.

End ParserFacts.

(** ** Claims about the parser and about [pull_all] *)

Section ParserClaims.

Import Str IcalReader Aggregator.

(** C6 is not what the code does on an empty line: the test
    [if not l] takes the empty string for the end of the stream, so a
    blank line in a feed ends the parse with [End of stream] where the
    claim has it passed over.  Here the feed is [BEGIN:VCALENDAR], a
    blank line, [END:VCALENDAR]. *)
Theorem C6_blank_line_ends_stream :
  logical_lines (init (readlines Example.feed_blank))
  = ["BEGIN:VCALENDAR"; ""; "END:VCALENDAR"]
  /\ (forall heap cur,
         parse_step Example.alloc Example.aggregator heap cur (Some "")
         = Raises (Exception "End of stream"))
  /\ _parse_ical Example.alloc Example.aggregator
       (readlines Example.feed_blank) 0
     = mkRun [] (Raised (Exception "End of stream")) 0.
Proof.
  split; [reflexivity |]. split; [| reflexivity].
  intros heap cur. reflexivity.
Qed.

(** C8.  [BEGIN:VEVENT] read while an event is open and [END:VEVENT]
    read while none is open raise; [END:VCALENDAR] ends the parse
    without an error whether an event is open or not; a reader with no
    line left raises [End of stream]; and a feed without the line
    [END:VCALENDAR] never ends without an error. *)
Theorem C8_markers_and_end_of_stream
    (alloc : nat -> Z) (self : Aggregator.t) :
  (forall fuel r r' heap e,
      readline r = (Some "BEGIN:VEVENT", r') ->
      parse_loop alloc self (S fuel) r heap (Some e)
      = mkRun [] (Raised (Exception "Recursive events?!")) heap)
  /\ (forall fuel r r' heap,
         readline r = (Some "END:VEVENT", r') ->
         parse_loop alloc self (S fuel) r heap None
         = mkRun [] (Raised (Exception "End of nonexisting event?!")) heap)
  /\ (forall fuel r r' heap cur,
         readline r = (Some "END:VCALENDAR", r') ->
         parse_loop alloc self (S fuel) r heap cur = mkRun [] Returned heap)
  /\ (forall fuel heap cur,
         parse_loop alloc self (S fuel) [] heap cur
         = mkRun [] (Raised (Exception "End of stream")) heap)
  /\ (forall flines heap,
         ~ In "END:VCALENDAR" (logical_lines (init flines)) ->
         exists e, ended (_parse_ical alloc self flines heap) = Raised e).
Proof.
  split; [| split; [| split; [| split]]].
  - intros fuel r r' heap e Er. simpl. now rewrite Er.
  - intros fuel r r' heap Er. simpl. now rewrite Er.
  - intros fuel r r' heap cur Er. simpl. rewrite Er. now destruct cur.
  - intros fuel heap cur. reflexivity.
  - intros flines heap Hno.
    pose proof (_parse_ical_finishes alloc self flines heap) as Hfin.
    pose proof (parse_loop_returned alloc self
                  (S (List.length (init flines))) (init flines) heap None)
      as Hret.
    fold (_parse_ical alloc self flines heap) in Hret.
    destruct (ended (_parse_ical alloc self flines heap)) as [|e|].
    + now contradiction Hno; apply Hret.
    + now exists e.
    + congruence.
Qed.

(** C10.  A line that starts with [DTSTART:], [DTEND:] or [SUMMARY:],
    read while no event is open, is not passed over: the parser raises
    [AttributeError] there and yields nothing more. *)
Theorem C10_property_outside_event
    (alloc : nat -> Z) (self : Aggregator.t) (fuel : nat)
    (r r' : IcalReader.t) (heap : nat) (l : string) :
  readline r = (Some l, r') ->
  startswith l "DTSTART:" || startswith l "DTEND:"
  || startswith l "SUMMARY:" = true ->
  parse_step alloc self heap None (Some l) = Raises AttributeError
  /\ parse_loop alloc self (S fuel) r heap None
     = mkRun [] (Raised AttributeError) heap.
Proof.
  intros Er Hl.
  pose proof (parse_step_property_idle alloc self heap l Hl) as Hs.
  split; [exact Hs |]. simpl. now rewrite Er, Hs.
Qed.

Lemma C10_property_outside_event_witness :
  parse_step Example.alloc Example.aggregator 0 None
    (Some "DTSTART:20101005T100000Z")
  = Raises AttributeError
  /\ parse_loop Example.alloc Example.aggregator 3
       ["BEGIN:VCALENDAR"; "DTSTART:20101005T100000Z"; "END:VCALENDAR"]
       0 None
     = mkRun [] (Raised AttributeError) 0.
Proof.
  split.
  - apply (C10_property_outside_event Example.alloc Example.aggregator 0
             ["DTSTART:20101005T100000Z"; "END:VCALENDAR"]
             ["END:VCALENDAR"] 0 "DTSTART:20101005T100000Z");
      reflexivity.
  - reflexivity.
Defined.

End ParserClaims.

Section PullClaims.

Import Aggregator.

Variable alloc : nat -> Z.
Variable urlopen : string -> pyres string.
Variable self : Aggregator.t.

(** The events [pull_all] has before it sorts: those it began with,
    then, feed after feed in the order of registration, the events of
    the feed in the order the parser yielded them. *)
Lemma pull_feeds_returned (fs : list (string * string)) :
  forall evs heap,
    ended (pull_feeds alloc urlopen self fs evs heap) = Returned ->
    exists runs,
      Forall2 (parsed_feed alloc urlopen self) fs runs
      /\ yielded (pull_feeds alloc urlopen self fs evs heap)
         = (evs ++ List.concat (map (fun fr => tagged (fst (fst fr)) (snd fr))
                             (combine fs runs)))%list.
Proof.
  induction fs as [|[feed url] fs IH]; intros evs heap H.
  - exists []. split; [constructor |]. simpl. now rewrite app_nil_r.
  - simpl in *. destruct (urlopen url) as [e | text] eqn:Eu;
      [discriminate |].
    set (r := _parse_ical alloc self (Str.readlines text) heap) in *.
    destruct (ended r) eqn:Er; try discriminate.
    destruct (IH _ _ H) as (runs & HF & Hy).
    exists (r :: runs). split.
    + constructor; [| exact HF]. exists text, heap. now repeat split.
    + rewrite Hy. simpl. now rewrite <- app_assoc.
Qed.

Lemma starts_at_with_key (k : Z) (l : list Event.t) :
  forallb Event.has_start l = true ->
  filter (Event.starts_at (Some k)) l
  = Sort.with_key Event.start_key k l.
Proof.
  intros H. unfold Sort.with_key. apply filter_ext_in. intros e He.
  rewrite forallb_forall in H. specialize (H e He).
  unfold Event.has_start, Event.starts_at, Event.start_key in *.
  now destruct (Event.start e).
Qed.

Lemma starts_at_none (l : list Event.t) :
  forallb Event.has_start l = true ->
  filter (Event.starts_at None) l = [].
Proof.
  intros H. induction l as [|e l IH]; [reflexivity |].
  simpl in *. apply andb_true_iff in H as [He Hl].
  unfold Event.has_start, Event.starts_at in *.
  destruct (Event.start e); [now apply IH | discriminate].
Qed.

Lemma sort_events_spec (pre sorted : list Event.t) :
  sort_events pre = ret sorted ->
  Permutation pre sorted
  /\ (forall i j a b,
         (i < j)%nat ->
         nth_error sorted i = Some a -> nth_error sorted j = Some b ->
         Event.opt_le (Event.start a) (Event.start b))
  /\ (forall v,
         filter (Event.starts_at v) sorted = filter (Event.starts_at v) pre).
Proof.
  unfold sort_events.
  destruct (forallb Event.has_start pre) eqn:Hall.
  - intros [= <-].
    pose proof (sort_perm compare_events pre) as Hp.
    assert (Hall' : forallb Event.has_start (Sort.sort compare_events pre)
                    = true).
    { rewrite forallb_forall in *. intros e He. apply Hall.
      now apply (Permutation_in _ (Permutation_sym Hp)). }
    split; [exact Hp |]. split.
    + intros i j a b Hij Ha Hb.
      pose proof (sorted_nth Event.start_key _
                    (sort_sorted Event.start_key compare_events
                       (fun _ _ => eq_refl) pre) i j a b Hij Ha Hb)
        as Hle.
      rewrite forallb_forall in Hall'.
      pose proof (Hall' a (nth_error_In _ _ Ha)) as Sa.
      pose proof (Hall' b (nth_error_In _ _ Hb)) as Sb.
      unfold Event.has_start, Event.start_key in *.
      destruct (Event.start a), (Event.start b); try discriminate.
      exact Hle.
    + intros [k|].
      * rewrite !starts_at_with_key by assumption.
        apply sort_stable. reflexivity.
      * now rewrite !starts_at_none.
  - destruct (forallb (fun e => negb (Event.has_start e)) pre) eqn:Hnone;
      [| discriminate].
    intros [= <-]. split; [reflexivity |]. split; [| reflexivity].
    intros i j a b _ Ha Hb. rewrite forallb_forall in Hnone.
    pose proof (Hnone a (nth_error_In _ _ Ha)) as Sa.
    pose proof (Hnone b (nth_error_In _ _ Hb)) as Sb.
    unfold Event.has_start in *.
    destruct (Event.start a), (Event.start b); try discriminate.
    exact I.
Qed.

(** C7.  After [pull_all] the events are in ascending order of
    [start], and they are the events it had before sorting, those with
    the same [start] in the order they had there: the order of the
    feeds, and in a feed the order of the document. *)
Theorem C7_pull_all_sorted_stable (heap : nat) (self' : Aggregator.t) :
  pull_all alloc urlopen self heap = (self', Returned) ->
  exists runs,
    Forall2 (parsed_feed alloc urlopen self) (feeds self) runs
    /\ let pre :=
         (events self
          ++ List.concat (map (fun fr => tagged (fst (fst fr)) (snd fr))
                       (combine (feeds self) runs)))%list in
       Permutation pre (events self')
       /\ (forall i j a b,
              (i < j)%nat ->
              nth_error (events self') i = Some a ->
              nth_error (events self') j = Some b ->
              Event.opt_le (Event.start a) (Event.start b))
       /\ (forall v,
              filter (Event.starts_at v) (events self')
              = filter (Event.starts_at v) pre).
Proof.
  unfold pull_all.
  destruct (ended (pull_feeds alloc urlopen self (feeds self)
                     (events self) heap)) eqn:He; try discriminate.
  destruct (pull_feeds_returned _ _ _ He) as (runs & HF & Hy).
  destruct (sort_events _) as [e | sorted] eqn:Hs; [discriminate |].
  intros [= <-]. exists runs. split; [exact HF |].
  cbv zeta. rewrite <- Hy. simpl events.
  now apply sort_events_spec.
Qed.

End PullClaims.

Lemma C7_pull_all_witness :
  exists runs,
    Forall2 (Aggregator.parsed_feed Example.alloc Example.urlopen
               Example.aggregator)
      (Aggregator.feeds Example.aggregator) runs
    /\ let pre :=
         (Aggregator.events Example.aggregator
          ++ List.concat (map (fun fr => Aggregator.tagged (fst (fst fr)) (snd fr))
                       (combine (Aggregator.feeds Example.aggregator) runs)))%list in
       Permutation pre (Aggregator.events Example.pulled)
       /\ (forall i j a b,
              (i < j)%nat ->
              nth_error (Aggregator.events Example.pulled) i = Some a ->
              nth_error (Aggregator.events Example.pulled) j = Some b ->
              Event.opt_le (Event.start a) (Event.start b))
       /\ (forall v,
              filter (Event.starts_at v) (Aggregator.events Example.pulled)
              = filter (Event.starts_at v) pre).
Proof.
  apply (C7_pull_all_sorted_stable Example.alloc Example.urlopen
           Example.aggregator 0 Example.pulled).
  vm_compute. reflexivity.
Defined.

(** ** The grid layout *)

Section LayoutFacts.

Import Datetime Aggregator.

(** Within one day the seconds of a difference are the whole
    difference. *)
Lemma timedelta_seconds_same_day (t r : datetime) :
  r <= t -> date_of t = date_of r -> timedelta_seconds t r = t - r.
Proof.
  unfold date_of, timedelta_seconds, datetime. intros Hle Hd.
  apply Z.mod_small. Z.div_mod_to_equations. lia.
Qed.

Lemma first_last_spec (day : date) (evs : list Event.t) :
  forall ft0 lt0 ft lt,
    first_last day evs ft0 lt0 = ret (ft, lt) ->
    ft = match ft0 with
         | Some _ => ft0
         | None => day_first_start evs day
         end
    /\ lt = fold_left (fun _ e => Event.end_ e)
              (filter (Event.on_day day) evs) lt0.
Proof.
  unfold day_first_start.
  induction evs as [|e evs IH]; intros ft0 lt0 ft lt H; simpl in H.
  - injection H as <- <-. now destruct ft0.
  - destruct (Event.start e) as [st|] eqn:Es; [| discriminate].
    assert (Eo : Event.on_day day e = (date_of st =? day))
      by (unfold Event.on_day; now rewrite Es).
    simpl filter. rewrite Eo.
    destruct (date_of st =? day); simpl in H |- *.
    + apply IH in H as [-> ->]. split; [| reflexivity].
      destruct ft0; [reflexivity | now rewrite Es].
    + now apply IH in H.
Qed.

(** What a session block holds. *)
Lemma session_block_spec (self : Aggregator.t) (rooms : list (string * Z))
    (firsttime : option datetime) (e : Event.t) (st : datetime) (b : html) :
  session_block self rooms firsttime e st = ret b ->
  exists fs en i shm ehm,
    firsttime = Some fs /\ Event.end_ e = Some en
    /\ room_of rooms (Event.location e) = ret i
    /\ local_hm (timezone self) st = ret shm
    /\ local_hm (timezone self) en = ret ehm
    /\ b = SessBlock
             (PrimFloat.add (_timediff_to_y_pixels st fs) (float_of_Z 30))
             (150 * i) 148
             (PrimFloat.sub (_timediff_to_y_pixels en st) (float_of_Z 2))
             shm ehm (Event.summary e).
Proof.
  unfold session_block.
  destruct firsttime as [fs|]; [| discriminate]. cbn [timediff_opt bind ret].
  destruct (room_of rooms (Event.location e)) as [x | i]; [discriminate |].
  cbn [bind]. destruct (Event.end_ e) as [en|]; [| discriminate].
  cbn [timediff_opt bind ret].
  destruct (local_hm (timezone self) st) as [x | shm] eqn:Es;
    [discriminate |].
  destruct (local_hm (timezone self) en) as [x | ehm] eqn:Ee;
    [discriminate |].
  cbn [bind]. intros H.
  exists fs, en, i, shm, ehm. do 3 (split; [reflexivity |]).
  split; [reflexivity |]. split; [exact Ee |].
  injection H as Hb. rewrite <- Hb. reflexivity.
Qed.

(** The session blocks of a day are those of the events that start on
    it, in the order of the list. *)
Lemma sessions_spec (self : Aggregator.t) (rooms : list (string * Z))
    (day : date) (firsttime : option datetime) (evs : list Event.t) :
  forall blocks,
    sessions self rooms day firsttime evs = ret blocks ->
    Forall2 (fun e b =>
               exists st, Event.start e = Some st /\ date_of st = day
                          /\ session_block self rooms firsttime e st = ret b)
      (filter (Event.on_day day) evs) blocks.
Proof.
  induction evs as [|e evs IH]; intros blocks H; simpl in H.
  - injection H as <-. constructor.
  - destruct (Event.start e) as [st|] eqn:Es; [| discriminate].
    assert (Eo : Event.on_day day e = (date_of st =? day))
      by (unfold Event.on_day; now rewrite Es).
    simpl filter. rewrite Eo.
    destruct (Z.eqb_spec (date_of st) day) as [Hd | Hd]; simpl in H.
    + destruct (session_block self rooms firsttime e st) as [x | b] eqn:Eb;
        [discriminate |].
      simpl in H.
      destruct (sessions self rooms day firsttime evs) as [x | rest];
        [discriminate |].
      simpl in H. injection H as <-.
      constructor; [now exists st | now apply IH].
    + now apply IH.
Qed.

Lemma dict_get_set (d : list (string * Z)) (k k' : string) (v : Z) :
  dict_get (dict_set d k v) k'
  = if String.eqb k k' then Some v else dict_get d k'.
Proof.
  induction d as [|[k0 v0] d IH]; simpl.
  - now rewrite String.eqb_sym.
  - destruct (String.eqb_spec k0 k) as [-> | Hne]; simpl.
    + now destruct (String.eqb k k').
    + rewrite IH. destruct (String.eqb_spec k0 k') as [-> | Hne'];
        [| reflexivity].
      destruct (String.eqb_spec k k'); [congruence | reflexivity].
Qed.

(** The dictionary of the rooms gives a name the position of the last
    feed registered under it. *)
Lemma dict_get_build_rooms (name : string) (fs : list (string * string)) :
  forall i rooms,
    dict_get (build_rooms i fs rooms) name
    = last_index name fs i (dict_get rooms name).
Proof.
  induction fs as [|f fs IH]; intros i rooms; simpl; [reflexivity |].
  now rewrite IH, dict_get_set.
Qed.

Lemma room_of_column (fs : list (string * string)) (loc : option string)
    (i : Z) :
  room_of (build_rooms 0 fs []) loc = ret i ->
  exists name, loc = Some name /\ column_index fs name = Some i.
Proof.
  unfold room_of, column_index. destruct loc as [name|]; [| discriminate].
  rewrite dict_get_build_rooms. simpl dict_get.
  destruct (last_index name fs 0 None) as [j|] eqn:Ej; [| discriminate].
  intros H. exists name. split; [reflexivity |].
  rewrite Ej. unfold ret in H. congruence.
Qed.

(** *** The days and their headings *)

Lemma collect_days_returns (evs : list Event.t) :
  forall days,
    Forall (fun e => Event.start e <> None) evs ->
    exists days',
      collect_days evs days = ret days'
      /\ (forall d, In d days'
                    <-> In d days \/ existsb (Event.on_day d) evs = true)
      /\ (NoDup days -> NoDup days').
Proof.
  induction evs as [|e evs IH]; intros days Hall; cbn [collect_days].
  - exists days. split; [reflexivity |]. split; [| tauto].
    intros d. cbn [existsb]. split; [tauto | intros [H | H]; [exact H |]].
    discriminate.
  - inversion Hall as [|? ? He Hevs]; subst.
    destruct (Event.start e) as [st|] eqn:Es; [| contradiction].
    assert (Eo : forall d, Event.on_day d e = (date_of st =? d))
      by (intros d; unfold Event.on_day; now rewrite Es).
    destruct (existsb (Z.eqb (date_of st)) days) eqn:Ex; cbn [negb].
    + destruct (IH days Hevs) as (days' & Hc & Hin & Hnd).
      exists days'. split; [exact Hc |]. split; [| exact Hnd].
      intros d. rewrite Hin. cbn [existsb]. rewrite Eo, orb_true_iff.
      split; [tauto | intros [H | [H | H]]; [tauto | | tauto]].
      left. apply Z.eqb_eq in H. subst d.
      apply existsb_exists in Ex as (x & Hx & E).
      apply Z.eqb_eq in E. now subst x.
    + destruct (IH (days ++ [date_of st])%list Hevs) as (days' & Hc & Hin & Hnd).
      exists days'. split; [exact Hc |]. split.
      * intros d. rewrite Hin, in_app_iff. cbn [existsb In].
        rewrite Eo, orb_true_iff, Z.eqb_eq. tauto.
      * intros Hd. apply Hnd.
        apply NoDup_app; [exact Hd | repeat constructor; intros [] |].
        intros x Hx [<- | []].
        assert (existsb (Z.eqb (date_of st)) days = true); [| congruence].
        apply existsb_exists. exists (date_of st).
        split; [exact Hx | apply Z.eqb_refl].
Qed.

Lemma collect_days_starts (evs : list Event.t) :
  forall days days',
    collect_days evs days = ret days' ->
    Forall (fun e => Event.start e <> None) evs.
Proof.
  induction evs as [|e evs IH]; intros days days' H; [constructor |].
  cbn [collect_days] in H.
  destruct (Event.start e) as [st|] eqn:Es; [| discriminate].
  constructor; [rewrite Es; discriminate |].
  destruct (negb _); exact (IH _ _ H).
Qed.

Lemma h2_days_app (a b : list html) :
  h2_days (a ++ b) = (h2_days a ++ h2_days b)%list.
Proof. apply flat_map_app. Qed.

Lemma h2_days_sessions (self : Aggregator.t) (rooms : list (string * Z))
    (day : date) (ft : option datetime) (evs : list Event.t) :
  forall blocks,
    sessions self rooms day ft evs = ret blocks -> h2_days blocks = [].
Proof.
  intros blocks H. apply sessions_spec in H.
  induction H as [|e b es bs (st & _ & _ & Hb) _ IH]; [reflexivity |].
  apply session_block_spec in Hb
    as (fs & en & i & shm & ehm & _ & _ & _ & _ & _ & ->).
  exact IH.
Qed.

(** *** The blocks of the sessions *)

Lemma sess_blocks_app (a b : list html) :
  sess_blocks (a ++ b) = (sess_blocks a ++ sess_blocks b)%list.
Proof. apply filter_app. Qed.

(** The loop over the sessions of a day writes the block of each event
    that starts on the day, in the order of the list, and nothing
    else. *)
Lemma sessions_blocks (self : Aggregator.t) (day : date)
    (evs : list Event.t) (blocks : list html) :
  sessions self (build_rooms 0 (feeds self) []) day
    (day_first_start (events self) day) evs = ret blocks ->
  sess_blocks blocks = blocks
  /\ Forall2 (block_of self) (filter (Event.on_day day) evs) blocks.
Proof.
  intros H. apply sessions_spec in H.
  induction H as [|e b es bs (st & Hst & Hday & Hb) _ [IH1 IH2]];
    [split; [reflexivity | constructor] |].
  apply session_block_spec in Hb
    as (fs & en & i & shm & ehm & Hfs & Hen & Hroom & Hs & He & ->).
  apply room_of_column in Hroom as (name & Hloc & Hcol).
  split; [cbn [sess_blocks filter]; fold (sess_blocks bs); now rewrite IH1 |].
  constructor; [| exact IH2].
  exists st, en, fs, name, i, shm, ehm. rewrite Hday.
  repeat split; assumption.
Qed.

(** An event starts on one day. *)
Lemma on_day_unique (e : Event.t) (d d' : date) :
  Event.on_day d e = true -> Event.on_day d' e = true -> d = d'.
Proof.
  unfold Event.on_day. destruct (Event.start e); [| discriminate].
  rewrite !Z.eqb_eq. congruence.
Qed.

(** Taken day by day, over days that differ, events that each start
    on one of the days are the same events. *)
Lemma by_day_perm (l : list Event.t) (days : list date) :
  NoDup days ->
  (forall e, In e l -> exists d, In d days /\ Event.on_day d e = true) ->
  Permutation l (flat_map (fun d => filter (Event.on_day d) l) days).
Proof.
  intros Hnd. induction l as [|e l IH]; intros Hcov.
  - clear. induction days as [|d ds IHd]; [constructor | exact IHd].
  - destruct (Hcov e (or_introl eq_refl)) as (d0 & Hd0 & He).
    assert (Hout : forall ds,
               ~ In d0 ds ->
               flat_map (fun d => filter (Event.on_day d) (e :: l)) ds
               = flat_map (fun d => filter (Event.on_day d) l) ds).
    { induction ds as [|d ds IHd]; intros Hn; [reflexivity |].
      cbn [flat_map].
      destruct (Event.on_day d e) eqn:Ed.
      - exfalso. apply Hn. left. exact (on_day_unique e d d0 Ed He).
      - rewrite IHd by (intros Hin; apply Hn; now right).
        cbn [filter]. now rewrite Ed. }
    assert (Hins : forall ds,
               NoDup ds -> In d0 ds ->
               Permutation
                 (e :: flat_map (fun d => filter (Event.on_day d) l) ds)
                 (flat_map (fun d => filter (Event.on_day d) (e :: l)) ds)).
    { induction ds as [|d ds IHd]; intros Hn Hin; [contradiction |].
      inversion Hn as [|? ? Hd Hds]; subst. cbn [flat_map].
      destruct (Event.on_day d e) eqn:Ed.
      - assert (d = d0) by exact (on_day_unique e d d0 Ed He). subst d.
        rewrite (Hout ds Hd). cbn [filter]. rewrite Ed. reflexivity.
      - destruct Hin as [-> | Hin]; [congruence |].
        rewrite <- (IHd Hds Hin). cbn [filter]. rewrite Ed.
        apply Permutation_middle. }
    rewrite <- (Hins days Hnd Hd0). apply perm_skip. apply IH.
    intros e' He'. apply Hcov. now right.
Qed.

(** Every event of the aggregator is among those taken day by day over
    the days [generate_html] finds. *)
Lemma events_by_day_perm (self : Aggregator.t) (days : list date) :
  collect_days (events self) [] = ret days ->
  Permutation (events self)
    (events_by_day self (Sort.sort Z.compare days)).
Proof.
  intros Hc.
  pose proof (collect_days_starts _ _ _ Hc) as Hst.
  destruct (collect_days_returns (events self) [] Hst)
    as (days' & Hc' & Hin & Hnd).
  assert (days' = days) by (rewrite Hc in Hc'; unfold ret in Hc'; congruence).
  subst days'.
  pose proof (sort_perm Z.compare days) as Hp.
  pose proof (sort_perm Event.default_cmp (events self)) as He.
  rewrite He at 1. apply by_day_perm.
  - apply (Permutation_NoDup Hp), Hnd. constructor.
  - intros e Hin_e.
    apply (Permutation_in _ (Permutation_sym He)) in Hin_e.
    rewrite Forall_forall in Hst. pose proof (Hst e Hin_e) as Hs.
    destruct (Event.start e) as [st|] eqn:Es; [| contradiction].
    assert (Ho : Event.on_day (date_of st) e = true)
      by (unfold Event.on_day; rewrite Es; apply Z.eqb_refl).
    exists (date_of st). split; [| exact Ho].
    apply (Permutation_in _ Hp). apply Hin. right.
    apply existsb_exists. now exists e.
Qed.

(** *** The writes of [generate_html] *)

Section Order.

(** The order in which the dictionary of the rooms gives its items. *)
Variable items : list (string * Z) -> list (string * Z).

Lemma render_day_spec (self : Aggregator.t) (rooms : list (string * Z))
    (day : date) (d : list html) :
  render_day items self rooms day = ret d ->
  exists height blocks,
    timediff_opt (day_last_end (events self) day)
      (day_first_start (events self) day) = ret height
    /\ sessions self rooms day (day_first_start (events self) day)
         (sorted_events self) = ret blocks
    /\ d = ([H2 day;
             SchedWrap (Z.of_nat (List.length rooms) * col_width)
               (PrimFloat.add height (float_of_Z headersize))]
            ++ room_headers items rooms ++ blocks ++ [CloseDiv])%list.
Proof.
  unfold render_day.
  destruct (first_last day (events self) None None) as [x | [ft lt]] eqn:Ef;
    [discriminate |].
  apply first_last_spec in Ef as [-> ->]. simpl.
  fold (day_last_end (events self) day).
  destruct (timediff_opt _ _) as [x | height]; [discriminate |]. simpl.
  destruct (sessions _ _ _ _ _) as [x | blocks]; [discriminate |]. simpl.
  intros [= <-]. now exists height, blocks.
Qed.

Lemma h2_days_room_headers (rooms : list (string * Z)) :
  h2_days (room_headers items rooms) = [].
Proof.
  unfold room_headers.
  induction (items rooms) as [|[name i] l IH]; [reflexivity | exact IH].
Qed.

Lemma h2_days_render_days (self : Aggregator.t) (rooms : list (string * Z))
    (days : list date) :
  forall out, render_days items self rooms days = ret out -> h2_days out = days.
Proof.
  induction days as [|day days IH]; intros out H; cbn [render_days] in H.
  - unfold ret in H. injection H as <-. reflexivity.
  - destruct (render_day items self rooms day) as [x | d] eqn:Hd;
      [discriminate |].
    destruct (render_days items self rooms days) as [x | rest]; [discriminate |].
    cbn [bind ret] in H. injection H as <-.
    apply render_day_spec in Hd as (h & blocks & _ & Hs & ->).
    rewrite !h2_days_app, h2_days_room_headers,
      (h2_days_sessions _ _ _ _ _ _ Hs), (IH rest eq_refl).
    reflexivity.
Qed.

Lemma sess_blocks_room_headers (rooms : list (string * Z)) :
  sess_blocks (room_headers items rooms) = [].
Proof.
  unfold room_headers.
  induction (items rooms) as [|[name i] l IH]; [reflexivity | exact IH].
Qed.

Lemma render_days_blocks (self : Aggregator.t) (days : list date) :
  forall out,
    render_days items self (build_rooms 0 (feeds self) []) days = ret out ->
    Forall2 (block_of self) (events_by_day self days) (sess_blocks out).
Proof.
  induction days as [|day days IH]; intros out H; cbn [render_days] in H.
  - unfold ret in H. injection H as <-. constructor.
  - destruct (render_day items self _ day) as [x | d] eqn:Hd;
      [discriminate |].
    destruct (render_days items self _ days) as [x | rest];
      [discriminate |].
    cbn [bind ret] in H. injection H as <-.
    apply render_day_spec in Hd as (h & blocks & _ & Hs & ->).
    apply sessions_blocks in Hs as [Hb HF].
    rewrite !sess_blocks_app, sess_blocks_room_headers, Hb.
    cbn [sess_blocks filter app]. rewrite app_nil_r.
    unfold events_by_day. cbn [flat_map].
    apply Forall2_app; [exact HF | exact (IH rest eq_refl)].
Qed.

End Order.

End LayoutFacts.

(** ** Claims about the grid layout *)

Section LayoutClaims.

Import Datetime Aggregator.

(** The order in which the dictionary of the rooms gives its items:
    what follows holds whatever it is. *)
Variable items : list (string * Z) -> list (string * Z).

(** C9.  For [r <= t] on one day the vertical position of [t] from [r]
    is the whole minutes between them, seconds divided by 60 as
    integers, times 1.7.  And the session blocks [generate_html]
    writes are the blocks of the events of the aggregator, one for
    each event: day by day in the order of the headings, within a day
    in the order of [sorted (self.events)], each block with top the
    position of the start of its event from the first start of its day
    plus 30, left the column of the room of the event, the position of
    the last feed registered under that name, times 150, width 148,
    height the position of the end of the event from its start minus
    2, and the local times and the summary of the event. *)
Theorem C9_pixel_positions :
  (forall t r : datetime,
      r <= t -> date_of t = date_of r ->
      _timediff_to_y_pixels t r
      = PrimFloat.mul (float_of_Z ((t - r) / 60)) px_per_minute)
  /\ (forall self out,
         generate_html items self = ret out ->
         Permutation (events self) (events_by_day self (h2_days out))
         /\ Forall2 (block_of self) (events_by_day self (h2_days out))
              (sess_blocks out)).
Proof.
  split.
  - intros t r Hle Hd. unfold _timediff_to_y_pixels.
    now rewrite timedelta_seconds_same_day.
  - intros self out Hg. unfold generate_html in Hg. cbv zeta in Hg.
    destruct (collect_days (events self) []) as [x | days] eqn:Hc;
      [discriminate |].
    cbn [bind] in Hg.
    rewrite (h2_days_render_days items _ _ _ _ Hg). split.
    + now apply events_by_day_perm.
    + now apply (render_days_blocks items).
Qed.

(** The grid of the two rooms of the example. *)
Lemma generate_html_pulled :
  generate_html items Example.pulled
  = ret ([H2 734050; SchedWrap 300 234]
         ++ room_headers items [("Room A", 0); ("Room B", 1)]
         ++ [SessBlock 132 0 148 100 (10, 0) (11, 0)
               (Some "Lunch, withsponsors");
             SessBlock 30 150 148 304 (9, 0) (12, 0) (Some "Workshop");
             CloseDiv])%list.
Proof.
  unfold generate_html. cbv zeta.
  assert (Er : build_rooms 0 (feeds Example.pulled) []
               = [("Room A", 0); ("Room B", 1)]) by (vm_compute; reflexivity).
  assert (Ed : collect_days (events Example.pulled) [] = ret [734050])
    by (vm_compute; reflexivity).
  assert (Ef : first_last 734050 (events Example.pulled) None None
               = ret (Some Example.t0900, Some Example.t1100))
    by (vm_compute; reflexivity).
  assert (Es : sessions Example.pulled [("Room A", 0); ("Room B", 1)] 734050
                 (Some Example.t0900) (sorted_events Example.pulled)
               = ret [SessBlock 132 0 148 100 (10, 0) (11, 0)
                        (Some "Lunch, withsponsors");
                      SessBlock 30 150 148 304 (9, 0) (12, 0)
                        (Some "Workshop")])
    by (vm_compute; reflexivity).
  assert (Eh : PrimFloat.add
                 (_timediff_to_y_pixels Example.t1100 Example.t0900)
                 (float_of_Z headersize) = 234%float)
    by (vm_compute; reflexivity).
  rewrite Er, Ed. cbn [bind ret].
  change (Sort.sort Z.compare [734050]) with [734050].
  cbn [render_days]. unfold render_day.
  rewrite Ef. cbn [bind fst snd timediff_opt ret]. rewrite Es, Eh.
  cbn [bind ret]. now rewrite app_nil_r.
Qed.

(** C2 is not what the code does: [lasttime] is the end of the last
    event of the day in the list, not the largest end.  Room A has a
    session from 10:00 to 11:00 and room B one from 09:00 to 12:00;
    the day is written 234 pixels high, the two hours from 09:00 to
    11:00 and the header, and not 336, the three hours from the
    smallest start to the largest end and the header; the block of
    room B ends at 334. *)
Theorem C2_height_from_last_end :
  generate_html items Example.pulled
  = ret ([H2 734050; SchedWrap 300 234]
         ++ room_headers items [("Room A", 0); ("Room B", 1)]
         ++ [SessBlock 132 0 148 100 (10, 0) (11, 0)
               (Some "Lunch, withsponsors");
             SessBlock 30 150 148 304 (9, 0) (12, 0) (Some "Workshop");
             CloseDiv])%list
  /\ Spec.min_start 734050 (events Example.pulled) = Some Example.t0900
  /\ Spec.max_end 734050 (events Example.pulled) = Some Example.t1200
  /\ day_first_start (events Example.pulled) 734050 = Some Example.t0900
  /\ day_last_end (events Example.pulled) 734050 = Some Example.t1100
  /\ PrimFloat.add (_timediff_to_y_pixels Example.t1200 Example.t0900)
       (float_of_Z headersize) = 336%float
  /\ PrimFloat.add (_timediff_to_y_pixels Example.t1100 Example.t0900)
       (float_of_Z headersize) = 234%float.
Proof.
  split; [exact generate_html_pulled |].
  repeat split; vm_compute; reflexivity.
Qed.

(** C4 is not what the code does: [sorted (self.events)] is called
    without [compare_events], so the events are taken in the order of
    their addresses.  With the feed of room A read first its session,
    which starts at 10:00, is the older object, and its block is
    written before the block of the session of room B, which starts
    at 09:00 on the same day. *)
Theorem C4_blocks_in_address_order :
  map Event.start (events Example.pulled)
  = [Some Example.t0900; Some Example.t1000]
  /\ map Event.ident (sorted_events Example.pulled) = [4096; 4160]
  /\ map Event.start (sorted_events Example.pulled)
     = [Some Example.t1000; Some Example.t0900]
  /\ date_of Example.t1000 = date_of Example.t0900
  /\ ~ Example.t1000 <= Example.t0900
  /\ generate_html items Example.pulled
     = ret ([H2 734050; SchedWrap 300 234]
            ++ room_headers items [("Room A", 0); ("Room B", 1)]
            ++ [SessBlock 132 0 148 100 (10, 0) (11, 0)
                  (Some "Lunch, withsponsors");
                SessBlock 30 150 148 304 (9, 0) (12, 0) (Some "Workshop")]
            ++ [CloseDiv])%list.
Proof.
  split; [reflexivity |]. split; [reflexivity |]. split; [reflexivity |].
  split; [reflexivity |].
  split; [unfold Example.t1000, Example.t0900, datetime; lia |].
  exact generate_html_pulled.
Qed.

End LayoutClaims.

Lemma C9_pixel_positions_witness :
  let out :=
    match Aggregator.generate_html (fun d => d) Example.pulled with
    | inr o => o
    | inl _ => []
    end in
  (forall t r : Datetime.datetime,
      r <= t -> Datetime.date_of t = Datetime.date_of r ->
      Aggregator._timediff_to_y_pixels t r
      = PrimFloat.mul (Datetime.float_of_Z ((t - r) / 60))
          Aggregator.px_per_minute)
  /\ Permutation (Aggregator.events Example.pulled)
       (Aggregator.events_by_day Example.pulled (Aggregator.h2_days out))
  /\ Forall2 (Aggregator.block_of Example.pulled)
       (Aggregator.events_by_day Example.pulled (Aggregator.h2_days out))
       (Aggregator.sess_blocks out).
Proof.
  intros out.
  split; [exact (proj1 (C9_pixel_positions (fun d => d))) |].
  apply (proj2 (C9_pixel_positions (fun d => d)) Example.pulled out).
  reflexivity.
Defined.

(** ** Lines of text, written and read *)

Section LineFacts.

Import Str IcalReader.

Lemma no_lf_app (a b : string) : no_lf (a ++ b) = no_lf a && no_lf b.
Proof.
  induction a as [|c a IH]; simpl; [reflexivity |].
  now rewrite IH, andb_assoc.
Qed.

Lemma no_space_app (a b : string) :
  no_space (a ++ b) = no_space a && no_space b.
Proof.
  induction a as [|c a IH]; simpl; [reflexivity |].
  now rewrite IH, andb_assoc.
Qed.

Lemma no_space_no_lf (s : string) : no_space s = true -> no_lf s = true.
Proof.
  induction s as [|c s IH]; simpl; [reflexivity |].
  rewrite !andb_true_iff, !negb_true_iff. intros [Hc Hs].
  split; [| now apply IH].
  destruct (Ascii.eqb_spec c LF) as [-> | _]; [discriminate | reflexivity].
Qed.

Lemma no_space_rstrip (s : string) : no_space s = true -> rstrip s = s.
Proof.
  induction s as [|c s IH]; simpl; [reflexivity |].
  rewrite andb_true_iff, negb_true_iff. intros [Hc Hs].
  now rewrite Hc, IH.
Qed.

Lemma is_empty_app (a b : string) :
  is_empty (a ++ b) = is_empty a && is_empty b.
Proof. destruct a; reflexivity. Qed.

(** The white space [rstrip] removes from two strings in a row. *)
Lemma rstrip_app (x y : string) :
  rstrip (x ++ y)
  = if is_empty (rstrip y) then rstrip x else (x ++ rstrip y)%string.
Proof.
  induction x as [|c x IH].
  - simpl. now destruct (rstrip y).
  - cbn [append rstrip]. rewrite IH.
    destruct (is_empty (rstrip y)) eqn:E; [reflexivity |].
    now rewrite is_empty_app, E, !andb_false_r.
Qed.

(** A line loses its terminator. *)
Lemma rstrip_crlf (l : string) : rstrip (l ++ CRLF) = rstrip l.
Proof. now rewrite rstrip_app. Qed.

(** After a prefix that does not end in white space, [rstrip] works on
    what follows. *)
Lemma rstrip_after (p y : string) :
  rstrip p = p -> p <> "" -> rstrip (p ++ y) = (p ++ rstrip y)%string.
Proof.
  intros Hp Hne. rewrite rstrip_app.
  destruct (is_empty (rstrip y)) eqn:E; [| reflexivity].
  apply is_empty_true in E. now rewrite E, append_empty_r.
Qed.

(** [readlines] cuts after the terminator of a line that holds no
    other line feed. *)
Lemma readlines_line (l rest : string) :
  no_lf l = true ->
  readlines (l ++ CRLF ++ rest) = (l ++ CRLF)%string :: readlines rest.
Proof.
  induction l as [|c l IH]; [reflexivity |].
  cbn [append no_lf readlines].
  rewrite andb_true_iff, negb_true_iff. intros [Hc Hl].
  fold (append l (CRLF ++ rest)). now rewrite Hc, IH.
Qed.

Lemma concat_all_app (a b : list string) :
  concat_all (a ++ b) = (concat_all a ++ concat_all b)%string.
Proof.
  induction a as [|x a IH]; simpl; [reflexivity |].
  now rewrite IH, append_assoc.
Qed.

(** A text made of lines, each with its terminator, is read as these
    lines. *)
Lemma readlines_lines (ls : list string) :
  forallb no_lf ls = true ->
  readlines (concat_all (map (fun l => (l ++ CRLF)%string) ls))
  = map (fun l => (l ++ CRLF)%string) ls.
Proof.
  induction ls as [|l ls IH]; [reflexivity |].
  cbn [forallb map]. rewrite andb_true_iff. intros [Hl Hls].
  change (concat_all ((l ++ CRLF)%string :: ?t))
    with ((l ++ CRLF) ++ concat_all t)%string.
  now rewrite append_assoc, readlines_line, IH.
Qed.

(** The reader of such a text holds the lines without the white space
    at their ends. *)
Lemma init_lines (ls : list string) :
  forallb no_lf ls = true ->
  init (readlines (concat_all (map (fun l => (l ++ CRLF)%string) ls)))
  = map rstrip ls.
Proof.
  intros H. rewrite (readlines_lines ls H). unfold init.
  rewrite map_map. apply map_ext. intros l. apply rstrip_crlf.
Qed.

(** A line that starts with no white space, before a line that is not
    its continuation, is a logical line. *)
Lemma readline_plain (l : string) (rest : IcalReader.t) :
  lstrip l = l -> starts_line rest -> readline (l :: rest) = (Some l, rest).
Proof.
  intros Hl Hrest.
  pose proof (readline_fold l [] rest (Forall_nil _) Hrest) as H.
  unfold concat_all in H. cbn [app map fold_right] in H.
  rewrite append_empty_r, Hl in H. exact H.
Qed.

(** Unescaping, on a text of two characters or more. *)
Lemma replace_escaped_comma_cons (c c' : ascii) (r : string) :
  replace_escaped_comma (String c (String c' r))
  = if Ascii.eqb c "\" && Ascii.eqb c' ","
    then String "," (replace_escaped_comma r)
    else String c (replace_escaped_comma (String c' r)).
Proof. reflexivity. Qed.

(** It leaves a text that is not empty not empty. *)
Lemma replace_escaped_comma_empty (s : string) :
  is_empty (replace_escaped_comma s) = is_empty s.
Proof.
  destruct s as [|c [|c' r]]; [reflexivity | reflexivity |].
  rewrite replace_escaped_comma_cons. now destruct (_ && _).
Qed.

Lemma replace_escaped_comma_length (s : string) :
  (String.length (replace_escaped_comma s) <= String.length s)%nat.
Proof.
  assert (H : forall n s, (String.length s <= n)%nat ->
                (String.length (replace_escaped_comma s)
                 <= String.length s)%nat).
  { clear s. induction n as [|n IH]; intros s Hs.
    - destruct s; [simpl; lia | simpl in Hs; lia].
    - destruct s as [|c [|c' r]]; [simpl; lia | simpl; lia |].
      rewrite replace_escaped_comma_cons.
      cbn [String.length] in Hs.
      destruct (_ && _); cbn [String.length].
      + specialize (IH r ltac:(lia)). lia.
      + specialize (IH (String c' r) ltac:(cbn [String.length]; lia)).
        cbn [String.length] in IH. lia. }
  apply (H (String.length s)). lia.
Qed.

(** It changes a text exactly when the text holds an escaped comma. *)
Lemma replace_escaped_comma_fixed (s : string) :
  replace_escaped_comma s = s <-> has_escaped_comma s = false.
Proof.
  induction s as [|c s IH]; [simpl; tauto |].
  destruct s as [|c' r]; [simpl; tauto |].
  rewrite replace_escaped_comma_cons.
  change (has_escaped_comma (String c (String c' r)))
    with ((Ascii.eqb c "\" && Ascii.eqb c' ",")
          || has_escaped_comma (String c' r)).
  destruct (Ascii.eqb c "\" && Ascii.eqb c' ",") eqn:E.
  - split; [| discriminate]. intros H. exfalso.
    assert (Hlen : String.length (String "," (replace_escaped_comma r))
                   = String.length (String c (String c' r)))
      by now rewrite H.
    cbn [String.length] in Hlen.
    pose proof (replace_escaped_comma_length r). lia.
  - rewrite orb_false_l, <- IH. split; [intros H | intros ->; reflexivity].
    now injection H.
Qed.

End LineFacts.

(** ** What [strftime] prints *)

Section PrintedFacts.

Import Str Datetime.

Lemma digit_char_no_space (n : Z) :
  0 <= n <= 9 -> isspace (digit_char n) = false.
Proof.
  intros H.
  assert (Hc : all_from 10 0 (fun k => negb (isspace (digit_char k))) = true)
    by reflexivity.
  pose proof (all_from_spec _ _ _ Hc n ltac:(lia)) as Hn. cbv beta in Hn.
  now apply negb_true_iff in Hn.
Qed.

Lemma d2_no_space (n : Z) : 0 <= n <= 99 -> no_space (d2 n) = true.
Proof.
  intros H. unfold d2. cbn [no_space].
  rewrite !digit_char_no_space; [reflexivity | |];
    Z.div_mod_to_equations; lia.
Qed.

Lemma d4_no_space (n : Z) : 0 <= n <= 9999 -> no_space (d4 n) = true.
Proof.
  intros H. rewrite d4_split, no_space_app, !d2_no_space; [reflexivity | |];
    Z.div_mod_to_equations; lia.
Qed.

(** [strftime] formats an instant exactly when its year is 1900 or a
    later one. *)
Lemma strftime_returns (t : datetime) :
  (exists s, strftime t = ret s) <-> 1900 <= year_of t.
Proof.
  unfold strftime, year_of, date_of.
  destruct (ord_to_ymd (t / 86400 + 1)) as [[y m] d]. cbn [fst].
  destruct (Z.ltb_spec y 1900) as [Hlt | Hge].
  - split; [intros [s Hs]; discriminate | lia].
  - split; [intros _; exact Hge | intros _; eexists; reflexivity].
Qed.

(** What it prints holds no white space. *)
Lemma strftime_no_space (t : datetime) (s : string) :
  in_range t = true -> strftime t = ret s -> no_space s = true /\ s <> "".
Proof.
  unfold in_range, strftime. cbv zeta.
  rewrite andb_true_iff, Z.leb_le, Z.ltb_lt.
  intros [Ht0 Ht1].
  assert (Hn : 1 <= t / 86400 + 1 <= MAXORDINAL).
  { unfold MAXORDINAL in *. Z.div_mod_to_equations. lia. }
  pose proof (ord_to_ymd_correct (t / 86400 + 1) ltac:(lia)) as Hc.
  pose proof (ord_to_ymd_year_max _ Hn) as Hmax.
  destruct (ord_to_ymd (t / 86400 + 1)) as [[y m] d]. simpl in Hmax.
  destruct Hc as (Hy & Hm & Hd & Ho).
  destruct (y <? 1900); [discriminate |]. intros Hs.
  assert (Es : s = (d4 y ++ d2 m ++ d2 d ++ "T" ++ d2 (t mod 86400 / 3600)
                    ++ d2 (t mod 86400 / 60 mod 60)
                    ++ d2 (t mod 86400 mod 60) ++ "Z")%string)
    by (unfold ret in Hs; congruence).
  clear Hs; subst s.
  assert (Hdim : days_in_month y m <= 31).
  { unfold days_in_month. destruct (_ && _); [lia |].
    apply DAYS_IN_MONTH_max. }
  split.
  - rewrite !no_space_app, d4_no_space, !d2_no_space;
      try reflexivity; try lia; Z.div_mod_to_equations; lia.
  - rewrite d4_split. unfold d2 at 1. discriminate.
Qed.

End PrintedFacts.

(** ** Texts that are clean *)

Section CleanFacts.

Import Str IcalReader Aggregator.

Lemma rstrip_fixed_tail (c : ascii) (r : string) :
  rstrip (String c r) = String c r -> rstrip r = r.
Proof.
  cbn [rstrip]. destruct (isspace c && is_empty (rstrip r));
    [discriminate | intros H; now injection H].
Qed.

Lemma rstrip_fixed_cons (c : ascii) (r : string) :
  rstrip r = r -> r <> "" -> rstrip (String c r) = String c r.
Proof.
  intros H Hne. cbn [rstrip]. rewrite H.
  destruct r; [contradiction |]. cbn [is_empty]. now rewrite andb_false_r.
Qed.

Lemma rstrip_idempotent (l : string) : rstrip (rstrip l) = rstrip l.
Proof.
  induction l as [|c l IH]; [reflexivity |]. cbn [rstrip].
  destruct (isspace c && is_empty (rstrip l)) eqn:E; [reflexivity |].
  cbn [rstrip]. now rewrite IH, E.
Qed.

Lemma no_lf_rstrip (l : string) : no_lf l = true -> no_lf (rstrip l) = true.
Proof.
  destruct (rstrip_spec l) as (ws & Heq & _). intros H.
  rewrite Heq, no_lf_app in H. now apply andb_true_iff in H.
Qed.

Lemma clean_append (a b : string) : clean a -> clean b -> clean (a ++ b).
Proof.
  intros [La Ra] [Lb Rb]. split.
  - now rewrite no_lf_app, La, Lb.
  - rewrite rstrip_app, Rb. destruct (is_empty b) eqn:E; [| reflexivity].
    apply is_empty_true in E. subst b. now rewrite append_empty_r.
Qed.

Lemma clean_lstrip (l : string) : clean l -> clean (lstrip l).
Proof.
  induction l as [|c l IH]; intros [Hl Hr]; [now split |].
  cbn [lstrip]. destruct (isspace c); [| now split].
  apply IH. cbn [no_lf] in Hl. apply andb_true_iff in Hl as [_ Hl].
  split; [exact Hl | exact (rstrip_fixed_tail c l Hr)].
Qed.

Lemma clean_slice_from (n : nat) :
  forall l, clean l -> clean (slice_from n l).
Proof.
  induction n as [|n IH]; intros l Hl; [now destruct l |].
  destruct l as [|c l]; [exact Hl |]. cbn [slice_from]. apply IH.
  destruct Hl as [Hl Hr]. cbn [no_lf] in Hl.
  apply andb_true_iff in Hl as [_ Hl].
  split; [exact Hl | exact (rstrip_fixed_tail c l Hr)].
Qed.

(** Unescaping keeps a text clean. *)
Lemma clean_replace_escaped_comma (s : string) :
  clean s -> clean (replace_escaped_comma s).
Proof.
  assert (H : forall n s, (String.length s <= n)%nat ->
                clean s -> clean (replace_escaped_comma s)).
  { clear s. induction n as [|n IH]; intros s Hn Hs.
    - destruct s; [exact Hs | cbn [String.length] in Hn; lia].
    - destruct s as [|c [|c' r]]; [exact Hs | exact Hs |].
      cbn [String.length] in Hn. destruct Hs as [Hl Hr].
      cbn [no_lf] in Hl. apply andb_true_iff in Hl as [Hc Hl].
      apply andb_true_iff in Hl as [Hc' Hl].
      pose proof (rstrip_fixed_tail _ _ Hr) as Hr'.
      rewrite replace_escaped_comma_cons.
      destruct (Ascii.eqb c "\" && Ascii.eqb c' ",") eqn:E.
      + destruct (IH r ltac:(lia)) as [Hl1 Hr1].
        { split; [exact Hl | exact (rstrip_fixed_tail _ _ Hr')]. }
        split; [cbn [no_lf]; now rewrite Hl1 |].
        cbn [rstrip]. now rewrite Hr1.
      + destruct (IH (String c' r) ltac:(cbn [String.length]; lia))
          as [Hl1 Hr1].
        { split; [cbn [no_lf]; now rewrite Hc', Hl | exact Hr']. }
        split; [cbn [no_lf]; now rewrite Hc, Hl1 |].
        apply rstrip_fixed_cons; [exact Hr1 |].
        intros He.
        pose proof (replace_escaped_comma_empty (String c' r)) as Hemp.
        rewrite He in Hemp. discriminate. }
  apply (H (String.length s)). lia.
Qed.

(** The lines of a text hold a line feed at their end only. *)
Lemma readlines_no_lf (text : string) :
  Forall (fun p => no_lf (rstrip p) = true) (readlines text).
Proof.
  induction text as [|c text IH]; [constructor |].
  cbn [readlines]. destruct (Ascii.eqb c LF) eqn:Ec.
  - constructor; [| exact IH].
    apply Ascii.eqb_eq in Ec. subst c. reflexivity.
  - destruct (readlines text) as [|l ls].
    + constructor; [| constructor]. cbn [rstrip is_empty].
      destruct (isspace c && true); [reflexivity |].
      cbn [no_lf]. now rewrite Ec.
    + inversion IH as [|? ? Hl Hls]; subst. constructor; [| exact Hls].
      cbn [rstrip]. destruct (isspace c && is_empty (rstrip l));
        [reflexivity |].
      cbn [no_lf]. now rewrite Ec, Hl.
Qed.

(** The reader of a text holds clean lines, *)
Lemma init_clean (text : string) : Forall clean (init (readlines text)).
Proof.
  unfold init. apply Forall_map.
  eapply Forall_impl; [| exact (readlines_no_lf text)].
  intros p Hp. split; [exact Hp | apply rstrip_idempotent].
Qed.

(** and gives clean logical lines. *)
Lemma readline_loop_clean (lines : IcalReader.t) :
  forall s,
    clean s -> Forall clean lines ->
    clean (fst (readline_loop s lines))
    /\ Forall clean (snd (readline_loop s lines)).
Proof.
  induction lines as [|l rest IH]; intros s Hs Hall; [now split |].
  inversion Hall as [|? ? Hl Hrest]; subst.
  assert (Hs' : clean (s ++ lstrip l))
    by (apply clean_append; [exact Hs | now apply clean_lstrip]).
  cbn [readline_loop]. destruct rest as [|l' rest']; [now split |].
  destruct (negb (startswith l' " ")); [now split |].
  now apply IH.
Qed.

Lemma readline_clean (r r' : IcalReader.t) (l : option string) :
  Forall clean r -> readline r = (l, r') ->
  (forall s, l = Some s -> clean s) /\ Forall clean r'.
Proof.
  intros Hall. unfold readline. destruct r as [|p r0].
  - intros H. injection H as <- <-. split; [discriminate | constructor].
  - pose proof (readline_loop_clean (p :: r0) "" (conj eq_refl eq_refl) Hall)
      as [H1 H2].
    destruct (readline_loop "" (p :: r0)) as [s rest]. cbn [fst snd] in *.
    intros H. injection H as <- <-. split; [| exact H2].
    intros s' Hs'. injection Hs' as <-. exact H1.
Qed.

End CleanFacts.


(** ** Reading back what [generate_ical] wrote *)

Section ReadBack.

Import Str IcalReader Datetime Aggregator.

Variable alloc : nat -> Z.
Variable self : Aggregator.t.

(** One turn of the loop on a line that leaves it going. *)
Lemma parse_loop_next (fuel : nat) (l : string) (r : IcalReader.t)
    (heap heap' : nat) (cur cur' y : option Event.t) :
  lstrip l = l -> starts_line r ->
  parse_step alloc self heap cur (Some l) = Next cur' y heap' ->
  parse_loop alloc self (S fuel) (l :: r) heap cur
  = let rest := parse_loop alloc self fuel r heap' cur' in
    match y with
    | None => rest
    | Some e => mkRun (e :: yielded rest) (ended rest) (heap_after rest)
    end.
Proof.
  intros Hl Hr Hs. cbn [parse_loop].
  now rewrite (readline_plain l r Hl Hr), Hs.
Qed.

Lemma step_dtstart (heap : nat) (e : Event.t) (v : string) :
  parse_step alloc self heap (Some e) (Some ("DTSTART:" ++ v))
  = match Event.setstart e v with
    | inl x => Raises x
    | inr e' => Next (Some e') None heap
    end.
Proof. destruct v; reflexivity. Qed.

Lemma step_dtend (heap : nat) (e : Event.t) (v : string) :
  parse_step alloc self heap (Some e) (Some ("DTEND:" ++ v))
  = match Event.setend e v with
    | inl x => Raises x
    | inr e' => Next (Some e') None heap
    end.
Proof. destruct v; reflexivity. Qed.

Lemma step_summary (heap : nat) (e : Event.t) (v : string) :
  parse_step alloc self heap (Some e) (Some ("SUMMARY:" ++ v))
  = Next (Some (Event.set_summary e (replace_escaped_comma v))) None heap.
Proof. destruct v; reflexivity. Qed.

Lemma step_location (heap : nat) (cur : option Event.t) (v : string) :
  parse_step alloc self heap cur (Some ("LOCATION:" ++ v))
  = Next cur None heap.
Proof. destruct v; reflexivity. Qed.

(** Parsing what was printed, with no adjustment. *)
Lemma _parse_time_printed (e : Event.t) (t : datetime) (s : string) :
  Event.timezone_adjust e = 0 -> in_range t = true -> strftime t = ret s ->
  Event._parse_time e s = ret t.
Proof.
  intros Ha Ht Hs. unfold Event._parse_time.
  rewrite (strptime_strftime t s Ht Hs). cbn [bind ret]. unfold add_hours.
  now rewrite Ha, Z.mul_0_r, Z.add_0_r, Ht.
Qed.

(** The six lines of one block, read as one event. *)
Lemma parse_block (e : Event.t) (st en : datetime) (d : date)
    (ps pe : string) (rest : IcalReader.t) (fuel heap : nat) :
  timezone_adjust self = 0 ->
  Event.start e = Some st -> Event.end_ e = Some en ->
  in_range st = true -> in_range en = true ->
  strftime st = ret ps -> strftime en = ret pe ->
  local_date (timezone self) st = ret d ->
  local_date (timezone self) en = ret d ->
  is_empty (rstrip (percent_s (Event.summary e))) = false ->
  starts_line rest ->
  parse_loop alloc self (S (S (S (S (S (S fuel))))))
    ("BEGIN:VEVENT"
     :: ("DTSTART:" ++ ps)%string
     :: ("DTEND:" ++ pe)%string
     :: ("SUMMARY:" ++ rstrip (percent_s (Event.summary e)))%string
     :: ("LOCATION:" ++ rstrip (or_empty (Event.location e)))%string
     :: "END:VEVENT" :: rest) heap None
  = let r := parse_loop alloc self fuel rest (S heap) None in
    mkRun (read_back self (alloc heap) e :: yielded r) (ended r)
      (heap_after r).
Proof.
  intros Ha Hst Hen Rst Ren Pst Pen Hds Hde Hsum Hrest.
  set (e0 := Event.__init__ (alloc heap) (timezone self)
               (timezone_adjust self)).
  assert (Ea : Event.timezone_adjust e0 = 0) by exact Ha.
  rewrite (parse_loop_next _ "BEGIN:VEVENT" _ heap (S heap) None (Some e0)
             None); [| reflexivity | reflexivity | reflexivity].
  cbv zeta.
  rewrite (parse_loop_next _ ("DTSTART:" ++ ps) _ (S heap) (S heap)
             (Some e0) (Some (Event.set_start e0 st)) None);
    [| reflexivity | reflexivity |].
  2:{ rewrite step_dtstart. unfold Event.setstart.
      now rewrite (_parse_time_printed e0 st ps Ea Rst Pst). }
  cbv zeta.
  rewrite (parse_loop_next _ ("DTEND:" ++ pe) _ (S heap) (S heap)
             (Some (Event.set_start e0 st))
             (Some (Event.set_end (Event.set_start e0 st) en)) None);
    [| reflexivity | reflexivity |].
  2:{ rewrite step_dtend. unfold Event.setend.
      now rewrite (_parse_time_printed (Event.set_start e0 st) en pe Ha Ren
                     Pen). }
  cbv zeta.
  erewrite (parse_loop_next _ ("SUMMARY:" ++ _) _ (S heap) (S heap) _ _ None);
    [| reflexivity | reflexivity | apply step_summary].
  cbv zeta.
  erewrite (parse_loop_next _ ("LOCATION:" ++ _) _ (S heap) (S heap) _ _ None);
    [| reflexivity | reflexivity | apply step_location].
  cbv zeta.
  rewrite (parse_loop_next _ "END:VEVENT" _ (S heap) (S heap) _ None
             (Some (read_back self (alloc heap) e)));
    [reflexivity | reflexivity | exact Hrest |].
  unfold read_back. rewrite Hst, Hen.
  cbn [parse_step truthy is_empty negb String.eqb Ascii.eqb Bool.eqb].
  unfold Event.validate.
  cbn [Event.summary Event.start Event.end_ Event.timezone Event.set_summary
       Event.set_end Event.set_start e0 Event.__init__ truthy].
  rewrite replace_escaped_comma_empty, Hsum, Hds, Hde.
  cbn [negb bind ret]. rewrite Z.eqb_refl.
  reflexivity.
Qed.

Lemma run_eta (r : run) : mkRun (yielded r) (ended r) (heap_after r) = r.
Proof. now destruct r. Qed.

(** The writes for the events are lines, and the reader of these lines
    gives the events back. *)
Lemma ical_events_read_back (evs : list Event.t) :
  timezone_adjust self = 0 ->
  forallb (reads_back self) evs = true ->
  exists lines,
    ical_events evs = ret (map (fun l => (l ++ CRLF)%string) lines)
    /\ forallb no_lf lines = true
    /\ List.length lines = (6 * List.length evs)%nat
    /\ forall rest,
         starts_line rest ->
         starts_line (map rstrip lines ++ rest)%list
         /\ forall fuel heap,
              parse_loop alloc self (6 * List.length evs + fuel)
                (map rstrip lines ++ rest)%list heap None
              = let r := parse_loop alloc self fuel rest
                           (heap + List.length evs) None in
                mkRun (read_back_all alloc self heap evs ++ yielded r)%list
                  (ended r) (heap_after r).
Proof.
  intros Ha. induction evs as [|e evs IH]; intros Hall.
  - exists []. repeat split; try assumption.
    intros fuel heap. cbn [List.length Nat.mul Nat.add map app read_back_all].
    rewrite Nat.add_0_r. cbv zeta. now rewrite run_eta.
  - cbn [forallb] in Hall. apply andb_true_iff in Hall as [He Hall].
    destruct (IH Hall) as (lines & Hw & Hlf & Hlen & Hparse). clear IH.
    unfold reads_back in He.
    destruct (Event.start e) as [st|] eqn:Hst; [| discriminate].
    destruct (Event.end_ e) as [en|] eqn:Hen; [| discriminate].
    rewrite !andb_true_iff, !Z.leb_le, negb_true_iff in He.
    destruct He as (((((((Rst & Ren) & Yst) & Yen) & Hday) & Lsum) & Hsum)
                    & Lloc).
    destruct (local_date (timezone self) st) as [x | ds] eqn:Hds;
      [discriminate |].
    destruct (local_date (timezone self) en) as [x | de] eqn:Hde;
      [discriminate |].
    apply Z.eqb_eq in Hday. subst de.
    destruct (proj2 (strftime_returns st) Yst) as [ps Pst].
    destruct (proj2 (strftime_returns en) Yen) as [pe Pen].
    destruct (strftime_no_space st ps Rst Pst) as [Nst Est].
    destruct (strftime_no_space en pe Ren Pen) as [Nen Een].
    exists ("BEGIN:VEVENT"
            :: ("DTSTART:" ++ ps)%string
            :: ("DTEND:" ++ pe)%string
            :: ("SUMMARY:" ++ percent_s (Event.summary e))%string
            :: ("LOCATION:" ++ or_empty (Event.location e))%string
            :: "END:VEVENT" :: lines).
    split; [| split; [| split]].
    + cbn [ical_events]. unfold ical_event, Event.getstart, Event.getend,
        Event._print_time.
      rewrite Hst, Hen, Pst, Pen, Hw. reflexivity.
    + cbn [forallb]. rewrite Hlf, andb_true_r.
      change (no_lf ps && (no_lf pe
                && (no_lf (percent_s (Event.summary e))
                    && no_lf (or_empty (Event.location e)))) = true).
      now rewrite (no_space_no_lf ps Nst), (no_space_no_lf pe Nen), Lsum, Lloc.
    + cbn [List.length]. lia.
    + intros rest Hrest. destruct (Hparse rest Hrest) as [Hstart Hloop].
      split; [reflexivity |].
      intros fuel heap. cbn [map app].
      replace (rstrip "BEGIN:VEVENT") with "BEGIN:VEVENT" by reflexivity.
      replace (rstrip "END:VEVENT") with "END:VEVENT" by reflexivity.
      rewrite (rstrip_after "DTSTART:" ps eq_refl ltac:(discriminate)).
      rewrite (rstrip_after "DTEND:" pe eq_refl ltac:(discriminate)).
      rewrite (rstrip_after "SUMMARY:" _ eq_refl ltac:(discriminate)).
      rewrite (rstrip_after "LOCATION:" _ eq_refl ltac:(discriminate)).
      rewrite (no_space_rstrip ps Nst), (no_space_rstrip pe Nen).
      replace (6 * List.length (e :: evs) + fuel)%nat
        with (S (S (S (S (S (S (6 * List.length evs + fuel)))))))
        by (cbn [List.length]; lia).
      rewrite (parse_block e st en ds ps pe _ _ heap Ha Hst Hen Rst Ren Pst
                 Pen Hds Hde Hsum Hstart).
      cbv zeta. rewrite Hloop. cbv zeta. cbn [yielded ended heap_after].
      replace (S heap + List.length evs)%nat
        with (heap + List.length (e :: evs))%nat by (cbn [List.length]; lia).
      reflexivity.
Qed.

(** The text [generate_ical] wrote, read by the parser. *)
Lemma generate_ical_read_back (heap : nat) :
  timezone_adjust self = 0 ->
  forallb (reads_back self) (events self) = true ->
  exists text,
    generate_ical self = ret text
    /\ _parse_ical alloc self (readlines text) heap
       = mkRun (read_back_all alloc self heap (events self)) Returned
           (heap + List.length (events self)).
Proof.
  intros Ha Hall.
  destruct (ical_events_read_back (events self) Ha Hall)
    as (lines & Hw & Hlf & Hlen & Hparse).
  destruct (Hparse ["END:VCALENDAR"] eq_refl) as [Hstart Hloop].
  unfold generate_ical. rewrite Hw. cbn [bind ret].
  eexists. split; [reflexivity |].
  set (f := fun l : string => (l ++ CRLF)%string).
  set (all := "BEGIN:VCALENDAR" :: "VERSION:2.0"
              :: "PRODID:-//hagander/icalaggregator//NONSGML v1.0//EN"
              :: (lines ++ ["END:VCALENDAR"])%list).
  assert (Et : concat_all (ical_header :: map f lines ++ [ical_footer])%list
               = concat_all (map f all)).
  { unfold all. cbn [map]. rewrite map_app. reflexivity. }
  rewrite Et. unfold _parse_ical. cbv zeta. subst f.
  assert (Hall_lf : forallb no_lf all = true).
  { unfold all. cbn [forallb]. rewrite forallb_app, Hlf. reflexivity. }
  rewrite (init_lines all Hall_lf). unfold all. cbn [map].
  rewrite map_app. cbn [map].
  change (rstrip "BEGIN:VCALENDAR") with "BEGIN:VCALENDAR".
  replace (rstrip "VERSION:2.0") with "VERSION:2.0" by reflexivity.
  replace (rstrip "PRODID:-//hagander/icalaggregator//NONSGML v1.0//EN")
    with "PRODID:-//hagander/icalaggregator//NONSGML v1.0//EN"
    by reflexivity.
  replace (rstrip "END:VCALENDAR") with "END:VCALENDAR" by reflexivity.
  cbn [List.length]. rewrite length_app, length_map, Hlen.
  cbn [List.length].
  replace (S (S (S (S (6 * List.length (events self) + 1)))))
    with (S (S (S (6 * List.length (events self) + 2))))%nat by lia.
  rewrite (parse_loop_next _ "BEGIN:VCALENDAR" _ heap heap None
             None None); [| reflexivity | reflexivity | reflexivity].
  cbv zeta.
  rewrite (parse_loop_next _ "VERSION:2.0" _ heap heap None
             None None); [| reflexivity | reflexivity | reflexivity].
  cbv zeta.
  rewrite (parse_loop_next _
             "PRODID:-//hagander/icalaggregator//NONSGML v1.0//EN" _
             heap heap None None None);
    [| reflexivity | exact Hstart | reflexivity].
  cbv zeta. rewrite Hloop. cbv zeta.
  change (parse_loop alloc self 2 ["END:VCALENDAR"]
            (heap + List.length (events self)) None)
    with (mkRun [] Returned (heap + List.length (events self))).
  cbn [yielded ended heap_after]. now rewrite app_nil_r.
Qed.

(** What the events read back keep of the events written. *)
Lemma read_back_all_fields (evs : list Event.t) :
  forall heap,
    map Event.start (read_back_all alloc self heap evs) = map Event.start evs
    /\ map Event.end_ (read_back_all alloc self heap evs)
       = map Event.end_ evs
    /\ map Event.summary (read_back_all alloc self heap evs)
       = map (fun e =>
                Some (replace_escaped_comma
                        (rstrip (percent_s (Event.summary e))))) evs.
Proof.
  induction evs as [|e evs IH]; intros heap; [now repeat split |].
  destruct (IH (S heap)) as (H1 & H2 & H3).
  cbn [read_back_all map read_back Event.start Event.end_ Event.summary].
  now rewrite H1, H2, H3.
Qed.

End ReadBack.

(** ** When [generate_ical] returns *)

Section IcalWrites.

Import Str Datetime Aggregator.

(** The block of an event is written when both instants can be
    printed; a missing one raises [AttributeError], a year before
    1900 [ValueError]. *)
Lemma ical_event_result (e : Event.t) :
  match ical_event e with
  | inr _ => printable e = true
  | inl x => printable e = false /\ (x = AttributeError \/ x = ValueError)
  end.
Proof.
  unfold ical_event, printable, Event.getstart, Event.getend,
    Event._print_time, year_of, strftime, date_of.
  destruct (Event.start e) as [st|]; [| split; [reflexivity | now left]].
  destruct (ord_to_ymd (st / 86400 + 1)) as [[y m] d]. cbn [fst].
  destruct (Event.end_ e) as [en|].
  - destruct (ord_to_ymd (en / 86400 + 1)) as [[y' m'] d']. cbn [fst].
    destruct (Z.ltb_spec y 1900) as [Hy | Hy]; cbn [bind raise ret].
    + split; [| now right].
      apply andb_false_iff. left. now apply Z.leb_gt.
    + destruct (Z.ltb_spec y' 1900) as [Hy' | Hy']; cbn [bind raise ret].
      * split; [| now right].
        apply andb_false_iff. right. now apply Z.leb_gt.
      * apply andb_true_iff. split; now apply Z.leb_le.
  - destruct (y <? 1900); cbn [bind raise ret];
      (split; [reflexivity | tauto]).
Qed.

Lemma ical_events_result (evs : list Event.t) :
  match ical_events evs with
  | inr _ => forallb printable evs = true
  | inl x =>
      forallb printable evs = false
      /\ (x = AttributeError \/ x = ValueError)
  end.
Proof.
  induction evs as [|e evs IH]; [reflexivity |].
  cbn [ical_events forallb]. pose proof (ical_event_result e) as He.
  destruct (ical_event e) as [x | w]; cbn [bind].
  - destruct He as [-> Hx]. now split.
  - rewrite He. destruct (ical_events evs) as [x | ws]; cbn [bind ret].
    + destruct IH as [-> Hx]. now split.
    + exact IH.
Qed.

End IcalWrites.


(** ** The events [pull_all] gathers *)

Section Gathering.

Import Str IcalReader Datetime Aggregator.

Variable alloc : nat -> Z.
Variable urlopen : string -> pyres string.
Variable self : Aggregator.t.

(** The parser yields an event only after [validate] accepted it. *)
Lemma parse_step_yields (heap heap' : nat) (cur cur' : option Event.t)
    (l : option string) (e : Event.t) :
  parse_step alloc self heap cur l = Next cur' (Some e) heap' ->
  Event.validate e = ret tt.
Proof.
  unfold parse_step.
  destruct (negb (truthy l)); [discriminate |].
  destruct (String.eqb _ "END:VCALENDAR"); [discriminate |].
  destruct (String.eqb _ "BEGIN:VEVENT"); [destruct cur; discriminate |].
  destruct (String.eqb _ "END:VEVENT").
  - destruct cur as [e0|]; [| discriminate].
    destruct (Event.validate e0) as [x | []] eqn:Hv; [discriminate |].
    intros H. injection H as _ <- _. exact Hv.
  - destruct (startswith _ "DTSTART:").
    { destruct cur as [e0|]; [| discriminate].
      destruct (Event.setstart e0 _); discriminate. }
    destruct (startswith _ "DTEND:").
    { destruct cur as [e0|]; [| discriminate].
      destruct (Event.setend e0 _); discriminate. }
    destruct (startswith _ "SUMMARY:"); [destruct cur |]; discriminate.
Qed.

Lemma parse_loop_yields (fuel : nat) :
  forall r heap cur,
    Forall (fun e => Event.validate e = ret tt)
      (yielded (parse_loop alloc self fuel r heap cur)).
Proof.
  induction fuel as [|fuel IH]; intros r heap cur; cbn [parse_loop].
  - constructor.
  - destruct (readline r) as [l r'].
    destruct (parse_step alloc self heap cur l) as [cur' y heap' | | x]
      eqn:Hs; try constructor.
    destruct y as [e|]; cbn [yielded]; [| apply IH].
    constructor; [exact (parse_step_yields _ _ _ _ _ _ Hs) | apply IH].
Qed.

(** The room given to an event plays no part in [validate]. *)
Lemma validate_set_location (e : Event.t) (feed : string) :
  Event.validate (Event.set_location e feed) = Event.validate e.
Proof. reflexivity. Qed.

Lemma pull_feeds_gathered (fs : list (string * string)) :
  forall evs heap,
    incl fs (feeds self) ->
    Forall (gathered self) evs ->
    Forall (gathered self) (yielded (pull_feeds alloc urlopen self fs evs heap)).
Proof.
  induction fs as [|[feed url] fs IH]; intros evs heap Hin Hevs;
    cbn [pull_feeds]; [exact Hevs |].
  destruct (urlopen url) as [x | text]; [exact Hevs |].
  set (r := _parse_ical alloc self (readlines text) heap).
  assert (Hnew : Forall (gathered self)
                   (evs ++ map (fun e => Event.set_location e feed)
                             (yielded r))%list).
  { apply Forall_app. split; [exact Hevs |].
    apply Forall_map.
    eapply Forall_impl; [| exact (parse_loop_yields _ _ _ _)].
    intros e He. split; [exact He |].
    exists (feed, url). split; [apply Hin; now left | reflexivity]. }
  destruct (ended r); cbn [yielded]; try exact Hnew.
  apply IH; [| exact Hnew].
  intros f Hf. apply Hin. now right.
Qed.

Lemma pull_all_gathered (heap : nat) :
  Forall (gathered self) (events self) ->
  Forall (gathered self) (events (fst (pull_all alloc urlopen self heap))).
Proof.
  intros H0.
  pose proof (pull_feeds_gathered (feeds self) (events self) heap
                (incl_refl _) H0) as H.
  unfold pull_all.
  destruct (ended (pull_feeds alloc urlopen self (feeds self) (events self)
                     heap)); cbn [fst events set_events]; try exact H.
  destruct (sort_events _) as [x | sorted] eqn:Hs;
    cbn [fst events set_events]; [exact H |].
  apply sort_events_spec in Hs as [Hp _].
  exact (Permutation_Forall Hp H).
Qed.

(** The feeds are read one after the other, and the first that fails
    ends the loop. *)
Lemma pull_feeds_app (fs1 fs2 : list (string * string)) :
  forall evs heap,
    pull_feeds alloc urlopen self (fs1 ++ fs2) evs heap
    = let r1 := pull_feeds alloc urlopen self fs1 evs heap in
      match ended r1 with
      | Returned =>
          pull_feeds alloc urlopen self fs2 (yielded r1) (heap_after r1)
      | _ => r1
      end.
Proof.
  induction fs1 as [|[feed url] fs1 IH]; intros evs heap;
    cbn [app pull_feeds]; [reflexivity |].
  destruct (urlopen url) as [x | text]; [reflexivity |].
  destruct (ended (_parse_ical alloc self (readlines text) heap));
    [apply IH | reflexivity | reflexivity].
Qed.

(** *** What the parser keeps of the events it works on *)

Lemma _parse_time_in_range (e : Event.t) (v : string) (t : datetime) :
  Event._parse_time e v = ret t -> in_range t = true.
Proof.
  unfold Event._parse_time. destruct (strptime v) as [x | t0];
    [discriminate |].
  cbn [bind]. unfold add_hours.
  destruct (in_range (t0 + 3600 * Event.timezone_adjust e)) eqn:E;
    [| discriminate].
  intros H. unfold ret in H. injection H as <-. exact E.
Qed.

Lemma well_read_set_start (e : Event.t) (t : datetime) :
  well_read self e -> in_range t = true ->
  well_read self (Event.set_start e t).
Proof.
  intros (Hz & _ & He & Hs) Ht. repeat split; try assumption.
  - intros v Hv. cbn [Event.set_start Event.start] in Hv.
    now injection Hv as <-.
  - apply (Hs s H).
  - apply (Hs s H).
Qed.

Lemma well_read_set_end (e : Event.t) (t : datetime) :
  well_read self e -> in_range t = true ->
  well_read self (Event.set_end e t).
Proof.
  intros (Hz & Hst & _ & Hs) Ht. repeat split; try assumption.
  - intros v Hv. cbn [Event.set_end Event.end_] in Hv.
    now injection Hv as <-.
  - apply (Hs s H).
  - apply (Hs s H).
Qed.

Lemma well_read_set_summary (e : Event.t) (v : string) :
  well_read self e -> clean v ->
  well_read self (Event.set_summary e v).
Proof.
  intros (Hz & Hst & He & _) Hv. repeat split; try assumption.
  - cbn [Event.set_summary Event.summary] in H. injection H as <-.
    apply Hv.
  - cbn [Event.set_summary Event.summary] in H. injection H as <-.
    apply Hv.
Qed.

Lemma parse_step_well_read (heap heap' : nat) (cur cur' y : option Event.t)
    (l : string) :
  clean l ->
  (forall e, cur = Some e -> well_read self e) ->
  parse_step alloc self heap cur (Some l) = Next cur' y heap' ->
  (forall e, cur' = Some e -> well_read self e)
  /\ (forall e, y = Some e -> well_read self e).
Proof.
  intros Hl Hcur. unfold parse_step. cbn [truthy].
  destruct (negb (negb (is_empty l))); [discriminate |].
  destruct (String.eqb l "END:VCALENDAR"); [discriminate |].
  destruct (String.eqb l "BEGIN:VEVENT").
  { destruct cur; [discriminate |]. intros H. injection H as <- <- _.
    split; [| discriminate]. intros e He. injection He as <-.
    repeat split; discriminate. }
  destruct (String.eqb l "END:VEVENT").
  { destruct cur as [e0|]; [| discriminate].
    destruct (Event.validate e0); [discriminate |].
    intros H. injection H as <- <- _. split; [discriminate |].
    intros e He. apply Hcur. exact He. }
  destruct (startswith l "DTSTART:").
  { destruct cur as [e0|]; [| discriminate]. unfold Event.setstart.
    destruct (Event._parse_time e0 (slice_from 8 l)) as [x | t] eqn:Ht;
      [discriminate |].
    cbn [bind ret]. intros H. injection H as <- <- _.
    split; [| discriminate]. intros e He. injection He as <-.
    apply well_read_set_start; [now apply Hcur |].
    exact (_parse_time_in_range _ _ _ Ht). }
  destruct (startswith l "DTEND:").
  { destruct cur as [e0|]; [| discriminate]. unfold Event.setend.
    destruct (Event._parse_time e0 (slice_from 6 l)) as [x | t] eqn:Ht;
      [discriminate |].
    cbn [bind ret]. intros H. injection H as <- <- _.
    split; [| discriminate]. intros e He. injection He as <-.
    apply well_read_set_end; [now apply Hcur |].
    exact (_parse_time_in_range _ _ _ Ht). }
  destruct (startswith l "SUMMARY:").
  { destruct cur as [e0|]; [| discriminate].
    intros H. injection H as <- <- _.
    split; [| discriminate]. intros e He. injection He as <-.
    apply well_read_set_summary; [now apply Hcur |].
    apply clean_replace_escaped_comma. exact (clean_slice_from 8 l Hl). }
  intros H. injection H as <- <- _. split; [exact Hcur | discriminate].
Qed.

Lemma parse_loop_well_read (fuel : nat) :
  forall r heap cur,
    Forall clean r ->
    (forall e, cur = Some e -> well_read self e) ->
    Forall (well_read self) (yielded (parse_loop alloc self fuel r heap cur)).
Proof.
  induction fuel as [|fuel IH]; intros r heap cur Hr Hcur; cbn [parse_loop].
  - constructor.
  - destruct (readline r) as [l r'] eqn:Er.
    destruct (readline_clean r r' l Hr Er) as [Hl Hr'].
    destruct (parse_step alloc self heap cur l) as [cur' y heap' | | x]
      eqn:Hs; try constructor.
    destruct l as [l|]; [| unfold parse_step in Hs; discriminate].
    destruct (parse_step_well_read _ _ _ _ _ _ (Hl l eq_refl) Hcur Hs)
      as [Hcur' Hy].
    destruct y as [e|]; cbn [yielded]; [| now apply IH].
    constructor; [now apply Hy | now apply IH].
Qed.

Lemma pull_feeds_well_read (fs : list (string * string)) :
  forall evs heap,
    Forall (well_read self) evs ->
    Forall (well_read self)
      (yielded (pull_feeds alloc urlopen self fs evs heap)).
Proof.
  induction fs as [|[feed url] fs IH]; intros evs heap Hevs;
    cbn [pull_feeds]; [exact Hevs |].
  destruct (urlopen url) as [x | text]; [exact Hevs |].
  set (r := _parse_ical alloc self (readlines text) heap).
  assert (Hnew : Forall (well_read self)
                   (evs ++ map (fun e => Event.set_location e feed)
                             (yielded r))%list).
  { apply Forall_app. split; [exact Hevs |].
    apply Forall_map.
    assert (Hnone : forall e, @None Event.t = Some e -> well_read self e)
      by discriminate.
    eapply Forall_impl;
      [| exact (parse_loop_well_read _ _ heap None (init_clean text) Hnone)].
    intros e He. exact He. }
  destruct (ended r); cbn [yielded]; try exact Hnew.
  now apply IH.
Qed.

Lemma pull_all_well_read (heap : nat) :
  Forall (well_read self) (events self) ->
  Forall (well_read self) (events (fst (pull_all alloc urlopen self heap))).
Proof.
  intros H0.
  pose proof (pull_feeds_well_read (feeds self) (events self) heap H0) as H.
  unfold pull_all.
  destruct (ended (pull_feeds alloc urlopen self (feeds self) (events self)
                     heap)); cbn [fst events set_events]; try exact H.
  destruct (sort_events _) as [x | sorted] eqn:Hs;
    cbn [fst events set_events]; [exact H |].
  apply sort_events_spec in Hs as [Hp _].
  exact (Permutation_Forall Hp H).
Qed.

(** [pull_all] changes nothing but the events. *)
Lemma pull_all_config (heap : nat) :
  set_events self (events (fst (pull_all alloc urlopen self heap)))
  = fst (pull_all alloc urlopen self heap).
Proof.
  unfold pull_all.
  destruct (ended (pull_feeds alloc urlopen self (feeds self) (events self)
                     heap)); try reflexivity.
  now destruct (sort_events _).
Qed.

(** An event gathered and well read is one that the aggregate feed
    gives back, when its instants can be printed and the name of no
    feed holds a line feed. *)
Lemma gathered_reads_back (e : Event.t) :
  forallb (fun f => no_lf (fst f)) (feeds self) = true ->
  gathered self e -> well_read self e -> printable e = true ->
  reads_back self e = true
  /\ exists s, Event.summary e = Some s /\ rstrip s = s.
Proof.
  intros Hnames [Hv (f & Hf & Hloc)] (Hz & Hst & Hen & Hsum) Hp.
  unfold Event.validate in Hv. unfold reads_back, printable in *.
  destruct (Event.summary e) as [s|] eqn:Es; [| discriminate].
  cbn [truthy] in Hv.
  destruct (is_empty s) eqn:Hs; [discriminate |]. cbn [negb] in Hv.
  destruct (Event.start e) as [st|]; [| discriminate].
  destruct (Event.end_ e) as [en|]; [| discriminate].
  rewrite Hz in Hv.
  destruct (local_date (timezone self) st) as [x | ds]; [discriminate |].
  destruct (local_date (timezone self) en) as [x | de]; [discriminate |].
  cbn [bind] in Hv.
  destruct (ds =? de) eqn:Hd; [| discriminate].
  destruct (Hsum s eq_refl) as [Ls Rs].
  apply andb_true_iff in Hp as [Y1 Y2].
  rewrite (Hst st eq_refl), (Hen en eq_refl), Y1, Y2, Hloc.
  cbn [percent_s or_empty andb]. rewrite Ls, Rs, Hs.
  rewrite forallb_forall in Hnames. rewrite (Hnames f Hf).
  split; [reflexivity | now exists s].
Qed.

End Gathering.


(** ** When [generate_html] returns *)

Section HtmlReturns.

Import Datetime Aggregator.

(** An event that passed [validate] has its two instants. *)
Lemma validate_fields (e : Event.t) :
  Event.validate e = ret tt ->
  exists st en, Event.start e = Some st /\ Event.end_ e = Some en.
Proof.
  unfold Event.validate. destruct (negb _); [discriminate |].
  destruct (Event.start e) as [st|]; [| discriminate].
  destruct (Event.end_ e) as [en|]; [| discriminate].
  intros _. now exists st, en.
Qed.

(** The position of a name after [i] feeds is known when the name is
    among the feeds left or was known before. *)
Lemma last_index_some (name : string) (fs : list (string * string)) :
  forall i acc,
    In name (map fst fs) \/ acc <> None ->
    last_index name fs i acc <> None.
Proof.
  induction fs as [|f fs IH]; intros i acc H; cbn [last_index].
  - destruct H as [[] | H]; exact H.
  - apply IH. destruct H as [[H | H] | H].
    + right. rewrite H, String.eqb_refl. discriminate.
    + now left.
    + right. now destruct (String.eqb (fst f) name).
Qed.

(** An event in the room of a feed has a column. *)
Lemma room_of_gathered (self : Aggregator.t) (e : Event.t) :
  gathered self e ->
  exists i, room_of (build_rooms 0 (feeds self) []) (Event.location e) = ret i.
Proof.
  intros [_ (f & Hf & Hloc)]. unfold room_of. rewrite Hloc.
  rewrite dict_get_build_rooms.
  pose proof (last_index_some (fst f) (feeds self) 0 (dict_get [] (fst f))
                (or_introl (in_map fst _ _ Hf))) as H.
  destruct (last_index _ _ _ _) as [i|]; [now exists i | contradiction].
Qed.

(** The scan of a day finds a first and a last time when an event of
    the list starts on the day. *)
Lemma first_last_returns (day : date) (evs : list Event.t) :
  Forall (fun e => Event.start e <> None /\ Event.end_ e <> None) evs ->
  forall ft0 lt0,
    exists ft lt,
      first_last day evs ft0 lt0 = ret (ft, lt)
      /\ ((ft0 <> None /\ lt0 <> None)
          \/ existsb (Event.on_day day) evs = true ->
          ft <> None /\ lt <> None).
Proof.
  induction 1 as [|e evs [Hs He] Hevs IH]; intros ft0 lt0;
    cbn [first_last existsb].
  - exists ft0, lt0. split; [reflexivity |].
    intros [H | H]; [exact H | discriminate].
  - destruct (Event.start e) as [st|] eqn:Es; [| contradiction].
    unfold Event.on_day at 1. rewrite Es.
    destruct (date_of st =? day); cbn [negb orb].
    + destruct (IH (match ft0 with Some _ => ft0 | None => Some st end)
                  (Event.end_ e)) as (ft & lt & Hr & Hsome).
      exists ft, lt. split; [exact Hr |]. intros _. apply Hsome. left.
      split; [destruct ft0; discriminate | exact He].
    + apply IH.
Qed.

(** A session block is written when the display time zone places
    start and end within the years 1900 to 9999.  A local time outside
    the years 1 to 9999 makes [astimezone] overflow, one before 1900
    is refused by [strftime]. *)
Lemma session_block_result (self : Aggregator.t) (rooms : list (string * Z))
    (fs : datetime) (e : Event.t) (st : datetime) :
  Event.start e = Some st -> Event.end_ e <> None ->
  (exists i, room_of rooms (Event.location e) = ret i) ->
  match session_block self rooms (Some fs) e st with
  | inl x =>
      local_after_1900 self e = false
      /\ (x = ValueError \/ (x = OverflowError /\ projects self e = false))
  | inr _ => local_after_1900 self e = true
  end.
Proof.
  intros Es He [i Hi].
  unfold session_block, local_after_1900, projects, local_year_ok.
  rewrite Es, Hi. destruct (Event.end_ e) as [en|]; [| contradiction].
  cbn [timediff_opt bind ret]. unfold local_hm, astimezone. cbv zeta.
  destruct (in_range (st + timezone self st)); cbn [bind raise ret andb].
  2:{ split; [reflexivity | right; now split]. }
  destruct (Z.ltb_spec (year_of (st + timezone self st)) 1900) as [H1 | H1];
    cbn [bind raise ret].
  { split; [| now left]. apply andb_false_iff. left. now apply Z.leb_gt. }
  destruct (in_range (en + timezone self en)); cbn [bind raise ret].
  2:{ split; [apply andb_false_r | right; now split]. }
  destruct (Z.ltb_spec (year_of (en + timezone self en)) 1900) as [H2 | H2];
    cbn [bind raise ret].
  - split; [| now left]. apply andb_false_iff. right. now apply Z.leb_gt.
  - apply andb_true_iff. split; now apply Z.leb_le.
Qed.

Lemma sessions_result (self : Aggregator.t) (rooms : list (string * Z))
    (day : date) (fs : datetime) (evs : list Event.t) :
  Forall (fun e => (Event.start e <> None /\ Event.end_ e <> None)
                   /\ exists i, room_of rooms (Event.location e) = ret i)
    evs ->
  match sessions self rooms day (Some fs) evs with
  | inl x =>
      forallb (local_after_1900 self) evs = false
      /\ (x = ValueError
          \/ (x = OverflowError /\ forallb (projects self) evs = false))
  | inr _ => True
  end.
Proof.
  induction 1 as [|e evs [[Hs He] Hroom] Hevs IH]; cbn [sessions forallb];
    [exact I |].
  assert (Hrest : forall x,
             forallb (local_after_1900 self) evs = false
             /\ (x = ValueError
                 \/ (x = OverflowError
                     /\ forallb (projects self) evs = false)) ->
             local_after_1900 self e && forallb (local_after_1900 self) evs
             = false
             /\ (x = ValueError
                 \/ (x = OverflowError
                     /\ projects self e && forallb (projects self) evs
                        = false))).
  { intros x [H1 H2]. rewrite H1, andb_false_r. split; [reflexivity |].
    destruct H2 as [H2 | [H2 H3]]; [now left | right].
    now rewrite H3, andb_false_r. }
  destruct (Event.start e) as [st|] eqn:Es; [| contradiction].
  destruct (negb (date_of st =? day)).
  - destruct (sessions self rooms day (Some fs) evs); [| exact I].
    now apply Hrest.
  - pose proof (session_block_result self rooms fs e st Es He Hroom) as Hb.
    destruct (session_block self rooms (Some fs) e st) as [x | b];
      cbn [bind].
    + destruct Hb as [-> Hx]. split; [reflexivity |].
      destruct Hx as [Hx | [Hx ->]]; [now left | right; now split].
    + destruct (sessions self rooms day (Some fs) evs); cbn [bind ret];
        [| exact I].
      now apply Hrest.
Qed.

Lemma forallb_perm {A : Type} (f : A -> bool) (l l' : list A) :
  Permutation l l' -> forallb f l = forallb f l'.
Proof.
  induction 1 as [| x l l' _ IH | x y l | l l' l'' _ IH1 _ IH2];
    cbn [forallb].
  - reflexivity.
  - now rewrite IH.
  - now rewrite !andb_assoc, (andb_comm (f y)).
  - now rewrite IH1.
Qed.

Section OneAggregator.

(** The order in which the dictionary of the rooms gives its items. *)
Variable items : list (string * Z) -> list (string * Z).

Variable self : Aggregator.t.

Hypothesis Hall : Forall (gathered self) (events self).

Lemma gathered_fields :
  Forall (fun e => Event.start e <> None /\ Event.end_ e <> None)
    (events self).
Proof.
  eapply Forall_impl; [| exact Hall].
  intros e [Hv _]. destruct (validate_fields e Hv) as (st & en & -> & ->).
  split; discriminate.
Qed.

Lemma render_day_result (day : date) :
  existsb (Event.on_day day) (events self) = true ->
  match render_day items self (build_rooms 0 (feeds self) []) day with
  | inl x =>
      forallb (local_after_1900 self) (events self) = false
      /\ (x = ValueError
          \/ (x = OverflowError
              /\ forallb (projects self) (events self) = false))
  | inr _ => True
  end.
Proof.
  intros Hday. unfold render_day.
  destruct (first_last_returns day (events self) gathered_fields None None)
    as (ft & lt & Hfl & Hsome).
  destruct (Hsome (or_intror Hday)) as [Hft Hlt].
  destruct ft as [fs|]; [| contradiction].
  destruct lt as [le|]; [| contradiction].
  rewrite Hfl. cbn [bind fst snd timediff_opt ret].
  assert (Hsorted : Forall
            (fun e => (Event.start e <> None /\ Event.end_ e <> None)
                      /\ exists i,
                           room_of (build_rooms 0 (feeds self) [])
                             (Event.location e) = ret i)
            (sorted_events self)).
  { apply (Permutation_Forall (sort_perm Event.default_cmp (events self))).
    pose proof gathered_fields as Hf. rewrite Forall_forall in *.
    intros e He. split; [now apply Hf |].
    apply room_of_gathered. now apply Hall. }
  pose proof (sessions_result self _ day fs _ Hsorted) as Hs.
  destruct (sessions self _ day (Some fs) (sorted_events self)) as [x | bs];
    cbn [bind ret]; [| exact I].
  unfold sorted_events in Hs.
  now rewrite <- !(forallb_perm _ _ _
                     (sort_perm Event.default_cmp (events self))) in Hs.
Qed.

Lemma render_days_result (days : list date) :
  Forall (fun day => existsb (Event.on_day day) (events self) = true) days ->
  match render_days items self (build_rooms 0 (feeds self) []) days with
  | inl x =>
      forallb (local_after_1900 self) (events self) = false
      /\ (x = ValueError
          \/ (x = OverflowError
              /\ forallb (projects self) (events self) = false))
  | inr _ => True
  end.
Proof.
  induction 1 as [|day days Hday Hdays IH]; cbn [render_days]; [exact I |].
  pose proof (render_day_result day Hday) as Hd.
  destruct (render_day items self _ day) as [x | d]; cbn [bind];
    [exact Hd |].
  destruct (render_days items self _ days) as [x | out]; cbn [bind ret];
    [exact IH | exact I].
Qed.

Lemma generate_html_result :
  match generate_html items self with
  | inl x =>
      forallb (local_after_1900 self) (events self) = false
      /\ (x = ValueError
          \/ (x = OverflowError
              /\ forallb (projects self) (events self) = false))
  | inr _ => True
  end.
Proof.
  unfold generate_html. cbv zeta.
  destruct (collect_days_returns (events self) []) as (days & Hc & Hin & _).
  { eapply Forall_impl; [| exact gathered_fields]. now intros e [H _]. }
  rewrite Hc. cbn [bind]. apply render_days_result.
  apply Forall_forall. intros day Hd.
  apply (Permutation_in _ (Permutation_sym (sort_perm Z.compare days))) in Hd.
  apply Hin in Hd as [[] | Hd]. exact Hd.
Qed.

(** Events that passed [validate] in the time zone of the aggregator
    have local times. *)
Lemma gathered_projects :
  Forall (fun e => Event.timezone e = timezone self) (events self) ->
  forallb (projects self) (events self) = true.
Proof.
  intros Hz. apply forallb_forall. intros e He.
  rewrite Forall_forall in Hz, Hall.
  destruct (Hall e He) as [Hv _]. pose proof (Hz e He) as Ez.
  unfold Event.validate in Hv. unfold projects.
  destruct (negb _); [discriminate |].
  destruct (Event.start e) as [st|]; [| discriminate].
  destruct (Event.end_ e) as [en|]; [| discriminate].
  rewrite Ez in Hv. unfold local_date, astimezone in Hv. cbv zeta in Hv.
  destruct (in_range (st + timezone self st)); [| discriminate].
  destruct (in_range (en + timezone self en)); [reflexivity | discriminate].
Qed.

End OneAggregator.

(** A list in ascending order without repeats is in strictly ascending
    order. *)
Lemma sorted_nodup_lt (l : list Z) :
  StronglySorted (Sort.ordered (fun d => d)) l -> NoDup l ->
  StronglySorted Z.lt l.
Proof.
  induction 1 as [|x l Hs IH Hall]; intros Hnd; constructor;
    inversion Hnd as [|? ? Hx Hl]; subst.
  - now apply IH.
  - rewrite Forall_forall in *. intros y Hy.
    pose proof (Hall y Hy) as Hle. unfold Sort.ordered in Hle.
    assert (x <> y) by (intros ->; contradiction). lia.
Qed.

(** *** The columns of the rooms *)

Lemma dict_set_keys (d : list (string * Z)) (k : string) (v : Z) :
  map fst (dict_set d k v)
  = if existsb (String.eqb k) (map fst d) then map fst d
    else (map fst d ++ [k])%list.
Proof.
  induction d as [|[k0 v0] d IH]; [reflexivity |].
  cbn [dict_set map fst existsb]. rewrite (String.eqb_sym k k0).
  destruct (String.eqb k0 k); cbn [orb map fst]; [reflexivity |].
  rewrite IH. now destruct (existsb _ _).
Qed.

Lemma existsb_eqb_in (k : string) (l : list string) :
  existsb (String.eqb k) l = true <-> In k l.
Proof.
  rewrite existsb_exists. split.
  - intros (x & Hx & E). apply String.eqb_eq in E. now subst.
  - intros H. exists k. split; [exact H | apply String.eqb_refl].
Qed.

(** The dictionary holds every name of the feeds once. *)
Lemma build_rooms_keys (fs : list (string * string)) :
  forall i rooms,
    NoDup (map fst rooms) ->
    NoDup (map fst (build_rooms i fs rooms))
    /\ forall k, In k (map fst (build_rooms i fs rooms))
                 <-> In k (map fst rooms) \/ In k (map fst fs).
Proof.
  induction fs as [|f fs IH]; intros i rooms Hnd; cbn [build_rooms map].
  - split; [exact Hnd |]. intros k. cbn [In]. tauto.
  - assert (Hnd' : NoDup (map fst (dict_set rooms (fst f) i))
                   /\ forall k, In k (map fst (dict_set rooms (fst f) i))
                                <-> In k (map fst rooms) \/ k = fst f).
    { rewrite dict_set_keys.
      destruct (existsb (String.eqb (fst f)) (map fst rooms)) eqn:E.
      - apply existsb_eqb_in in E. split; [exact Hnd |].
        intros k. split; [tauto | intros [H | ->]; assumption].
      - split.
        + apply NoDup_app; [exact Hnd | repeat constructor; intros [] |].
          intros x Hx [<- | []].
          apply existsb_eqb_in in Hx. congruence.
        + intros k. rewrite in_app_iff. cbn [In]. split.
          * intros [H | [<- | []]]; tauto.
          * intros [H | ->]; tauto. }
    destruct Hnd' as [Hn Hk].
    destruct (IH (i + 1) _ Hn) as [Hn' Hk'].
    split; [exact Hn' |].
    intros k. rewrite Hk', Hk. cbn [In]. split.
    + intros [[H | ->] | H]; tauto.
    + intros [H | [<- | H]]; tauto.
Qed.

(** A name that no feed left bears keeps the position found. *)
Lemma last_index_absent (name : string) (fs : list (string * string)) :
  forall i acc,
    ~ In name (map fst fs) -> last_index name fs i acc = acc.
Proof.
  induction fs as [|f fs IH]; intros i acc H; cbn [last_index];
    [reflexivity |].
  cbn [map In] in H. rewrite IH by tauto.
  destruct (String.eqb_spec (fst f) name) as [E | _]; [| reflexivity].
  exfalso. apply H. now left.
Qed.

(** Among feeds of different names, the position of a name is that of
    its feed. *)
Lemma last_index_nodup (fs : list (string * string)) :
  forall n f i acc,
    NoDup (map fst fs) -> nth_error fs n = Some f ->
    last_index (fst f) fs i acc = Some (i + Z.of_nat n).
Proof.
  induction fs as [|f0 fs IH]; intros n f i acc Hnd Hn;
    [destruct n; discriminate |].
  cbn [map] in Hnd. inversion Hnd as [|? ? H0 Hfs]; subst.
  cbn [last_index]. destruct n as [|n]; cbn [nth_error] in Hn.
  - injection Hn as ->. rewrite String.eqb_refl.
    rewrite last_index_absent by exact H0. f_equal. lia.
  - rewrite (IH n f (i + 1) _ Hfs Hn). f_equal. lia.
Qed.

(** A position found is that of one of the feeds. *)
Lemma last_index_range (name : string) (fs : list (string * string)) :
  forall i acc j,
    last_index name fs i acc = Some j ->
    acc = Some j \/ i <= j < i + Z.of_nat (List.length fs).
Proof.
  induction fs as [|f fs IH]; intros i acc j H; cbn [last_index] in H;
    [now left |].
  apply IH in H. cbn [List.length]. destruct H as [H | H]; [| right; lia].
  destruct (String.eqb (fst f) name); [| now left].
  injection H as <-. right. lia.
Qed.

(** The position of the name of the last feed is the last one. *)
Lemma last_index_last (fs : list (string * string)) (f : string * string) :
  forall i acc,
    last_index (fst f) (fs ++ [f]) i acc
    = Some (i + Z.of_nat (List.length fs)).
Proof.
  induction fs as [|f0 fs IH]; intros i acc; cbn [app last_index List.length].
  - rewrite String.eqb_refl. f_equal. lia.
  - rewrite IH. f_equal. lia.
Qed.

End HtmlReturns.

(** ** The order of the blocks, whatever the allocator *)

Section AnyAllocator.

Import Datetime Aggregator.

Variable alloc : nat -> Z.

(** X4.  Whatever two different addresses the first two [Event]s of a
    run get, there is a feed whose 10:00 session comes before its 09:00
    session in [sorted (self.events)], the order in which
    [generate_html] writes the blocks: the feed that lists first the
    session that gets the smaller address. *)
Theorem X4_blocks_follow_addresses :
  alloc 0%nat <> alloc 1%nat ->
  exists feed,
    In feed [Example.feed_late_first; Example.feed_early_first]
    /\ map Event.start (events (Example.one_room alloc feed))
       = [Some Example.t0900; Some Example.t1000]
    /\ map Event.start (sorted_events (Example.one_room alloc feed))
       = [Some Example.t1000; Some Example.t0900].
Proof.
  intros Hne.
  destruct (Z.lt_total (alloc 0%nat) (alloc 1%nat)) as [Hlt | [Heq | Hgt]];
    [| contradiction |].
  - exists Example.feed_late_first. split; [now left |].
    assert (E : events (Example.one_room alloc Example.feed_late_first)
                = [Event.mk (alloc 1%nat) Example.utc 0 (Some "Early")
                     (Some Example.t0900) (Some 63421867800) (Some "Room A");
                   Event.mk (alloc 0%nat) Example.utc 0 (Some "Late")
                     (Some Example.t1000) (Some Example.t1100)
                     (Some "Room A")])
      by (vm_compute; reflexivity).
    unfold sorted_events. rewrite E. split; [reflexivity |].
    cbn [Sort.sort Sort.insert]. unfold Event.default_cmp. cbn [Event.ident].
    rewrite (proj2 (Z.compare_gt_iff _ _) Hlt). reflexivity.
  - exists Example.feed_early_first. split; [right; now left |].
    assert (E : events (Example.one_room alloc Example.feed_early_first)
                = [Event.mk (alloc 0%nat) Example.utc 0 (Some "Early")
                     (Some Example.t0900) (Some 63421867800) (Some "Room A");
                   Event.mk (alloc 1%nat) Example.utc 0 (Some "Late")
                     (Some Example.t1000) (Some Example.t1100)
                     (Some "Room A")])
      by (vm_compute; reflexivity).
    unfold sorted_events. rewrite E. split; [reflexivity |].
    cbn [Sort.sort Sort.insert]. unfold Event.default_cmp. cbn [Event.ident].
    rewrite (proj2 (Z.compare_gt_iff _ _) Hgt). reflexivity.
Qed.

End AnyAllocator.

Lemma X4_blocks_follow_addresses_witness :
  exists feed,
    In feed [Example.feed_late_first; Example.feed_early_first]
    /\ map Event.start
         (Aggregator.events (Example.one_room Example.alloc feed))
       = [Some Example.t0900; Some Example.t1000]
    /\ map Event.start
         (Aggregator.sorted_events (Example.one_room Example.alloc feed))
       = [Some Example.t1000; Some Example.t0900].
Proof.
  apply (X4_blocks_follow_addresses Example.alloc). discriminate.
Defined.

(** ** More about the parser *)

Section ParserExtras.

Import Str IcalReader Aggregator.

Variable alloc : nat -> Z.
Variable self : Aggregator.t.

(** X1.  The parser comes to an end on every feed, by [END:VCALENDAR]
    or by an exception, and the fuel of the model plays no part: any
    amount above the number of lines gives the same run. *)
Theorem X1_parser_terminates (flines : list string) (heap : nat) :
  ended (_parse_ical alloc self flines heap) <> Unfinished
  /\ forall fuel,
      (List.length (init flines) < fuel)%nat ->
      parse_loop alloc self fuel (init flines) heap None
      = _parse_ical alloc self flines heap.
Proof.
  split; [apply _parse_ical_finishes |].
  intros fuel Hf. unfold _parse_ical. apply parse_loop_fuel; lia.
Qed.

(** X2.  A logical line that is not empty, is none of [END:VCALENDAR],
    [BEGIN:VEVENT] and [END:VEVENT] and starts with none of [DTSTART:],
    [DTEND:] and [SUMMARY:] is passed over: nothing is raised, nothing
    is yielded, the open event stays as it is, and the parse goes on
    with the next line. *)
Theorem X2_unknown_line_ignored (fuel : nat) (r r' : IcalReader.t)
    (heap : nat) (cur : option Event.t) (l : string) :
  readline r = (Some l, r') ->
  l <> "" -> l <> "END:VCALENDAR" -> l <> "BEGIN:VEVENT" ->
  l <> "END:VEVENT" ->
  startswith l "DTSTART:" = false -> startswith l "DTEND:" = false ->
  startswith l "SUMMARY:" = false ->
  parse_step alloc self heap cur (Some l) = Next cur None heap
  /\ parse_loop alloc self (S fuel) r heap cur
     = parse_loop alloc self fuel r' heap cur.
Proof.
  intros Er H0 H1 H2 H3 H4 H5 H6.
  pose proof (parse_step_ignores alloc self heap cur l H0 H1 H2 H3 H4 H5 H6)
    as Hs.
  split; [exact Hs |]. simpl. now rewrite Er, Hs.
Qed.

End ParserExtras.

Lemma X2_unknown_line_ignored_witness :
  Aggregator.parse_step Example.alloc Example.aggregator 0 None
    (Some "VERSION:2.0")
  = Aggregator.Next None None 0
  /\ Aggregator.parse_loop Example.alloc Example.aggregator 2
       ["VERSION:2.0"; "END:VCALENDAR"] 0 None
     = Aggregator.parse_loop Example.alloc Example.aggregator 1
         ["END:VCALENDAR"] 0 None.
Proof.
  apply (X2_unknown_line_ignored Example.alloc Example.aggregator 1
           ["VERSION:2.0"; "END:VCALENDAR"] ["END:VCALENDAR"] 0 None
           "VERSION:2.0");
    solve [reflexivity | discriminate].
Defined.


(** ** Pixels *)

Section PixelExtras.

Import Datetime Aggregator.

(** X10.  The pixel distance of two instants takes no account of whole
    days: it is the same for [t] and for [t] moved by any number of
    days, it is never negative and it stays below that of 24 hours,
    2448. *)
Theorem X10_pixels_wrap_at_one_day (t c k : datetime) :
  _timediff_to_y_pixels (t + 86400 * k) c = _timediff_to_y_pixels t c
  /\ PrimFloat.leb 0%float (_timediff_to_y_pixels t c) = true
  /\ PrimFloat.ltb (_timediff_to_y_pixels t c) 2448%float = true.
Proof.
  unfold _timediff_to_y_pixels, timedelta_seconds, datetime in *. split.
  - replace (t + 86400 * k - c) with (t - c + k * 86400) by lia.
    now rewrite Z.mod_add.
  - assert (Hc : all_from 1440 0
                   (fun n =>
                      let px := PrimFloat.mul (float_of_Z n) px_per_minute in
                      PrimFloat.leb 0%float px
                      && PrimFloat.ltb px 2448%float) = true)
      by (vm_compute; reflexivity).
    pose proof (all_from_spec _ _ _ Hc ((t - c) mod 86400 / 60)) as Hn.
    cbv beta zeta in Hn. apply andb_true_iff. apply Hn.
    Z.div_mod_to_equations. lia.
Qed.

(** X11.  Of an event that ends before it starts, by a day at most, the
    block has the height of 24 hours less the time from its end to its
    start: the whole minutes of that, times 1.7, less 2. *)
Theorem X11_block_of_event_ending_early (self : Aggregator.t)
    (rooms : list (string * Z)) (firsttime : option datetime) (e : Event.t)
    (st en : datetime) (b : html) :
  Event.start e = Some st -> Event.end_ e = Some en ->
  en < st -> st - en <= 86400 ->
  session_block self rooms firsttime e st = ret b ->
  exists top left shm ehm,
    b = SessBlock top left 148
          (PrimFloat.sub
             (PrimFloat.mul (float_of_Z ((86400 - (st - en)) / 60))
                px_per_minute)
             (float_of_Z 2))
          shm ehm (Event.summary e).
Proof.
  intros Hst Hen Hlt Hday Hb.
  apply session_block_spec in Hb
    as (fs & en' & i & shm & ehm & _ & Hen' & _ & _ & _ & ->).
  assert (en' = en) by congruence. subst en'.
  exists (PrimFloat.add (_timediff_to_y_pixels st fs) (float_of_Z 30)),
    (150 * i), shm, ehm.
  unfold _timediff_to_y_pixels, timedelta_seconds, datetime in *.
  replace ((en - st) mod 86400) with (86400 - (st - en)); [reflexivity |].
  Z.div_mod_to_equations. lia.
Qed.

End PixelExtras.

Lemma X11_block_of_event_ending_early_witness :
  let e :=
    Event.mk 4096 Example.utc 0 (Some "Back in time")
      (Some Example.t1000) (Some Example.t0900) (Some "Room A") in
  let b :=
    match
      Aggregator.session_block Example.aggregator [("Room A", 0)]
        (Some Example.t1000) e Example.t1000
    with
    | inr b => b
    | inl _ => Aggregator.CloseDiv
    end in
  exists top left shm ehm,
    b = Aggregator.SessBlock top left 148
          (PrimFloat.sub
             (PrimFloat.mul
                (Datetime.float_of_Z
                   ((86400 - (Example.t1000 - Example.t0900)) / 60))
                Aggregator.px_per_minute)
             (Datetime.float_of_Z 2))
          shm ehm (Event.summary e).
Proof.
  intros e b.
  apply (X11_block_of_event_ending_early Example.aggregator
           [("Room A", 0)] (Some Example.t1000) e Example.t1000
           Example.t0900 b);
    try reflexivity; vm_compute; congruence.
Defined.

(** ** The summary of an event *)

Section SummaryExtras.

Import Str Aggregator.

Variable alloc : nat -> Z.
Variable self : Aggregator.t.

(** X3.  A [SUMMARY] line read while an event is open stores what
    follows the colon, unescaped: each backslash before a comma is
    dropped, reading from the left, in one pass.  The text stored is
    never longer, and it is the text of the line exactly when that
    holds no backslash before a comma. *)
Theorem X3_summary_unescaped_once (heap : nat) (e : Event.t) (v : string) :
  parse_step alloc self heap (Some e) (Some ("SUMMARY:" ++ v))
  = Next (Some (Event.set_summary e (replace_escaped_comma v))) None heap
  /\ (String.length (replace_escaped_comma v) <= String.length v)%nat
  /\ (replace_escaped_comma v = v <-> has_escaped_comma v = false).
Proof.
  split; [apply step_summary |].
  split; [apply replace_escaped_comma_length |].
  apply replace_escaped_comma_fixed.
Qed.

End SummaryExtras.


(** ** The aggregate feed *)

Section IcalExtras.

Import Str IcalReader Datetime Aggregator.

Variable alloc : nat -> Z.
Variable self : Aggregator.t.

(** X5.  With no adjustment of the incoming times, the parser reads
    the text [generate_ical] wrote back as the same events, in the same
    order: each with the [start] and the [end] of the event written,
    with its summary without the white space at the end and unescaped
    once more, and with no location, the [LOCATION] line being passed
    over.  The events are those that [reads_back] accepts. *)
Theorem X5_generate_ical_reads_back (heap : nat) :
  timezone_adjust self = 0 ->
  forallb (reads_back self) (events self) = true ->
  exists text,
    generate_ical self = ret text
    /\ _parse_ical alloc self (readlines text) heap
       = mkRun (read_back_all alloc self heap (events self)) Returned
           (heap + List.length (events self)).
Proof.
  intros Ha Hall.
  destruct (generate_ical_read_back alloc self heap Ha Hall)
    as (text & Ht & Hr).
  exists text. split; [exact Ht | exact Hr].
Qed.

(** X6.  [generate_ical] returns exactly when every event has a
    [start] and an [end] that are both of 1900 or later; it raises
    [AttributeError] for a missing instant and [ValueError] for one
    before 1900, and nothing else.  Neither the summary nor the
    location of an event plays a part. *)
Theorem X6_generate_ical_returns :
  ((exists text, generate_ical self = ret text)
   <-> forallb printable (events self) = true)
  /\ forall x,
      generate_ical self = raise x -> x = AttributeError \/ x = ValueError.
Proof.
  unfold generate_ical.
  pose proof (ical_events_result (events self)) as H.
  destruct (ical_events (events self)) as [x | ws]; cbn [bind ret raise].
  - destruct H as [Hf Hx]. split.
    + split; [intros [text Ht]; discriminate |].
      rewrite Hf. discriminate.
    + intros y Hy. unfold raise in Hy. injection Hy as <-. exact Hx.
  - split; [| discriminate].
    split; [intros _; exact H | intros _; eexists; reflexivity].
Qed.

End IcalExtras.

Lemma X5_generate_ical_reads_back_witness :
  exists text,
    Aggregator.generate_ical Example.pulled = ret text
    /\ Aggregator._parse_ical Example.alloc Example.pulled
         (Str.readlines text) 2
       = Aggregator.mkRun
           (Aggregator.read_back_all Example.alloc Example.pulled 2
              (Aggregator.events Example.pulled))
           Aggregator.Returned
           (2 + List.length (Aggregator.events Example.pulled)).
Proof.
  apply (X5_generate_ical_reads_back Example.alloc Example.pulled 2);
    reflexivity.
Defined.


(** ** From [pull_all] to the outputs *)

Section PullExtras.

Import Str IcalReader Datetime Aggregator.

Variable alloc : nat -> Z.
Variable urlopen : string -> pyres string.
Variable self : Aggregator.t.

(** X7.  However [pull_all] ends, by returning or by raising, every
    event it leaves in [self.events] passed [validate] and has as its
    location the name of one of the feeds, when this held of the
    events that the aggregator had before, as it does when it had
    none. *)
Theorem X7_pull_all_keeps_events_valid (heap : nat) :
  Forall (gathered self) (events self) ->
  Forall (gathered (fst (pull_all alloc urlopen self heap)))
    (events (fst (pull_all alloc urlopen self heap))).
Proof.
  intros H. pose proof (pull_all_gathered alloc urlopen self heap H) as Hg.
  unfold pull_all in *.
  destruct (ended (pull_feeds alloc urlopen self (feeds self) (events self)
                     heap)); try exact Hg.
  destruct (sort_events _); exact Hg.
Qed.

(** X9.  When the feeds before one come to their end and that one
    fails, be it that [urlopen] raises or that the parser does,
    [pull_all] raises the same exception, and [self.events] is left
    unsorted with the events gathered so far: those of the feeds
    before and those the parser yielded before it raised.  The feeds
    after it play no part. *)
Theorem X9_pull_all_stops_at_first_failure
    (fs1 fs2 : list (string * string)) (feed url : string) (heap : nat)
    (x : pyexc) :
  feeds self = (fs1 ++ (feed, url) :: fs2)%list ->
  ended (pull_feeds alloc urlopen self fs1 (events self) heap) = Returned ->
  let r1 := pull_feeds alloc urlopen self fs1 (events self) heap in
  (urlopen url = raise x ->
   pull_all alloc urlopen self heap
   = (set_events self (yielded r1), Raised x))
  /\ (forall text,
         urlopen url = ret text ->
         let r := _parse_ical alloc self (readlines text) (heap_after r1) in
         ended r = Raised x ->
         pull_all alloc urlopen self heap
         = (set_events self (yielded r1 ++ tagged feed r)%list, Raised x)).
Proof.
  intros Hf H1 r1. subst r1. unfold pull_all.
  rewrite Hf, pull_feeds_app. cbv zeta. rewrite H1. cbn [pull_feeds]. split.
  - intros Hu. unfold raise in Hu. rewrite Hu. reflexivity.
  - intros text Hu Hr. unfold ret in Hu. rewrite Hu, Hr. reflexivity.
Qed.

(** X15.  The aggregate feed gives the events back.  When a new
    aggregator with no adjustment of the times, and feeds whose names
    hold no line feed, has pulled its feeds, and the instants of its
    events are of 1900 or later, then [generate_ical] returns a text
    that the parser reads to its end as events with the same [start],
    the same [end] and, in the same order, the same summary unescaped
    once more: the same summary, when it holds no backslash before a
    comma. *)
Theorem X15_aggregate_feed_round_trip (heap heap' : nat)
    (self' : Aggregator.t) :
  timezone_adjust self = 0 ->
  events self = [] ->
  forallb (fun f => no_lf (fst f)) (feeds self) = true ->
  pull_all alloc urlopen self heap = (self', Returned) ->
  forallb printable (events self') = true ->
  exists text,
    generate_ical self' = ret text
    /\ let r := _parse_ical alloc self' (readlines text) heap' in
       ended r = Returned
       /\ map Event.start (yielded r) = map Event.start (events self')
       /\ map Event.end_ (yielded r) = map Event.end_ (events self')
       /\ map Event.summary (yielded r)
          = map (fun e => option_map replace_escaped_comma (Event.summary e))
              (events self').
Proof.
  intros Ha H0 Hnames Hpull Hprint.
  assert (Hnil : forall P : Event.t -> Prop, Forall P (events self))
    by (intros P; rewrite H0; constructor).
  pose proof (pull_all_gathered alloc urlopen self heap (Hnil _)) as Hg.
  pose proof (pull_all_well_read alloc urlopen self heap (Hnil _)) as Hw.
  pose proof (pull_all_config alloc urlopen self heap) as Hc.
  rewrite Hpull in Hg, Hw, Hc. cbn [fst] in Hg, Hw, Hc.
  assert (Hall : Forall (fun e => reads_back self' e = true
                                  /\ exists s, Event.summary e = Some s
                                               /\ rstrip s = s)
                   (events self')).
  { rewrite forallb_forall in Hprint. rewrite Forall_forall in *.
    intros e He. rewrite <- Hc.
    exact (gathered_reads_back self e Hnames (Hg e He) (Hw e He)
             (Hprint e He)). }
  assert (Hrb : forallb (reads_back self') (events self') = true).
  { apply forallb_forall. rewrite Forall_forall in Hall.
    intros e He. now apply Hall. }
  assert (Ha' : timezone_adjust self' = 0) by (rewrite <- Hc; exact Ha).
  destruct (generate_ical_read_back alloc self' heap' Ha' Hrb)
    as (text & Ht & Hr).
  exists text. split; [exact Ht |]. cbv zeta. rewrite Hr.
  cbn [ended yielded].
  destruct (read_back_all_fields alloc self' (events self') heap')
    as (H1 & H2 & H3).
  split; [reflexivity |]. split; [exact H1 |]. split; [exact H2 |].
  rewrite H3. apply map_ext_in. intros e He.
  rewrite Forall_forall in Hall.
  destruct (Hall e He) as [_ (s & Es & Rs)].
  rewrite Es. cbn [percent_s option_map]. now rewrite Rs.
Qed.

(** X16.  Whatever the text of a feed, every event the parser yields
    passed [validate], has the time zone of the aggregator, has
    instants of the years 1 to 9999, and has a summary that holds no
    line feed and does not end in white space. *)
Theorem X16_parsed_events_well_read (text : string) (heap : nat) :
  Forall (fun e => Event.validate e = ret tt /\ well_read self e)
    (yielded (_parse_ical alloc self (readlines text) heap)).
Proof.
  unfold _parse_ical. cbv zeta. apply Forall_and.
  - apply parse_loop_yields.
  - apply parse_loop_well_read; [apply init_clean | discriminate].
Qed.

End PullExtras.

Lemma X7_pull_all_keeps_events_valid_witness :
  Forall (Aggregator.gathered
            (fst (Aggregator.pull_all Example.alloc Example.urlopen
                    Example.aggregator 0)))
    (Aggregator.events
       (fst (Aggregator.pull_all Example.alloc Example.urlopen
               Example.aggregator 0))).
Proof.
  apply (X7_pull_all_keeps_events_valid Example.alloc Example.urlopen
           Example.aggregator 0).
  constructor.
Defined.

Lemma X9_pull_all_stops_at_first_failure_witness :
  let self :=
    Aggregator.add_feed
      (Aggregator.add_feed
         (Aggregator.add_feed (Aggregator.__init__ Example.utc 0)
            "Room A" "http://a/")
         "Room C" "http://blank/")
      "Room B" "http://b/" in
  let r1 :=
    Aggregator.pull_feeds Example.alloc Example.urlopen self
      [("Room A", "http://a/")] [] 0 in
  (Example.urlopen "http://blank/" = raise (Exception "End of stream") ->
   Aggregator.pull_all Example.alloc Example.urlopen self 0
   = (Aggregator.set_events self (Aggregator.yielded r1),
      Aggregator.Raised (Exception "End of stream")))
  /\ (forall text,
         Example.urlopen "http://blank/" = ret text ->
         let r :=
           Aggregator._parse_ical Example.alloc self (Str.readlines text)
             (Aggregator.heap_after r1) in
         Aggregator.ended r = Aggregator.Raised (Exception "End of stream") ->
         Aggregator.pull_all Example.alloc Example.urlopen self 0
         = (Aggregator.set_events self
              (Aggregator.yielded r1 ++ Aggregator.tagged "Room C" r)%list,
            Aggregator.Raised (Exception "End of stream"))).
Proof.
  intros self.
  apply (X9_pull_all_stops_at_first_failure Example.alloc Example.urlopen
           self [("Room A", "http://a/")] [("Room B", "http://b/")]
           "Room C" "http://blank/" 0 (Exception "End of stream"));
    reflexivity.
Defined.

Lemma X15_aggregate_feed_round_trip_witness :
  exists text,
    Aggregator.generate_ical Example.pulled = ret text
    /\ let r :=
         Aggregator._parse_ical Example.alloc Example.pulled
           (Str.readlines text) 2 in
       Aggregator.ended r = Aggregator.Returned
       /\ map Event.start (Aggregator.yielded r)
          = map Event.start (Aggregator.events Example.pulled)
       /\ map Event.end_ (Aggregator.yielded r)
          = map Event.end_ (Aggregator.events Example.pulled)
       /\ map Event.summary (Aggregator.yielded r)
          = map (fun e =>
                   option_map Str.replace_escaped_comma (Event.summary e))
              (Aggregator.events Example.pulled).
Proof.
  apply (X15_aggregate_feed_round_trip Example.alloc Example.urlopen
           Example.aggregator 0 2 Example.pulled);
    vm_compute; reflexivity.
Defined.

(** ** More about the grid *)

Section GridExtras.

Import Datetime Aggregator.

(** The order in which the dictionary of the rooms gives its items:
    what follows holds whatever it is. *)
Variable items : list (string * Z) -> list (string * Z).

Variable self : Aggregator.t.

(** X8.  On events that passed [validate] and are in the rooms of the
    feeds, [generate_html] never raises [KeyError], [AttributeError]
    or [TypeError]: it raises the [ValueError] of [strftime] or the
    [OverflowError] of [astimezone] and nothing else, and it returns
    when the display time zone places the start and the end of every
    event within the years 1900 to 9999.  When the events were
    validated in the display time zone, as [pull_all] leaves them, the
    [ValueError] is the only one. *)
Theorem X8_generate_html_returns :
  Forall (gathered self) (events self) ->
  (forallb (local_after_1900 self) (events self) = true ->
   exists out, generate_html items self = ret out)
  /\ (forall x,
         generate_html items self = raise x ->
         x = ValueError \/ x = OverflowError)
  /\ (Forall (fun e => Event.timezone e = timezone self) (events self) ->
      forall x, generate_html items self = raise x -> x = ValueError).
Proof.
  intros Hall. pose proof (generate_html_result items self Hall) as H.
  pose proof (gathered_projects self Hall) as Hp.
  destruct (generate_html items self) as [x | out].
  - destruct H as [Hf Hx]. split; [rewrite Hf; discriminate |]. split.
    + intros y Hy. unfold raise in Hy. injection Hy as <-.
      destruct Hx as [Hx | [Hx _]]; [now left | now right].
    + intros Hz y Hy. unfold raise in Hy. injection Hy as <-.
      destruct Hx as [Hx | [_ Hx]]; [exact Hx |].
      rewrite (Hp Hz) in Hx. discriminate.
  - split; [intros _; now exists out |]. split; discriminate.
Qed.

(** X12.  [generate_html] writes one heading for each day on which an
    event starts, the day being that of the UTC instant, and writes
    the headings in strictly ascending order of the days. *)
Theorem X12_one_heading_per_day (out : list html) :
  generate_html items self = ret out ->
  StronglySorted Z.lt (h2_days out)
  /\ forall d,
      In d (h2_days out) <-> existsb (Event.on_day d) (events self) = true.
Proof.
  unfold generate_html. cbv zeta.
  destruct (collect_days (events self) []) as [x | days] eqn:Hc;
    [discriminate |].
  cbn [bind]. intros Hr. apply h2_days_render_days in Hr. rewrite Hr.
  destruct (collect_days_returns (events self) []
              (collect_days_starts _ _ _ Hc)) as (days' & Hc' & Hin & Hnd).
  assert (days' = days) by (rewrite Hc in Hc'; unfold ret in Hc'; congruence).
  subst days'.
  pose proof (sort_perm Z.compare days) as Hp.
  split.
  - apply sorted_nodup_lt.
    + apply (sort_sorted (fun d => d) Z.compare). reflexivity.
    + apply (Permutation_NoDup Hp), Hnd. constructor.
  - intros d. split.
    + intros Hd. apply (Permutation_in _ (Permutation_sym Hp)) in Hd.
      apply Hin in Hd as [[] | Hd]. exact Hd.
    + intros Hd. apply (Permutation_in _ Hp). apply Hin. now right.
Qed.

(** X13.  When the feeds have different names, the dictionary of the
    rooms has one entry for each feed, the room of the [k]-th feed is
    in column [k], and every column lies within the width of the day:
    150 for each room. *)
Theorem X13_distinct_rooms_fit :
  NoDup (map fst (feeds self)) ->
  let rooms := build_rooms 0 (feeds self) [] in
  List.length rooms = List.length (feeds self)
  /\ (forall k f,
         nth_error (feeds self) k = Some f ->
         room_of rooms (Some (fst f)) = ret (Z.of_nat k))
  /\ (forall loc i,
         room_of rooms loc = ret i ->
         0 <= col_width * i
         /\ col_width * i + (col_width - 2)
            < Z.of_nat (List.length rooms) * col_width).
Proof.
  intros Hnd rooms.
  destruct (build_rooms_keys (feeds self) 0 [] (NoDup_nil _)) as [Hk Hin].
  fold rooms in Hk, Hin.
  assert (Hlen : List.length rooms = List.length (feeds self)).
  { rewrite <- (length_map fst rooms), <- (length_map fst (feeds self)).
    apply Nat.le_antisymm; apply NoDup_incl_length; try assumption;
      intros k Hkk.
    - apply Hin in Hkk as [[] | H]. exact H.
    - apply Hin. now right. }
  split; [exact Hlen |]. split.
  - intros k f Hf. unfold room_of, rooms.
    rewrite dict_get_build_rooms, (last_index_nodup _ k f 0 _ Hnd Hf).
    reflexivity.
  - intros loc i Hi. rewrite Hlen. unfold room_of, rooms in Hi.
    destruct loc as [name|]; [| discriminate].
    rewrite dict_get_build_rooms in Hi.
    destruct (last_index name (feeds self) 0 (dict_get [] name)) as [j|]
      eqn:Ej; [| discriminate].
    unfold ret in Hi. injection Hi as ->.
    apply last_index_range in Ej as [Ej | Ej]; [discriminate |].
    unfold col_width. lia.
Qed.

(** X14.  When two feeds have the same name, the dictionary of the
    rooms has fewer entries than there are feeds, and the room of the
    last feed lies beyond the width of the day: its column starts at
    or after the right edge. *)
Theorem X14_shared_name_overflows (fs : list (string * string))
    (f : string * string) :
  feeds self = (fs ++ [f])%list ->
  ~ NoDup (map fst (feeds self)) ->
  let rooms := build_rooms 0 (feeds self) [] in
  (List.length rooms < List.length (feeds self))%nat
  /\ exists i,
      room_of rooms (Some (fst f)) = ret i
      /\ Z.of_nat (List.length rooms) * col_width <= col_width * i.
Proof.
  intros Hf Hdup rooms.
  destruct (build_rooms_keys (feeds self) 0 [] (NoDup_nil _)) as [Hk Hin].
  fold rooms in Hk, Hin.
  assert (Hincl : incl (map fst rooms) (map fst (feeds self))).
  { intros k Hkk. apply Hin in Hkk as [[] | H]. exact H. }
  assert (Hlen : (List.length rooms < List.length (feeds self))%nat).
  { rewrite <- (length_map fst rooms), <- (length_map fst (feeds self)).
    destruct (Nat.lt_ge_cases (List.length (map fst rooms))
                (List.length (map fst (feeds self)))) as [H | H];
      [exact H | exfalso].
    apply Hdup. exact (NoDup_incl_NoDup Hk H Hincl). }
  split; [exact Hlen |].
  exists (Z.of_nat (List.length fs)). split.
  - unfold room_of, rooms. rewrite dict_get_build_rooms, Hf, last_index_last.
    reflexivity.
  - rewrite Hf, length_app in Hlen. cbn [List.length] in Hlen.
    unfold col_width. lia.
Qed.

End GridExtras.

Lemma X8_generate_html_returns_witness :
  (forallb (Aggregator.local_after_1900 Example.pulled)
     (Aggregator.events Example.pulled) = true ->
   exists out,
     Aggregator.generate_html (fun d => d) Example.pulled = ret out)
  /\ (forall x,
         Aggregator.generate_html (fun d => d) Example.pulled = raise x ->
         x = ValueError \/ x = OverflowError)
  /\ (Forall (fun e => Event.timezone e = Aggregator.timezone Example.pulled)
        (Aggregator.events Example.pulled) ->
      forall x,
        Aggregator.generate_html (fun d => d) Example.pulled = raise x ->
        x = ValueError).
Proof.
  apply (X8_generate_html_returns (fun d => d) Example.pulled).
  set (evs := Aggregator.events Example.pulled). vm_compute in evs.
  subst evs.
  constructor; [| constructor; [| constructor]].
  - split; [vm_compute; reflexivity |].
    exists ("Room B", "http://b/"). split; [| reflexivity].
    vm_compute. right. now left.
  - split; [vm_compute; reflexivity |].
    exists ("Room A", "http://a/"). split; [| reflexivity].
    vm_compute. now left.
Defined.

Lemma X12_one_heading_per_day_witness :
  let out :=
    match Aggregator.generate_html (fun d => d) Example.pulled with
    | inr o => o
    | inl _ => []
    end in
  StronglySorted Z.lt (Aggregator.h2_days out)
  /\ forall d,
      In d (Aggregator.h2_days out)
      <-> existsb (Event.on_day d) (Aggregator.events Example.pulled) = true.
Proof.
  intros out.
  apply (X12_one_heading_per_day (fun d => d) Example.pulled out).
  reflexivity.
Defined.

Lemma X13_distinct_rooms_fit_witness :
  let rooms :=
    Aggregator.build_rooms 0 (Aggregator.feeds Example.aggregator) [] in
  List.length rooms = List.length (Aggregator.feeds Example.aggregator)
  /\ (forall k f,
         nth_error (Aggregator.feeds Example.aggregator) k = Some f ->
         Aggregator.room_of rooms (Some (fst f)) = ret (Z.of_nat k))
  /\ (forall loc i,
         Aggregator.room_of rooms loc = ret i ->
         0 <= Aggregator.col_width * i
         /\ Aggregator.col_width * i + (Aggregator.col_width - 2)
            < Z.of_nat (List.length rooms) * Aggregator.col_width).
Proof.
  apply (X13_distinct_rooms_fit Example.aggregator).
  repeat constructor; cbn [In]; intuition discriminate.
Defined.

Lemma X14_shared_name_overflows_witness :
  let self :=
    Aggregator.add_feed
      (Aggregator.add_feed (Aggregator.__init__ Example.utc 0)
         "Room A" "http://a/")
      "Room A" "http://b/" in
  let rooms := Aggregator.build_rooms 0 (Aggregator.feeds self) [] in
  (List.length rooms < List.length (Aggregator.feeds self))%nat
  /\ exists i,
      Aggregator.room_of rooms (Some "Room A") = ret i
      /\ Z.of_nat (List.length rooms) * Aggregator.col_width
         <= Aggregator.col_width * i.
Proof.
  intros self.
  apply (X14_shared_name_overflows self [("Room A", "http://a/")]
           ("Room A", "http://b/")); [reflexivity |].
  intros H. inversion H as [|? ? Hx _]. apply Hx. now left.
Defined.
